(** * Predict X: the trading and valuation engine of [src/server.js]

    A shallow embedding of the in-memory ledger ([db]), the market
    generator ([generateMarkets]), the price engine ([updatePrices]) and
    the route handlers [POST /api/register], [POST /api/trade],
    [POST /api/sell], [GET /api/leaderboard], [GET /api/me],
    [GET /api/markets], [GET /api/markets/:id] and [GET /api/stats].

    Modelling choices.
    - A JavaScript number is an IEEE 754 binary64 value, so the model uses
      Rocq's primitive [float] with its own [+ - * /] and comparisons;
      [Math.floor], [Math.round], [Math.min] and [Math.max] are defined on
      the decoded sign, mantissa and exponent ([Prim2SF]).
    - [Math.random()], [Date.now()] and [crypto.randomUUID()] are inputs of
      the handlers (records [tick_env], [trade_env], [register_env]).
    - [getUser] stands for token verification: a request carries the user
      id its bearer token verifies to, or nothing.
    - Request bodies are parsed JSON.  [amount] and [marketId] range over
      absent ([Undefined]), [null], booleans and numbers; strings, arrays
      and objects in these two fields would need ECMAScript's string to
      number and property key conversions and are outside the model.
      [side] and [positionId] range over these scalars and strings.
    - [db.users] is a [Map] iterated in insertion order: a list of users
      keyed by [User.id].  [db.positions] is a [Map] from user id to an
      array: a [gmap] of lists.  [db.sessions] and [db.orderBook] are never
      read by the engine and are left out, as are the display-only market
      fields [catName], [icon], [color] and the user's password digest.
    - [Array.prototype.sort] is a stable sort; [sort] is the stable
      insertion sort, which every stable sort agrees with when the
      comparator is consistent.
    - Strings are byte strings: [length] and [substring] count bytes where
      JavaScript counts UTF-16 code units (the same on ASCII text).
    - [String.prototype.toLowerCase] and the conversion of a number to a
      string are parameters of the definitions that call them; nothing is
      assumed of them.  The query parameters of [GET /api/markets] enter
      after [parseInt], as numbers.
    - Token signing and verification, password hashing, [POST /api/login]
      and the HTTP server around the handlers are not modelled. *)

From Stdlib Require Import ZArith Floats Uint63.
From stdpp Require Import base option list sorting strings gmap.

Local Open Scope Z_scope.

(** ** JavaScript numbers *)

Module JS.

Definition number := float.

(** The number with integer value [z], for [0 <= z < 2^63]. *)
Definition of_Z (z : Z) : number := PrimFloat.of_uint63 (Uint63.of_Z z).

Definition of_nat (n : nat) : number := of_Z (Z.of_nat n).

(** [a < b], [a <= b], [a > b] on numbers; all false when an operand is NaN. *)
Definition lt (a b : number) : bool := PrimFloat.ltb a b.
Definition le (a b : number) : bool := PrimFloat.leb a b.
Definition gt (a b : number) : bool := PrimFloat.ltb b a.

(** [Math.floor]: a number with exponent [e >= 0] is already integral;
    otherwise the magnitude [m * 2^e] is cut at the binary point. *)
Definition Math_floor (x : number) : number :=
  match Prim2SF x with
  | S754_finite s m e =>
      if 0 <=? e then x
      else
        let q := Z.shiftr (Zpos m) (- e) in
        if s then
          if Z.shiftl q (- e) =? Zpos m then PrimFloat.opp (of_Z q)
          else PrimFloat.opp (of_Z (q + 1))
        else of_Z q
  | _ => x
  end.

(** [Math.round]: the nearest integer, ties towards +infinity; a result
    of magnitude zero keeps the sign of the argument. *)
Definition Math_round (x : number) : number :=
  match Prim2SF x with
  | S754_finite s m e =>
      if 0 <=? e then x
      else
        let k := - e in
        let n := ((if s then - (2 * Zpos m) else 2 * Zpos m) + 2 ^ k) / 2 ^ (k + 1) in
        if n =? 0 then (if s then neg_zero else zero)
        else if n <? 0 then PrimFloat.opp (of_Z (- n)) else of_Z n
  | _ => x
  end.

(** [Math.min(a, b)] and [Math.max(a, b)]: NaN if either is NaN, and -0 is
    below +0. *)
Definition Math_min (a b : number) : number :=
  if is_nan a || is_nan b then nan
  else if PrimFloat.ltb a b then a
  else if PrimFloat.ltb b a then b
  else if get_sign a then a else b.

Definition Math_max (a b : number) : number :=
  if is_nan a || is_nan b then nan
  else if PrimFloat.ltb a b then b
  else if PrimFloat.ltb b a then a
  else if get_sign a then b else a.

(** A value read from a JSON body, other than a string: an absent property
    is [Undefined]. *)
Inductive scalar :=
| Undefined
| Null
| Bool (b : bool)
| Number (n : number).

Inductive value :=
| Scalar (x : scalar)
| Str (s : string).

(** [ToNumber] on scalars. *)
Definition ToNumber (x : scalar) : number :=
  match x with
  | Undefined => nan
  | Null => zero
  | Bool true => one
  | Bool false => zero
  | Number n => n
  end.

(** Strict equality [===]. *)
Definition scalar_eq (x y : scalar) : bool :=
  match x, y with
  | Undefined, Undefined => true
  | Null, Null => true
  | Bool a, Bool b => eqb a b
  | Number a, Number b => PrimFloat.eqb a b
  | _, _ => false
  end.

Definition strict_eq (x y : value) : bool :=
  match x, y with
  | Scalar a, Scalar b => scalar_eq a b
  | Str a, Str b => bool_decide (a = b)
  | _, _ => false
  end.

(** [Array.prototype.includes] on an array of strings: SameValueZero
    agrees with [===] there. *)
Definition includes (l : list string) (v : value) : bool :=
  existsb (fun s => strict_eq (Str s) v) l.

(** The array index a number stands for as a property key: the number must
    be a non-negative integer (-0 is key "0").  A number with exponent
    [e >= 0] is at least 2^52, beyond every array index. *)
Definition to_index (n : number) : option nat :=
  match Prim2SF n with
  | S754_zero _ => Some 0%nat
  | S754_finite false m e =>
      if 0 <=? e then None
      else if Z.shiftl (Z.shiftr (Zpos m) (- e)) (- e) =? Zpos m
           then Some (Z.to_nat (Z.shiftr (Zpos m) (- e)))
           else None
  | _ => None
  end.

(** [arr[key]] for an array and a scalar key: the keys "undefined", "null",
    "true" and "false" name no property of an array. *)
Definition array_get {A} (arr : list A) (key : scalar) : option (nat * A) :=
  match key with
  | Number n => i ← to_index n; x ← arr !! i; Some (i, x)
  | _ => None
  end.

(** [Array.prototype.findIndex] together with the element found there
    ([Array.prototype.find]): the first element satisfying the predicate. *)
Fixpoint findIndex {A} (p : A -> bool) (l : list A) : option (nat * A) :=
  match l with
  | [] => None
  | x :: l' => if p x then Some (0%nat, x) else prod_map S id <$> findIndex p l'
  end.

(** [Array.prototype.sort] with a comparator.  The sort is stable: an
    element moves behind a later one only when the comparator returns a
    positive number for the pair; zero and NaN leave the order alone. *)
Fixpoint sort_insert {A} (cmp : A -> A -> number) (x : A) (l : list A) : list A :=
  match l with
  | [] => [x]
  | y :: l' => if lt zero (cmp x y) then y :: sort_insert cmp x l' else x :: l
  end.

Definition sort {A} (cmp : A -> A -> number) (l : list A) : list A :=
  foldr (sort_insert cmp) [] l.

End JS.

Import JS.

(** ** The ledger: markets, users, positions, trades *)

Module Market.
Record t := mk {
  id : number;
  title : string;
  cat : string;
  yes : number;
  no : number;
  vol : number;
  users : number;
  days : number;
  history : list number;
  lastUpdate : number
}.
End Market.

Module User.
Record t := mk {
  id : string;
  username : string;
  email : string;
  balance : number;
  created : number;
  wins : number;
  losses : number
}.
End User.

Module Position.
Record t := mk {
  id : string;
  marketId : scalar;
  title : string;
  side : value;
  shares : number;
  avg : number;
  openedAt : number
}.
End Position.

Module Trade.
Record t := mk {
  id : string;
  userId : string;
  marketId : scalar;
  side : value;
  shares : number;
  price : number;
  amount : scalar;
  timestamp : number
}.
End Trade.

(** [const db = { users, markets, trades, positions }]. *)
Record db := mkDb {
  users : list User.t;
  markets : list Market.t;
  trades : list Trade.t;
  positions : gmap string (list Position.t)
}.

(** [db.users.get(id)] and [db.users.set(id, u)] on the insertion-ordered
    map: [set] replaces the entry of an existing key in place and appends a
    new key at the end. *)
Fixpoint users_get (id : string) (us : list User.t) : option User.t :=
  match us with
  | [] => None
  | u :: us' => if bool_decide (User.id u = id) then Some u else users_get id us'
  end.

Fixpoint users_set (id : string) (u : User.t) (us : list User.t) : list User.t :=
  match us with
  | [] => [u]
  | v :: us' =>
      if bool_decide (User.id v = id) then u :: us' else v :: users_set id u us'
  end.

(** The part of a request the handlers look at: the user id the bearer
    token verifies to, and the query string of the URL. *)
Record request := mkReq {
  auth : option string;
  query : list (string * string)
}.

(** [getUser(req)]. *)
Definition getUser (req : request) (st : db) : option User.t :=
  id ← auth req; users_get id (users st).

(** What a handler returns: an error object with its status, or a success
    payload; [Threw] is an exception escaping the handler (answered with
    status 500 by the server). *)
Inductive response (A : Type) :=
| Error (msg : string) (status : nat)
| Ok (payload : A)
| Threw.
Arguments Error {A} msg status.
Arguments Ok {A} payload.
Arguments Threw {A}.

(** ** Price engine *)

(** The values [Math.random()] and [Date.now()] return for the market at
    each index during one run of [updatePrices]. *)
Record tick_env := mkTick {
  random : nat -> number;
  tick_now : nat -> number
}.

(** The body of the [forEach] callback of [updatePrices]. *)
Definition updateMarket (r now : number) (m : Market.t) : Market.t :=
  let change := ((r - 0.5) * 3)%float in
  let yes' := Math_max 1%float (Math_min 99%float (Math_round (Market.yes m + change)%float)) in
  Market.mk (Market.id m) (Market.title m) (Market.cat m)
    yes' (100 - yes')%float
    (Market.vol m) (Market.users m) (Market.days m)
    (tail (Market.history m) ++ [yes'])
    now.

Definition updatePrices (env : tick_env) (st : db) : db :=
  mkDb (users st)
    (imap (fun i m => updateMarket (random env i) (tick_now env i) m) (markets st))
    (trades st) (positions st).

(** ** Registration *)

Record register_env := mkRegEnv {
  reg_uuid : string;
  reg_now : number
}.

Record register_body := mkRegBody {
  reg_username : string;
  reg_email : string;
  reg_password : string
}.

(** [POST /api/register], for string fields (an empty string is falsy).
    The payload is the new user's id and balance. *)
Definition register (env : register_env) (body : register_body) (st : db)
  : response (string * number) * db :=
  let username := reg_username body in
  let email := reg_email body in
  let password := reg_password body in
  if bool_decide (username = "") || bool_decide (email = "") || bool_decide (password = "")
  then (Error "Missing fields" 400, st)
  else if (String.length username <? 3)%nat then (Error "Username too short" 400, st)
  else if (String.length password <? 6)%nat then (Error "Password too short" 400, st)
  else if existsb (fun u => bool_decide (User.email u = email)
                            || bool_decide (User.username u = username)) (users st)
  then (Error "User already exists" 400, st)
  else
    let id := reg_uuid env in
    let user := User.mk id username email 10000%float (reg_now env) 0%float 0%float in
    (Ok (id, User.balance user),
     mkDb (users_set id user (users st)) (markets st) (trades st)
          (<[id := []]> (positions st))).

(** ** Trading *)

Record trade_env := mkTradeEnv {
  position_uuid : string;
  position_now : number;
  trade_uuid : string;
  trade_now : number
}.

Record trade_body := mkTradeBody {
  marketId : scalar;
  side : value;
  amount : scalar
}.

(** [side === 'YES' ? market.yes : market.no]. *)
Definition side_price (side : value) (m : Market.t) : number :=
  if strict_eq side (Str "YES") then Market.yes m else Market.no m.

(** [p => p.marketId === marketId && p.side === side]. *)
Definition same_slot (marketId : scalar) (side : value) (p : Position.t) : bool :=
  scalar_eq (Position.marketId p) marketId && strict_eq (Position.side p) side.

(** The merge branch: [existing.avg] and [existing.shares] are rewritten
    in place. *)
Definition merge_position (price shares : number) (existing : Position.t) : Position.t :=
  let totalShares := (Position.shares existing + shares)%float in
  Position.mk (Position.id existing) (Position.marketId existing)
    (Position.title existing) (Position.side existing)
    totalShares
    (((Position.avg existing * Position.shares existing) + (price * shares)) / totalShares)%float
    (Position.openedAt existing).

(** The position bookkeeping of a Buy (lines 212 to 229): merge into the
    caller's position on the same market and side, or push a new one. *)
Definition upsert (env : trade_env) (body : trade_body) (market : Market.t)
    (price shares : number) (positions : list Position.t) : list Position.t :=
  match findIndex (same_slot (marketId body) (side body)) positions with
  | Some (j, _) => alter (merge_position price shares) j positions
  | None =>
      positions ++
      [Position.mk (position_uuid env) (marketId body)
         (String.substring 0 40 (Market.title market)) (side body)
         shares price (position_now env)]
  end.

(** The execution of a validated Buy (lines 205 to 242) for the user and
    the market found at index [i].  The array
    [db.positions.get(user.id) || []] is the stored one when the user has
    an entry; otherwise it is a fresh array and what is pushed on it is
    lost, which [alter] renders. *)
Definition fill (env : trade_env) (body : trade_body) (user : User.t)
    (i : nat) (market : Market.t) (st : db) : response (number * number) * db :=
  let amt := ToNumber (amount body) in
  let price := side_price (side body) market in
  let shares := Math_floor (amt / (price / 100))%float in
  let user' :=
    User.mk (User.id user) (User.username user) (User.email user)
      (User.balance user - amt)%float
      (User.created user) (User.wins user) (User.losses user) in
  let market' :=
    Market.mk (Market.id market) (Market.title market) (Market.cat market)
      (Market.yes market) (Market.no market)
      (Market.vol market + amt)%float (Market.users market + 1)%float
      (Market.days market) (Market.history market) (Market.lastUpdate market) in
  let record :=
    Trade.mk (trade_uuid env) (User.id user) (marketId body) (side body)
      shares price (amount body) (trade_now env) in
  (Ok (User.balance user', shares),
   mkDb (users_set (User.id user) user' (users st))
        (<[i := market']> (markets st))
        (trades st ++ [record])
        (alter (upsert env body market price shares) (User.id user) (positions st))).

(** [POST /api/trade].  The payload is [(balance, shares)]. *)
Definition trade (env : trade_env) (req : request) (body : trade_body) (st : db)
  : response (number * number) * db :=
  match getUser req st with
  | None => (Error "Unauthorized" 401, st)
  | Some user =>
      let amt := ToNumber (amount body) in
      if negb (includes ["YES"; "NO"] (side body)) then (Error "Invalid side" 400, st)
      else if le amt 0%float || gt amt (User.balance user) then (Error "Invalid amount" 400, st)
      else
        match array_get (markets st) (marketId body) with
        | None => (Error "Market not found" 404, st)
        | Some (i, market) => fill env body user i market st
        end
  end.

(** [POST /api/sell].  The payload is [(balance, payout)].  A position
    whose [marketId] names no market makes [market.yes] throw before
    anything is written. *)
Definition sell (req : request) (positionId : value) (st : db)
  : response (number * number) * db :=
  match getUser req st with
  | None => (Error "Unauthorized" 401, st)
  | Some user =>
      let held := default [] (positions st !! User.id user) in
      match findIndex (fun p => strict_eq (Str (Position.id p)) positionId) held with
      | None => (Error "Position not found" 404, st)
      | Some (idx, pos) =>
          match array_get (markets st) (Position.marketId pos) with
          | None => (Threw, st)
          | Some (_, market) =>
              let currentPrice := side_price (Position.side pos) market in
              let payout := (Position.shares pos * (currentPrice / 100))%float in
              let won := gt currentPrice (Position.avg pos) in
              let user' :=
                User.mk (User.id user) (User.username user) (User.email user)
                  (User.balance user + payout)%float
                  (User.created user)
                  (if won then (User.wins user + 1)%float else User.wins user)
                  (if won then User.losses user else (User.losses user + 1)%float) in
              (Ok (User.balance user', payout),
               mkDb (users_set (User.id user) user' (users st))
                    (markets st) (trades st)
                    (alter (delete idx) (User.id user) (positions st)))
          end
      end
  end.

(** ** Leaderboard *)

Module Entry.
Record t := mk {
  username : string;
  balance : number;
  wins : number;
  winRate : number
}.
End Entry.

(** An entry with its [rank] property added by the final [map]. *)
Module Ranked.
Record t := mk {
  entry : Entry.t;
  rank : number
}.
End Ranked.

(** The [reduce] callback that adds a position's mark-to-market value to
    the accumulator; [None] is the exception raised by [m.yes] on a
    missing market. *)
Definition add_value (ms : list Market.t) (acc : option number) (p : Position.t)
  : option number :=
  a ← acc;
  im ← array_get ms (Position.marketId p);
  Some (a + Position.shares p * (side_price (Position.side p) (snd im) / 100))%float.

(** The [balance] of a leaderboard entry: cash plus the value of the open
    positions at the current prices. *)
Definition netWorth (st : db) (u : User.t) : option number :=
  v ← foldl (add_value (markets st)) (Some 0%float)
        (default [] (positions st !! User.id u));
  Some (User.balance u + v)%float.

Definition winRate (u : User.t) : number :=
  if gt (User.wins u + User.losses u)%float 0%float
  then Math_round (User.wins u / (User.wins u + User.losses u) * 100)%float
  else 0%float.

Definition entry_of (st : db) (u : User.t) : option Entry.t :=
  b ← netWorth st u;
  Some (Entry.mk (User.username u) b (User.wins u) (winRate u)).

(** [(a, b) => b.balance - a.balance]. *)
Definition by_balance (a b : Entry.t) : number :=
  (Entry.balance b - Entry.balance a)%float.

(** [GET /api/leaderboard]: the handler takes no argument, so the request
    it is called with is never looked at. *)
Definition leaderboard (req : request) (st : db) : response (list Ranked.t) :=
  match mapM (entry_of st) (users st) with
  | None => Threw
  | Some entries =>
      Ok (imap (fun i u => Ranked.mk u (of_nat i + 1)%float)
               (take 100 (sort by_balance entries)))
  end.

(** ** Runs of the service *)

Inductive action :=
| Register (env : register_env) (body : register_body)
| Buy (env : trade_env) (req : request) (body : trade_body)
| Sell (req : request) (positionId : value)
| Tick (env : tick_env).

Definition step (st : db) (a : action) : db :=
  match a with
  | Register env body => snd (register env body st)
  | Buy env req body => snd (trade env req body st)
  | Sell req positionId => snd (sell req positionId st)
  | Tick env => updatePrices env st
  end.

Definition run (st : db) (l : list action) : db := foldl step st l.

(** ** A sample catalogue and sample requests

    [generateMarkets] fills [db.markets] with 600 markets, 100 per
    category, whose fields are drawn at random: [yes] is an integer from
    10 to 89 and [no] its complement.  [catalogue] is one such outcome. *)

Definition categories : list string :=
  ["crypto"; "economy"; "sports"; "tech"; "politics"; "entertainment"].

Definition sample_title (c : nat) : string :=
  match c with
  | 0%nat => "Will Bitcoin exceed $500K by 2025?"
  | 1%nat => "Will Gold reach $500K by 2025?"
  | 2%nat => "Will Chiefs win Super Bowl by 2025?"
  | 3%nat => "Will Apple foldable launch by 2025?"
  | 4%nat => "Will Senate flip by 2025?"
  | _ => "Will Streaming record by 2025?"
  end.

Definition sample_market (i : nat) : Market.t :=
  Market.mk (of_nat i) (sample_title (i / 100)%nat)
    (default "" (categories !! (i / 100)%nat))
    40%float 60%float 250000%float 1500%float 120%float
    (replicate 30 50%float) 1700000000000%float.

Definition catalogue : list Market.t := sample_market <$> seq 0 600.

Definition db0 : db := mkDb [] catalogue [] ∅.

Definition alice_id : string := "3b241101-e2bb-4255-8caf-4136c566a962".

Definition register_alice : action :=
  Register (mkRegEnv alice_id 1700000001000%float) (mkRegBody "alice" "alice@example.com" "hunter22").

(** The state after Alice has registered: she holds 10000 and no position. *)
Definition db1 : db := run db0 [register_alice].

Definition as_alice : request := mkReq (Some alice_id) [].

Definition alice : User.t :=
  User.mk alice_id "alice" "alice@example.com" 10000%float 1700000001000%float
    0%float 0%float.

Definition env1 : trade_env :=
  mkTradeEnv "9f1c2c3e-0000-4000-8000-000000000001" 1700000002000%float
             "9f1c2c3e-0000-4000-8000-000000000002" 1700000002000%float.

Definition env2 : trade_env :=
  mkTradeEnv "9f1c2c3e-0000-4000-8000-000000000003" 1700000003000%float
             "9f1c2c3e-0000-4000-8000-000000000004" 1700000003000%float.

(** Buy YES on market 0 for the given amount. *)
Definition buy_yes (amount : scalar) : trade_body :=
  mkTradeBody (Number 0%float) (Str "YES") amount.

(** Alice buys YES on market 0 for 20: 50 shares at 40. *)
Definition buy20 : action := Buy env1 as_alice (buy_yes (Number 20%float)).

Definition db2 : db := run db1 [buy20].

Definition position1 : Position.t :=
  Position.mk "9f1c2c3e-0000-4000-8000-000000000001" (Number 0%float)
    "Will Bitcoin exceed $500K by 2025?" (Str "YES") 50%float 40%float
    1700000002000%float.

(** Market 0 after that Buy: volume and participant count have grown. *)
Definition market0_bought : Market.t :=
  Market.mk 0%float (sample_title 0) "crypto" 40%float 60%float
    250020%float 1501%float 120%float (replicate 30 50%float) 1700000000000%float.

(** One run of [updatePrices] in which every draw of [Math.random()] is
    0.875: each price moves up by one, market 0 from 40 to 41. *)
Definition tick_up : tick_env :=
  mkTick (fun _ => 0.875%float) (fun _ => 1700000002500%float).

(** Alice sells her position after that tick, at 41 against a cost of 40. *)
Definition db3 : db :=
  run db2 [Tick tick_up; Sell as_alice (Str (Position.id position1))].

(** A Buy whose body has no [amount] property, and a Buy too small to pay
    for one share (0.25 at a price of 40). *)
Definition buy_no_amount : action := Buy env1 as_alice (buy_yes Undefined).


(** ** Two Buys at two prices

    Between two requests the price engine may have moved a market.
    [set_price i yes st] is the ledger with market [i] repriced the way
    [updatePrices] writes prices: a new [yes] and [no = 100 - yes]. *)
Definition reprice (yes : number) (m : Market.t) : Market.t :=
  Market.mk (Market.id m) (Market.title m) (Market.cat m)
    yes (100 - yes)%float
    (Market.vol m) (Market.users m) (Market.days m) (Market.history m)
    (Market.lastUpdate m).

Definition set_price (i : nat) (yes : number) (st : db) : db :=
  mkDb (users st) (alter (reprice yes) i (markets st)) (trades st) (positions st).

(** The price of a side when [yes] is the market's YES price. *)
Definition price_at (side : value) (yes : number) : number :=
  if strict_eq side (Str "YES") then yes else (100 - yes)%float.

(** A Buy of [a] on market [i] priced at [y], then a Buy of [a'] on the
    same market and side priced at [y']; [None] unless both succeed. *)
Definition two_buys (e e' : trade_env) (req : request) (mid : scalar) (sd : value)
    (i : nat) (st : db) (y a y' a' : number) : option db :=
  match trade e req (mkTradeBody mid sd (Number a)) (set_price i y st) with
  | (Ok _, st1) =>
      match trade e' req (mkTradeBody mid sd (Number a')) (set_price i y' st1) with
      | (Ok _, st2) => Some st2
      | _ => None
      end
  | _ => None
  end.

(** ** Reading numbers through their sign, mantissa and exponent *)

(** The sign of a number, [None] for NaN. *)
Definition SFsign (x : spec_float) : option bool :=
  match x with
  | S754_zero s | S754_infinity s | S754_finite s _ _ => Some s
  | S754_nan => None
  end.

(** The decoded form of the number [of_Z (Zpos p)] when [p < 2^53]: the
    mantissa is [p] shifted up to 53 binary digits. *)
Definition SF_of_pos (p : positive) : spec_float :=
  let d := Zpos (digits2_pos p) in
  S754_finite false (Z.to_pos (Zpos p * 2 ^ (53 - d))) (d - 53).

(** The numbers [Math.round] and [Math.floor] can return for an argument
    that is not NaN: a zero, an infinity, a number of exponent [e >= 0],
    or plus or minus an integer below 2^53. *)
Inductive whole : number -> Prop :=
| whole_zero z s : Prim2SF z = S754_zero s -> whole z
| whole_infinity z s : Prim2SF z = S754_infinity s -> whole z
| whole_large z s m e : Prim2SF z = S754_finite s m e -> 0 <= e -> whole z
| whole_pos p : Zpos p < 2 ^ 53 -> whole (of_Z (Zpos p))
| whole_neg p : Zpos p < 2 ^ 53 -> whole (PrimFloat.opp (of_Z (Zpos p))).

(** [Math.max(1, Math.min(99, z))]. *)
Definition clamp (z : number) : number := Math_max 1%float (Math_min 99%float z).

(** What is checked, by evaluation, of each integer price from 1 to 99. *)
Definition small_ok (n : Z) : bool :=
  PrimFloat.Leibniz.eqb (clamp (of_Z n)) (of_Z n)
  && le 1%float (of_Z n) && le (of_Z n) 99%float
  && PrimFloat.eqb ((100 - of_Z n) + of_Z n)%float 100%float.

(** ** Price invariants *)

Definition price_in_range (m : Market.t) : Prop :=
  le 1%float (Market.yes m) = true /\ le (Market.yes m) 99%float = true.

Definition price_ok (m : Market.t) : Prop :=
  price_in_range m
  /\ PrimFloat.eqb (Market.no m + Market.yes m)%float 100%float = true.

(** Every draw of [Math.random()] lies in [0, 1). *)
Definition fair_draws (env : tick_env) : Prop :=
  forall i, le 0%float (random env i) = true /\ lt (random env i) 1%float = true.

(** ** Ranking *)



(** Bob registers after Alice; Alice buys 50 YES shares of market 0 at 40
    and the price then drops to 39 (every draw of [Math.random()] being
    0.125), which leaves her worth 9999.5 against Bob's 10000. *)
Definition bob_id : string := "7c9e6679-7425-40de-944b-e07fc1f90ae7".

Definition register_bob : action :=
  Register (mkRegEnv bob_id 1700000001500%float) (mkRegBody "bob" "bob@example.com" "s3cret!").

Definition tick_down : tick_env :=
  mkTick (fun _ => 0.125%float) (fun _ => 1700000002500%float).

Definition actions4 : list action :=
  [register_alice; register_bob; buy20; Tick tick_down].

Definition db4 : db := run db0 actions4.



Definition bob : User.t :=
  User.mk bob_id "bob" "bob@example.com" 10000%float 1700000001500%float
    0%float 0%float.



Definition alice3 : User.t :=
  User.mk alice_id "alice" "alice@example.com" 10000.5%float 1700000001000%float
    1%float 0%float.

Definition board3 : list Ranked.t :=
  [Ranked.mk (Entry.mk "alice" 10000.5%float 1%float 100%float) 1%float].

(** ** Well-formed ledgers *)

(** Every open position names a market of the catalogue. *)
Definition positions_wf (st : db) : Prop :=
  forall id ps p,
    positions st !! id = Some ps -> p ∈ ps ->
    is_Some (array_get (markets st) (Position.marketId p)).

(** ** Positions, slot by slot *)



(** Bob after registration, and his requests. *)
Definition as_bob : request := mkReq (Some bob_id) [].

(** The ledger in which Alice holds [position1] and Bob holds nothing. *)
Definition db5 : db := run db0 [register_alice; register_bob; buy20].

(** The fields of a market that say which market it is. *)
Definition same_market (m m' : Market.t) : Prop :=
  Market.id m' = Market.id m /\ Market.title m' = Market.title m
  /\ Market.cat m' = Market.cat m /\ Market.days m' = Market.days m.

Definition is_tick (a : action) : bool :=
  match a with Tick _ => true | _ => false end.

Definition is_buy (a : action) : bool :=
  match a with Buy _ _ _ => true | _ => false end.

(** Alice buys NO on market 0 for 30 (50 shares at 60), then YES again
    for 20: she ends with a YES and a NO position on market 0. *)
Definition buy_no30 : action :=
  Buy env2 as_alice (mkTradeBody (Number 0%float) (Str "NO") (Number 30%float)).

Definition actions6 : list action := [register_alice; buy20; buy_no30; buy20].

Definition db6 : db := run db0 actions6.

(** ** Accounts *)

(** No two users share a username, an email or an id. *)
Definition accounts_distinct (st : db) : Prop :=
  NoDup (User.username <$> users st)
  /\ NoDup (User.email <$> users st)
  /\ NoDup (User.id <$> users st).

(** Carol asks for an account with Alice's email, and Alice for a second
    account; both are refused. *)
Definition register_carol : action :=
  Register (mkRegEnv "1b9d6bcd-bbfd-4b2d-9b5d-ab8dfbbd4bed" 1700000004000%float)
           (mkRegBody "carol" "alice@example.com" "pa55word").

Definition actions7 : list action := actions4 ++ [register_carol; register_alice].

(** ** What happens to a market over time *)

(** What trading never writes: the prices, the history and the update
    stamp of a market. *)
Definition same_quote (m m' : Market.t) : Prop :=
  Market.yes m' = Market.yes m /\ Market.no m' = Market.no m
  /\ Market.history m' = Market.history m
  /\ Market.lastUpdate m' = Market.lastUpdate m.

(** What the price engine never writes: volume and participant count. *)
Definition same_activity (m m' : Market.t) : Prop :=
  Market.vol m' = Market.vol m /\ Market.users m' = Market.users m.

(** The YES price of market [i], if there is one. *)
Definition yes_at (i : nat) (st : db) : option number :=
  Market.yes <$> markets st !! i.

(** The YES prices of market [i] after each of the ticks [envs] in turn,
    oldest first. *)
Fixpoint price_trace (i : nat) (st : db) (envs : list tick_env) : list number :=
  match envs with
  | [] => []
  | env :: envs' =>
      let st' := updatePrices env st in
      default [] ((fun y => [y]) <$> yes_at i st') ++ price_trace i st' envs'
  end.

(** ** Solvency *)

(** [0 <= x]: a zero, a positive number or [Infinity]; never NaN. *)
Definition nonneg (x : number) : Prop := le 0%float x = true.

(** A market quoted the way the price engine quotes it: an integer YES
    price from 1 to 99 and its complement. *)
Definition quoted (m : Market.t) : Prop :=
  exists n, 1 <= n <= 99 /\ Market.yes m = of_Z n /\ Market.no m = (100 - of_Z n)%float.

(** [x] is a positive number other than [Infinity]. *)
Definition positive_finite (x : number) : bool :=
  match Prim2SF x with
  | S754_finite false _ _ => true
  | _ => false
  end.

(** What is checked, by evaluation, of each integer price from 1 to 99
    and of its complement. *)
Definition quote_ok (n : Z) : bool :=
  le 1%float (100 - of_Z n)%float && le (100 - of_Z n)%float 99%float
  && positive_finite (of_Z n / 100)%float
  && positive_finite ((100 - of_Z n) / 100)%float.

(** No balance and no share count is negative or NaN, and every market is
    quoted. *)
Definition solvent (st : db) : Prop :=
  Forall (fun u => nonneg (User.balance u)) (users st)
  /\ (forall id ps p, positions st !! id = Some ps -> p ∈ ps -> nonneg (Position.shares p))
  /\ Forall quoted (markets st).

(** The requests and draws under which solvency is kept: the amount of a
    Buy is a number below [Infinity] (not NaN, as a missing amount is),
    and the draws of a tick lie in [0, 1). *)
Definition sound (a : action) : Prop :=
  match a with
  | Buy _ _ body => lt (ToNumber (amount body)) infinity = true
  | Tick env => fair_draws env
  | _ => True
  end.

(** ** Reading the ledger *)

(** The [user] object of [GET /api/me]. *)
Module Profile.
Record t := mk {
  id : string;
  username : string;
  email : string;
  balance : number;
  wins : number;
  losses : number
}.
End Profile.

(** [GET /api/me].  The payload is the profile and the caller's open
    positions. *)
Definition me (req : request) (st : db) : response (Profile.t * list Position.t) :=
  match getUser req st with
  | None => Error "Unauthorized" 401
  | Some user =>
      Ok (Profile.mk (User.id user) (User.username user) (User.email user)
            (User.balance user) (User.wins user) (User.losses user),
          default [] (positions st !! User.id user))
  end.

(** [GET /api/markets/:id].  The router matches the path against
    [/\/(\d+)$/], so [req.params.id] is a string of decimal digits, [Some n]
    with [n] the number they write; it is absent, [None], for the literal
    path ["/api/markets/:id"], and [parseInt] then returns NaN, which
    indexes nothing.  An array is shorter than 2^32, so the rounding of
    [parseInt] from 2^53 on cannot turn a missing index into a present
    one. *)
Definition market_by_id (id : option N) (st : db) : response Market.t :=
  match id with
  | None => Error "Market not found" 404
  | Some n =>
      match markets st !! N.to_nat n with
      | None => Error "Market not found" 404
      | Some m => Ok m
      end
  end.

(** [GET /api/stats]; the three counts are array lengths and a map size. *)
Module Stats.
Record t := mk {
  totalMarkets : nat;
  totalUsers : nat;
  totalVolume : number;
  totalTrades : nat
}.
End Stats.

Definition stats (st : db) : Stats.t :=
  Stats.mk (length (markets st)) (length (users st))
    (foldl (fun a m => (a + Market.vol m)%float) 0%float (markets st))
    (length (trades st)).

(** Every market carries its index in the array as its id, as
    [generateMarkets] numbers them. *)
Definition ids_are_indices (ms : list Market.t) : Prop :=
  forall i m, ms !! i = Some m -> Market.id m = of_nat i.

Definition is_register (a : action) : bool :=
  match a with Register _ _ => true | _ => false end.

(** ** Market generation *)

(** [x] is a zero or a positive number below [M * 2^EB], where [M] is a
    53-bit mantissa. *)
Definition below (M : positive) (EB : Z) (x : spec_float) : bool :=
  match x with
  | S754_zero _ => true
  | S754_finite false m e => (e <? EB) || ((e =? EB) && (Zpos m <? Zpos M))
  | _ => false
  end.

(** The largest number below 1. *)
Definition pred_one : spec_float := S754_finite false 9007199254740991 (-53).

(** [TITLES[c.id]]. *)
Definition TITLES (cat : string) : list string :=
  if bool_decide (cat = "crypto") then
    ["Bitcoin exceed $%dK"; "Ethereum reach $%dK"; "Solana hit $%d";
     "BTC dominance above %d%"; "Crypto market cap $%dT"]
  else if bool_decide (cat = "economy") then
    ["Fed cut rates %d times"; "Inflation below %d%"; "S&P 500 reach %d";
     "Gold reach $%dK"; "Oil above $%d"]
  else if bool_decide (cat = "sports") then
    ["Chiefs win Super Bowl"; "Lakers win Finals"; "World Cup winner %d goals";
     "Olympics %d golds"; "UFC PPV record"]
  else if bool_decide (cat = "tech") then
    ["GPT-%d release"; "Apple foldable launch"; "Tesla FSD level %d";
     "SpaceX Starship success"; "AI regulations %d countries"]
  else if bool_decide (cat = "politics") then
    ["Election turnout %d%"; "Senate flip"; "Trade deal signed";
     "Climate accord %d nations"; "Infrastructure $%dB"]
  else if bool_decide (cat = "entertainment") then
    ["Movie gross $%dB"; "Album %dM sales"; "Netflix hit %dM";
     "Streaming record"; "Concert $%dM tour"]
  else [].

(** [template.replace("%d", s)]: the first occurrence of ["%d"], if any,
    is replaced by [s], a string without [$]. *)
Fixpoint replace_d (template s : string) : string :=
  match template with
  | EmptyString => EmptyString
  | String c rest =>
      if String.prefix "%d" template
      then s ++ String.substring 1 (String.length rest) rest
      else String c (replace_d rest s)
  end.

(** The values [Math.random()] returns, call by call, while the markets
    are generated, and the value of [Date.now()] for each market. *)
Record gen_env := mkGen {
  gen_random : nat -> number;
  gen_now : nat -> number
}.

Section Generate.

(** The conversion of a number to a string, which [replace] applies to
    [num]; its result holds no [$]. *)
Variable Number_toString : number -> string.

(** The body of the [for] loop for the market numbered [id] of category
    [cat], which makes the calls [36 * id] to [36 * id + 35] of
    [Math.random()]: the market pushed, or [None] when [template] is
    [undefined] and [template.replace] throws.  ([db.orderBook] is written
    here and read nowhere.) *)
Definition market_of (env : gen_env) (cat : string) (id : nat) : option Market.t :=
  let r k := gen_random env (36 * id + k)%nat in
  let templates := TITLES cat in
  it ← array_get templates (Number (Math_floor (r 0%nat * of_nat (length templates))%float));
  let num := (Math_floor (r 1%nat * 900) + 100)%float in
  let title := replace_d (snd it) (Number_toString num) in
  let yes := (Math_floor (r 2%nat * 80) + 10)%float in
  Some (Market.mk (of_nat id) ("Will " ++ title ++ " by 2025?") cat
          yes (100 - yes)%float
          (Math_floor (r 3%nat * 5000000) + 100000)%float
          (Math_floor (r 4%nat * 10000) + 100)%float
          (Math_floor (r 5%nat * 300) + 30)%float
          ((fun j => (Math_floor (r (6 + j)%nat * 60) + 20)%float) <$> seq 0 30)
          (gen_now env id)).

(** The [for] loop of one category, entered with the counter at [id]. *)
Definition generate_category (env : gen_env) (cat : string) (id : nat)
  : option (list Market.t) :=
  mapM (fun i => market_of env cat (id + i)) (seq 0 100).

(** [generateMarkets()] on an empty [db.markets]: the markets pushed, or
    [None] when it throws.  The state of the [forEach] is the counter [id]
    and the array. *)
Definition generateMarkets (env : gen_env) : option (list Market.t) :=
  snd <$>
    foldl (fun acc cat =>
             st ← acc;
             new ← generate_category env cat (fst st);
             Some ((fst st + length new)%nat, snd st ++ new))
          (Some (0%nat, [])) categories.

End Generate.

(** What is checked, by evaluation, of each value [Math.floor] can return
    for the YES price of a new market. *)
Definition yes_ok (k : Z) : bool :=
  PrimFloat.Leibniz.eqb (of_Z k + 10)%float (of_Z (k + 10)).

(** A run of [generateMarkets] in which every draw is 0.375. *)
Definition gen_env0 : gen_env :=
  mkGen (fun _ => 0.375%float) (fun _ => 1700000000000%float).

(** Every draw of [Math.random()] lies in [0, 1). *)
Definition fair_gen (env : gen_env) : Prop :=
  forall k, le 0%float (gen_random env k) = true /\ lt (gen_random env k) 1%float = true.

(** A market as [generateMarkets] prices it: an integer YES price from 10
    to 89 and its complement. *)
Definition freshly_quoted (m : Market.t) : Prop :=
  exists n, 10 <= n <= 89 /\ Market.yes m = of_Z n /\ Market.no m = (100 - of_Z n)%float.

(** ** Listing markets *)

(** The integer part of [m * 2^e]. *)
Definition truncate (m : positive) (e : Z) : Z :=
  if 0 <=? e then Zpos m * 2 ^ e else Z.shiftr (Zpos m) (- e).

(** The index from 0 to [len] that the argument [x] of
    [Array.prototype.slice] stands for: [ToIntegerOrInfinity(x)], counted
    from the end when negative, and clamped.  NaN and -0 count as 0. *)
Definition slice_index (len : nat) (x : number) : nat :=
  match Prim2SF x with
  | S754_infinity false => len
  | S754_finite s m e =>
      let t := truncate m e in
      if s && negb (t =? 0) then Z.to_nat (Z.max (Z.of_nat len - t) 0)
      else Z.to_nat (Z.min t (Z.of_nat len))
  | _ => 0%nat
  end.

(** [arr.slice(start, end)]. *)
Definition slice {A} (arr : list A) (start end_ : number) : list A :=
  let k := slice_index (length arr) start in
  let final := slice_index (length arr) end_ in
  take (final - k) (drop k arr).

(** [hay.includes(needle)] on strings. *)
Fixpoint includes_str (hay needle : string) : bool :=
  String.prefix needle hay
  || match hay with
     | String _ hay' => includes_str hay' needle
     | EmptyString => false
     end.

(** An entry of the list: a market without its history and update stamp. *)
Module Summary.
Record t := mk {
  id : number;
  title : string;
  cat : string;
  yes : number;
  no : number;
  vol : number;
  users : number;
  days : number
}.
End Summary.

Definition summary (m : Market.t) : Summary.t :=
  Summary.mk (Market.id m) (Market.title m) (Market.cat m) (Market.yes m) (Market.no m)
    (Market.vol m) (Market.users m) (Market.days m).

Module Listing.
Record t := mk {
  total : nat;
  markets : list Summary.t
}.
End Listing.

Section List_markets.

(** [String.prototype.toLowerCase]. *)
Variable toLowerCase : string -> string.

(** The two filters of [GET /api/markets] (lines 173 to 175); [cat] and
    [search] are [null] when [None], and an empty string is falsy. *)
Definition matching (cat search : option string) (ms : list Market.t) : list Market.t :=
  let ms1 :=
    match cat with
    | Some c =>
        if bool_decide (c = "") || bool_decide (c = "all") then ms
        else filter (fun m => Market.cat m = c) ms
    | None => ms
    end in
  match search with
  | Some s =>
      if bool_decide (s = "") then ms1
      else filter (fun m => includes_str (toLowerCase (Market.title m)) s = true) ms1
  | None => ms1
  end.

(** [GET /api/markets], from the parameters read off the URL: [cat] and
    [q] are the values of [searchParams.get], and [limit] and [offset] the
    numbers [parseInt(...) || 50] and [parseInt(...) || 0]. *)
Definition list_markets (cat q : option string) (limit offset : number) (st : db)
  : Listing.t :=
  let ms := matching cat (toLowerCase <$> q) (markets st) in
  Listing.mk (length ms) (summary <$> slice ms offset (offset + limit)%float).

End List_markets.

(** ** Every user has a position array *)


(** The position ids drawn by the Buys of a run, in order. *)
Definition position_uuids (l : list action) : list string :=
  omap (fun a => match a with Buy env _ _ => Some (position_uuid env) | _ => None end) l.

(** The ids of the open positions of every user are among [seen]. *)
Definition position_ids_among (seen : list string) (st : db) : Prop :=
  forall id ps p, positions st !! id = Some ps -> p ∈ ps -> Position.id p ∈ seen.

(** No user holds two positions with the same id. *)
Definition position_ids_distinct (st : db) : Prop :=
  forall id ps, positions st !! id = Some ps -> NoDup (Position.id <$> ps).

Definition is_sell (a : action) : bool :=
  match a with Sell _ _ => true | _ => false end.

Definition actions8 : list action :=
  [register_alice; buy20; buy_no30;
   Sell as_alice (Str "9f1c2c3e-0000-4000-8000-000000000001")].

(** The counters of [u] are whole numbers that add up to at most [n]. *)
Definition counted (n : nat) (u : User.t) : Prop :=
  exists w l : nat,
    User.wins u = of_nat w /\ User.losses u = of_nat l /\ (w + l <= n)%nat.

(** ** The largest step of a price *)

(** The largest draw [Math.random()] can return. *)
Definition top_draw : number := SF2Prim pred_one.

(** What is checked, by evaluation, of each integer price from 3 to 97:
    where the largest and the smallest draw take it. *)
Definition step_ok (n : Z) : bool :=
  PrimFloat.Leibniz.eqb (clamp (Math_round (of_Z n + (top_draw - 0.5) * 3)%float))
                        (of_Z (n + 2))
  && PrimFloat.Leibniz.eqb (clamp (Math_round (of_Z n + (0 - 0.5) * 3)%float))
                           (of_Z (n - 1)).

(** * Properties *)

(** ** Numbers: comparisons *)

Lemma SFcompare_antisym (x y : spec_float) :
  SFcompare y x = CompOpp <$> SFcompare x y.
Proof.
  destruct x as [[]|[]| |[] mx ex], y as [[]|[]| |[] my ey]; simpl; try reflexivity.
  all: rewrite (Z.compare_antisym ey ex); destruct (ey ?= ex) eqn:E; simpl; try reflexivity.
  all: change (Pos.compare_cont Eq ?a ?b) with (Pos.compare a b).
  all: rewrite (Pos.compare_antisym my mx); try reflexivity.
  all: destruct (my ?= mx)%positive; reflexivity.
Qed.



Lemma eq_not_gt (x y : number) : PrimFloat.eqb x y = true -> gt x y = false.
Proof.
  unfold gt. rewrite FloatAxioms.ltb_spec, FloatAxioms.eqb_spec. unfold SFltb, SFeqb.
  rewrite (SFcompare_antisym (Prim2SF x) (Prim2SF y)).
  destruct (SFcompare (Prim2SF x) (Prim2SF y)) as [[]|]; simpl; congruence.
Qed.

(** ** The ledger accessors *)

Lemma users_get_id id us u : users_get id us = Some u -> User.id u = id.
Proof.
  induction us as [|v us IH]; simpl; [discriminate|].
  case_bool_decide; [intros [= <-]; assumption | exact IH].
Qed.

Lemma users_get_set id us u u' :
  users_get id us = Some u -> User.id u' = id ->
  users_get id (users_set id u' us) = Some u'.
Proof.
  intros Hget Hid. induction us as [|v us IH]; simpl in *; [discriminate|].
  case_bool_decide as Hv; simpl.
  - rewrite bool_decide_eq_true_2 by assumption. reflexivity.
  - rewrite bool_decide_eq_false_2 by assumption. auto.
Qed.

Lemma getUser_Some req st u :
  getUser req st = Some u -> users_get (User.id u) (users st) = Some u.
Proof.
  unfold getUser. destruct (auth req) as [id|]; simpl; [|discriminate].
  intros H. rewrite (users_get_id _ _ _ H). exact H.
Qed.

Lemma findIndex_Some {A} (p : A -> bool) (l : list A) i x :
  findIndex p l = Some (i, x) ->
  l !! i = Some x /\ p x = true /\
  forall j y, (j < i)%nat -> l !! j = Some y -> p y = false.
Proof.
  revert i. induction l as [|a l IH]; intros i; simpl; [discriminate|].
  destruct (p a) eqn:Ha.
  - intros [= <- <-]. repeat split; [assumption|]. intros j y Hj. lia.
  - destruct (findIndex p l) as [[k z]|] eqn:Hf; simpl; [|discriminate].
    intros [= <- <-]. destruct (IH k eq_refl) as (Hl & Hp & Hmin).
    repeat split; [assumption..|].
    intros [|j] y Hj; simpl; [intros [= <-]; assumption|].
    apply Hmin. lia.
Qed.

(** ** Buying *)






(** ** Selling *)

Lemma NoDup_fmap_delete {A B} (f : A -> B) (l : list A) i x :
  NoDup (f <$> l) -> l !! i = Some x ->
  forall y, y ∈ delete i l -> f y <> f x.
Proof.
  revert i. induction l as [|a l IH]; intros i Hnd Hi y Hy; [discriminate|].
  rewrite fmap_cons in Hnd. apply NoDup_cons in Hnd as [Ha Hnd].
  destruct i as [|i]; simpl in *.
  - injection Hi as <-. intros Heq. apply Ha. rewrite <- Heq.
    apply list_elem_of_fmap. eauto.
  - apply elem_of_cons in Hy as [->|Hy]; [|eauto].
    intros Heq. apply Ha. rewrite Heq.
    apply list_elem_of_fmap. exists x. split; [reflexivity|].
    eapply list_elem_of_lookup_2. exact Hi.
Qed.

(** What [sell] does once the position and its market are found. *)
Lemma sell_found req positionId st user ps idx pos i market :
  getUser req st = Some user ->
  positions st !! User.id user = Some ps ->
  findIndex (fun p => strict_eq (Str (Position.id p)) positionId) ps = Some (idx, pos) ->
  array_get (markets st) (Position.marketId pos) = Some (i, market) ->
  let currentPrice := side_price (Position.side pos) market in
  let payout := (Position.shares pos * (currentPrice / 100))%float in
  let won := gt currentPrice (Position.avg pos) in
  let user' :=
    User.mk (User.id user) (User.username user) (User.email user)
      (User.balance user + payout)%float (User.created user)
      (if won then (User.wins user + 1)%float else User.wins user)
      (if won then User.losses user else (User.losses user + 1)%float) in
  sell req positionId st =
    (Ok (User.balance user + payout, payout)%float,
     mkDb (users_set (User.id user) user' (users st)) (markets st) (trades st)
          (alter (delete idx) (User.id user) (positions st))).
Proof.
  intros Huser Hps Hfind Hm. unfold sell.
  rewrite Huser, Hps. simpl default. rewrite Hfind, Hm. reflexivity.
Qed.

(** C2.  Selling an open position of the caller that holds [s] shares, at
    the current side price [p] of its market, pays out [s * (p / 100)];
    the payout is added to the caller's balance, and the position is
    removed from the caller's open positions, where (position ids being
    distinct) no entry with its id is left.  The whole position goes: the
    handler has no quantity parameter. *)
Theorem sell_pays_out_and_closes req positionId st user ps idx pos i market :
  getUser req st = Some user ->
  positions st !! User.id user = Some ps ->
  findIndex (fun p => strict_eq (Str (Position.id p)) positionId) ps = Some (idx, pos) ->
  array_get (markets st) (Position.marketId pos) = Some (i, market) ->
  NoDup (Position.id <$> ps) ->
  let p := side_price (Position.side pos) market in
  let payout := (Position.shares pos * (p / 100))%float in
  let st' := snd (sell req positionId st) in
  fst (sell req positionId st) = Ok (User.balance user + payout, payout)%float
  /\ User.balance <$> users_get (User.id user) (users st')
     = Some (User.balance user + payout)%float
  /\ positions st' !! User.id user = Some (delete idx ps)
  /\ (forall q, q ∈ delete idx ps -> Position.id q <> Position.id pos)
  /\ pos ∉ delete idx ps.
Proof.
  intros Huser Hps Hfind Hm Hnd. simpl.
  rewrite (sell_found _ _ _ _ _ _ _ _ _ Huser Hps Hfind Hm). simpl.
  destruct (findIndex_Some _ _ _ _ Hfind) as (Hidx & _ & _).
  assert (Hgone : forall q, q ∈ delete idx ps -> Position.id q <> Position.id pos).
  { intros q Hq. eapply NoDup_fmap_delete; eauto. }
  split; [reflexivity|]. split.
  { erewrite users_get_set; [reflexivity| |reflexivity].
    apply getUser_Some with (req := req). exact Huser. }
  split.
  { rewrite lookup_alter_eq, Hps. reflexivity. }
  split; [exact Hgone|].
  intros Hin. exact (Hgone pos Hin eq_refl).
Qed.

Lemma sell_pays_out_and_closes_witness :
  getUser as_alice db2 = Some (User.mk alice_id "alice" "alice@example.com"
                                 9980%float 1700000001000%float 0%float 0%float) /\
  positions db2 !! alice_id = Some [position1] /\
  fst (sell as_alice (Str (Position.id position1)) db2) = Ok (10000%float, 20%float) /\
  positions (snd (sell as_alice (Str (Position.id position1)) db2)) !! alice_id = Some [].
Proof.
  split; [reflexivity|]. split; [vm_compute; reflexivity|].
  pose proof (sell_pays_out_and_closes as_alice (Str (Position.id position1)) db2
                (User.mk alice_id "alice" "alice@example.com"
                   9980%float 1700000001000%float 0%float 0%float)
                [position1] 0%nat position1 0%nat market0_bought) as H.
  destruct H as (H1 & _ & H3 & _).
  - reflexivity.
  - vm_compute; reflexivity.
  - reflexivity.
  - reflexivity.
  - repeat constructor. intros Hin. inversion Hin.
  - split; [exact H1 | exact H3].
Defined.

(** C8.  A successful Sell increments exactly one of the caller's two
    counters: [wins] when the current side price is strictly greater than
    the position's average cost, [losses] in every other case; a price
    equal to the average cost is one of those other cases and counts as a
    loss. *)
Theorem sell_counts_one_win_or_loss req positionId st user ps idx pos i market :
  getUser req st = Some user ->
  positions st !! User.id user = Some ps ->
  findIndex (fun p => strict_eq (Str (Position.id p)) positionId) ps = Some (idx, pos) ->
  array_get (markets st) (Position.marketId pos) = Some (i, market) ->
  let p := side_price (Position.side pos) market in
  let st' := snd (sell req positionId st) in
  exists user',
    users_get (User.id user) (users st') = Some user'
    /\ (gt p (Position.avg pos) = true ->
          User.wins user' = (User.wins user + 1)%float
          /\ User.losses user' = User.losses user)
    /\ (gt p (Position.avg pos) = false ->
          User.wins user' = User.wins user
          /\ User.losses user' = (User.losses user + 1)%float)
    /\ (PrimFloat.eqb p (Position.avg pos) = true ->
          User.wins user' = User.wins user
          /\ User.losses user' = (User.losses user + 1)%float).
Proof.
  intros Huser Hps Hfind Hm. simpl.
  rewrite (sell_found _ _ _ _ _ _ _ _ _ Huser Hps Hfind Hm). simpl.
  eexists. split.
  { eapply users_get_set; [|reflexivity].
    apply getUser_Some with (req := req). exact Huser. }
  simpl. repeat split.
  - rewrite H. reflexivity.
  - rewrite H. reflexivity.
  - rewrite H. reflexivity.
  - rewrite H. reflexivity.
  - rewrite (eq_not_gt _ _ H). reflexivity.
  - rewrite (eq_not_gt _ _ H). reflexivity.
Qed.

Lemma sell_counts_one_win_or_loss_witness :
  PrimFloat.eqb (side_price (Position.side position1) market0_bought)
                (Position.avg position1) = true /\
  exists user',
    users_get alice_id (users (snd (sell as_alice (Str (Position.id position1)) db2)))
      = Some user'
    /\ User.wins user' = 0%float /\ User.losses user' = 1%float.
Proof.
  split; [reflexivity|].
  destruct (sell_counts_one_win_or_loss as_alice (Str (Position.id position1)) db2
              (User.mk alice_id "alice" "alice@example.com"
                 9980%float 1700000001000%float 0%float 0%float)
              [position1] 0%nat position1 0%nat market0_bought)
    as (user' & Hget & _ & _ & Heq).
  - reflexivity.
  - vm_compute; reflexivity.
  - reflexivity.
  - reflexivity.
  - exists user'. split; [exact Hget|]. exact (Heq eq_refl).
Defined.

(** ** Balances *)

(** C3.  The claim is that a balance is never negative, whatever reaches
    the trade interface.  It fails on the code: a Buy whose body carries no
    [amount] passes the check [amount <= 0 || amount > user.balance], both
    comparisons with [undefined] being false, and [user.balance -= amount]
    then stores NaN, for which [balance >= 0] is false.  Alice starts with
    10000 at registration and is left with NaN. *)
Theorem buy_without_amount_breaks_balance :
  User.balance <$> users_get alice_id (users db1) = Some 10000%float
  /\ fst (trade env1 as_alice (buy_yes Undefined) db1) = Ok (nan, nan)
  /\ User.balance <$> users_get alice_id (users (run db1 [buy_no_amount])) = Some nan
  /\ le 0%float nan = false.
Proof. repeat split; vm_compute; reflexivity. Qed.

(** ** Share counts *)


(** ** Sorting *)

Section Sort.
Context {A : Type} (cmp : A -> A -> number).

Lemma sort_insert_perm x l : sort_insert cmp x l ≡ₚ x :: l.
Proof.
  induction l as [|y l IH]; simpl; [reflexivity|].
  destruct (lt zero (cmp x y)); [|reflexivity].
  rewrite IH. apply Permutation_swap.
Qed.

Lemma sort_perm l : sort cmp l ≡ₚ l.
Proof.
  induction l as [|x l IH]; simpl; [reflexivity|].
  change (foldr (sort_insert cmp) [] l) with (sort cmp l).
  rewrite sort_insert_perm, IH. reflexivity.
Qed.


End Sort.

(** ** Leaderboard *)

Lemma leaderboard_entries req st l :
  leaderboard req st = Ok l ->
  exists entries,
    mapM (entry_of st) (users st) = Some entries
    /\ l = imap (fun i u => Ranked.mk u (of_nat i + 1)%float)
                (take 100 (sort by_balance entries)).
Proof.
  unfold leaderboard. destruct (mapM _ _) as [entries|]; [|discriminate].
  intros [= <-]. eauto.
Qed.

Lemma ranked_entry_of_user req st l r :
  leaderboard req st = Ok l -> r ∈ l ->
  exists u, u ∈ users st /\ entry_of st u = Some (Ranked.entry r).
Proof.
  intros (entries & Hm & ->)%leaderboard_entries Hr.
  apply elem_of_lookup_imap in Hr as (i & e & -> & Hi). simpl.
  apply list_elem_of_lookup_2, elem_of_take in Hi as (j & Hj & _).
  apply list_elem_of_lookup_2 in Hj. rewrite sort_perm in Hj.
  apply mapM_Some in Hm.
  apply list_elem_of_lookup_1 in Hj as (k & Hk).
  destruct (Forall2_lookup_r _ _ _ _ _ Hm Hk) as (u & Hu & Hue).
  exists u. split; [|exact Hue]. eapply list_elem_of_lookup_2. exact Hu.
Qed.

(** C9, as stated, fails: with one win and no loss the annotated rate is
    100, not [wins / (wins + losses) = 1]. *)
Lemma winRate_is_not_the_ratio :
  users db3 = [alice3]
  /\ leaderboard as_alice db3 = Ok board3
  /\ gt (User.wins alice3 + User.losses alice3)%float 0%float = true
  /\ (User.wins alice3 / (User.wins alice3 + User.losses alice3))%float = 1%float
  /\ Entry.winRate <$> (Ranked.entry <$> board3) = [100%float]
  /\ PrimFloat.eqb 100%float 1%float = false.
Proof.
  split; [vm_compute; reflexivity|]. split; [vm_compute; reflexivity|].
  repeat split; reflexivity.
Qed.

(** C9, amended.  Every leaderboard entry belongs to a user, and its
    [winRate] is the percentage [Math.round(wins / (wins + losses) * 100)]
    of that user when [wins + losses > 0], and 0 otherwise. *)
Theorem winRate_is_rounded_percentage req st l r :
  leaderboard req st = Ok l -> r ∈ l ->
  exists u,
    u ∈ users st
    /\ Entry.username (Ranked.entry r) = User.username u
    /\ Entry.wins (Ranked.entry r) = User.wins u
    /\ Entry.winRate (Ranked.entry r) =
       if gt (User.wins u + User.losses u)%float 0%float
       then Math_round (User.wins u / (User.wins u + User.losses u) * 100)%float
       else 0%float.
Proof.
  intros Hl Hr. destruct (ranked_entry_of_user _ _ _ _ Hl Hr) as (u & Hu & He).
  exists u. split; [exact Hu|].
  unfold entry_of in He. destruct (netWorth st u) as [b|]; simpl in He; [|discriminate].
  injection He as He. rewrite <- He. simpl. repeat split.
Qed.

Lemma winRate_is_rounded_percentage_witness :
  leaderboard as_alice db3 = Ok board3
  /\ exists u,
       u ∈ users db3
       /\ User.username u = "alice"
       /\ User.wins u = 1%float
       /\ 100%float =
          if gt (User.wins u + User.losses u)%float 0%float
          then Math_round (User.wins u / (User.wins u + User.losses u) * 100)%float
          else 0%float.
Proof.
  assert (Hl : leaderboard as_alice db3 = Ok board3) by (vm_compute; reflexivity).
  split; [exact Hl|].
  destruct (winRate_is_rounded_percentage as_alice db3 board3
              (Ranked.mk (Entry.mk "alice" 10000.5%float 1%float 100%float) 1%float) Hl)
    as (u & Hu & Hname & Hwins & Hrate).
  - apply list_elem_of_singleton. reflexivity.
  - exists u. split; [exact Hu|]. split; [symmetry; exact Hname|].
    split; [symmetry; exact Hwins | exact Hrate].
Defined.

(** ** Merging two Buys *)

Lemma SFcompare_refl (x : spec_float) :
  x <> S754_nan -> SFcompare x x = Some Eq.
Proof.
  destruct x as [[]|[]| |[] m e]; simpl; try congruence; intros _.
  all: rewrite Z.compare_refl, Pos.compare_cont_refl; reflexivity.
Qed.

Lemma add_comm (x y : number) : (x + y)%float = (y + x)%float.
Proof.
  apply Prim2SF_inj. rewrite !FloatAxioms.add_spec. unfold SF64add.
  destruct (Prim2SF x) as [[]|[]| |sx mx ex], (Prim2SF y) as [[]|[]| |sy my ey];
    simpl; try reflexivity.
  rewrite (Z.min_comm ey ex). f_equal. apply Z.add_comm.
Qed.

(** A number that indexes an array is equal to itself under [===]. *)
Lemma to_index_eqb n i : to_index n = Some i -> PrimFloat.eqb n n = true.
Proof.
  unfold to_index. rewrite FloatAxioms.eqb_spec. unfold SFeqb. intros H.
  rewrite SFcompare_refl; [reflexivity|]. intros Hn. rewrite Hn in H. discriminate.
Qed.

Lemma array_get_scalar_eq {A} (arr : list A) key r :
  array_get arr key = Some r -> scalar_eq key key = true.
Proof.
  destruct key as [| | |n]; simpl; try discriminate.
  destruct (to_index n) as [i|] eqn:Hi; simpl; [|discriminate].
  intros _. eapply to_index_eqb. exact Hi.
Qed.

Lemma includes_strict_eq sd : includes ["YES"; "NO"] sd = true -> strict_eq sd sd = true.
Proof.
  destruct sd as [x|s]; simpl; [discriminate|].
  intros _. apply bool_decide_eq_true_2. reflexivity.
Qed.

Lemma findIndex_snoc {A} (p : A -> bool) (l : list A) x :
  findIndex p l = None -> p x = true -> findIndex p (l ++ [x]) = Some (length l, x).
Proof.
  intros Hl Hx. induction l as [|a l IH]; simpl in *; [rewrite Hx; reflexivity|].
  destruct (p a); [discriminate|].
  destruct (findIndex p l) as [[k z]|]; simpl in *; [discriminate|].
  rewrite IH by reflexivity. reflexivity.
Qed.

(** The result of [trade] when every check passes. *)
Lemma trade_valid env req body st user i market :
  getUser req st = Some user ->
  includes ["YES"; "NO"] (side body) = true ->
  le (ToNumber (amount body)) 0%float = false ->
  gt (ToNumber (amount body)) (User.balance user) = false ->
  array_get (markets st) (marketId body) = Some (i, market) ->
  trade env req body st = fill env body user i market st.
Proof.
  intros Huser Hside Hle Hgt Hm. unfold trade.
  rewrite Huser, Hside, Hle, Hgt, Hm. reflexivity.
Qed.

(** A successful [trade] passed every check. *)
Lemma trade_Ok_inv env req body st payload st' :
  trade env req body st = (Ok payload, st') ->
  exists user i market,
    getUser req st = Some user
    /\ includes ["YES"; "NO"] (side body) = true
    /\ array_get (markets st) (marketId body) = Some (i, market)
    /\ fill env body user i market st = (Ok payload, st').
Proof.
  unfold trade. destruct (getUser req st) as [user|]; [|discriminate].
  destruct (includes _ _); simpl; [|discriminate].
  destruct (_ || _); [discriminate|].
  destruct (array_get _ _) as [[i market]|]; [|discriminate].
  intros H. exists user, i, market. auto.
Qed.

Lemma getUser_users_set req st st' u u' :
  getUser req st = Some u ->
  users st' = users_set (User.id u) u' (users st) ->
  User.id u' = User.id u ->
  getUser req st' = Some u'.
Proof.
  unfold getUser. intros H Hst Hid.
  destruct (auth req) as [id|]; simpl in *; [|discriminate].
  pose proof (users_get_id _ _ _ H) as Hu. subst id. rewrite Hst.
  apply users_get_set with (u := u); assumption.
Qed.

Lemma array_get_alter {A} (f : A -> A) (arr : list A) key i x :
  array_get arr key = Some (i, x) ->
  array_get (alter f i arr) key = Some (i, f x).
Proof.
  destruct key as [| | |n]; simpl; try discriminate.
  destruct (to_index n) as [j|]; simpl; [|discriminate].
  destruct (arr !! j) as [y|] eqn:Hj; simpl; [|discriminate].
  intros [= <- <-]. rewrite list_lookup_alter_eq, Hj. reflexivity.
Qed.

Lemma array_get_insert {A} (arr : list A) key i x y :
  array_get arr key = Some (i, x) ->
  array_get (<[i := y]> arr) key = Some (i, y).
Proof.
  destruct key as [| | |n]; simpl; try discriminate.
  destruct (to_index n) as [j|]; simpl; [|discriminate].
  destruct (arr !! j) as [z|] eqn:Hj; simpl; [|discriminate].
  intros [= <- <-]. rewrite list_lookup_insert_eq; [reflexivity|].
  eapply lookup_lt_Some. exact Hj.
Qed.

(** The position left by two successful Buys on a market and side in
    which the user held nothing. *)
Lemma two_buys_slot e e' req mid sd i st user ps market y a y' a' stF :
  getUser req st = Some user ->
  positions st !! User.id user = Some ps ->
  findIndex (same_slot mid sd) ps = None ->
  array_get (markets st) mid = Some (i, market) ->
  two_buys e e' req mid sd i st y a y' a' = Some stF ->
  let p := price_at sd y in
  let p' := price_at sd y' in
  let s := Math_floor (a / (p / 100))%float in
  let s' := Math_floor (a' / (p' / 100))%float in
  positions stF !! User.id user =
    Some (ps ++ [Position.mk (position_uuid e) mid
                   (String.substring 0 40 (Market.title market)) sd
                   (s + s')%float (((p * s) + (p' * s')) / (s + s'))%float
                   (position_now e)]).
Proof.
  intros Huser Hps Hnone Hm. unfold two_buys.
  destruct (trade e req _ _) as [[| payload1 |] st1] eqn:H1; try discriminate.
  destruct (trade e' req _ _) as [[| payload2 |] st2] eqn:H2; try discriminate.
  intros [= <-]. simpl.
  (* first Buy *)
  apply trade_Ok_inv in H1 as (u1 & i1 & m1 & Hu1 & Hs1 & Hm1 & Hf1).
  change (getUser req (set_price i y st)) with (getUser req st) in Hu1.
  rewrite Huser in Hu1. injection Hu1 as <-.
  simpl in Hs1, Hm1. rewrite (array_get_alter _ _ _ _ _ Hm) in Hm1.
  injection Hm1 as <- <-.
  unfold fill in Hf1. injection Hf1 as _ <-.
  (* second Buy *)
  apply trade_Ok_inv in H2 as (u2 & i2 & m2 & Hu2 & _ & Hm2 & Hf2).
  erewrite getUser_users_set in Hu2; [| exact Huser | reflexivity | reflexivity].
  injection Hu2 as <-.
  simpl in Hm2.
  erewrite array_get_alter in Hm2;
    [| eapply array_get_insert; eapply array_get_alter; exact Hm].
  injection Hm2 as <- <-.
  unfold fill in Hf2. injection Hf2 as _ <-. simpl.
  rewrite !lookup_alter_eq, Hps. simpl. f_equal.
  unfold upsert at 2. simpl. rewrite Hnone.
  unfold upsert. simpl. rewrite findIndex_snoc; [|exact Hnone|].
  - replace (length ps) with (length ps + 0)%nat by lia.
    rewrite alter_app_r. reflexivity.
  - unfold same_slot. simpl.
    rewrite (array_get_scalar_eq _ _ _ Hm), (includes_strict_eq _ Hs1). reflexivity.
Qed.

(** C4.  Two Buys of one user on one market and side, the first opening
    the position at fill price [p1] for [s1] shares and the second merged
    into it at [p2] for [s2] shares, leave an average cost of
    [(p1 * s1 + p2 * s2) / (s1 + s2)], the merge formula
    [(oldAvg * oldShares + price * shares) / (oldShares + shares)] with
    the first fill as the old position.  Had the two Buys come in the
    other order, each amount still at its own price, the position would
    hold the same share count and the same average cost. *)
Theorem merged_buys_average_is_order_independent
    e1 e2 e3 e4 req mid sd i st user ps market y1 a1 y2 a2 stA stB :
  getUser req st = Some user ->
  positions st !! User.id user = Some ps ->
  findIndex (same_slot mid sd) ps = None ->
  array_get (markets st) mid = Some (i, market) ->
  two_buys e1 e2 req mid sd i st y1 a1 y2 a2 = Some stA ->
  two_buys e3 e4 req mid sd i st y2 a2 y1 a1 = Some stB ->
  let p1 := price_at sd y1 in
  let p2 := price_at sd y2 in
  let s1 := Math_floor (a1 / (p1 / 100))%float in
  let s2 := Math_floor (a2 / (p2 / 100))%float in
  exists pA pB,
    positions stA !! User.id user = Some (ps ++ [pA])
    /\ positions stB !! User.id user = Some (ps ++ [pB])
    /\ Position.shares pA = (s1 + s2)%float
    /\ Position.avg pA = (((p1 * s1) + (p2 * s2)) / (s1 + s2))%float
    /\ Position.shares pB = Position.shares pA
    /\ Position.avg pB = Position.avg pA.
Proof.
  intros Huser Hps Hnone Hm HA HB. simpl.
  pose proof (two_buys_slot _ _ _ _ _ _ _ _ _ _ _ _ _ _ _ Huser Hps Hnone Hm HA) as HpA.
  pose proof (two_buys_slot _ _ _ _ _ _ _ _ _ _ _ _ _ _ _ Huser Hps Hnone Hm HB) as HpB.
  simpl in HpA, HpB.
  eexists _, _. split; [exact HpA|]. split; [exact HpB|]. simpl.
  split; [reflexivity|]. split; [reflexivity|]. split.
  - apply add_comm.
  - f_equal; apply add_comm.
Qed.

Lemma merged_buys_average_is_order_independent_witness :
  exists stA stB pA pB,
    two_buys env1 env2 as_alice (Number 0%float) (Str "YES") 0 db1
      40%float 20%float 50%float 30%float = Some stA
    /\ two_buys env1 env2 as_alice (Number 0%float) (Str "YES") 0 db1
         50%float 30%float 40%float 20%float = Some stB
    /\ positions stA !! alice_id = Some [pA]
    /\ positions stB !! alice_id = Some [pB]
    /\ Position.shares pA = 110%float
    /\ Position.shares pB = Position.shares pA
    /\ Position.avg pB = Position.avg pA.
Proof.
  pose (stA := default db0 (two_buys env1 env2 as_alice (Number 0%float) (Str "YES") 0 db1
                              40%float 20%float 50%float 30%float)).
  pose (stB := default db0 (two_buys env1 env2 as_alice (Number 0%float) (Str "YES") 0 db1
                              50%float 30%float 40%float 20%float)).
  assert (HA : two_buys env1 env2 as_alice (Number 0%float) (Str "YES") 0 db1
                 40%float 20%float 50%float 30%float = Some stA)
    by (vm_compute; reflexivity).
  assert (HB : two_buys env1 env2 as_alice (Number 0%float) (Str "YES") 0 db1
                 50%float 30%float 40%float 20%float = Some stB)
    by (vm_compute; reflexivity).
  destruct (merged_buys_average_is_order_independent
              env1 env2 env1 env2 as_alice (Number 0%float) (Str "YES") 0%nat db1
              alice [] (sample_market 0) 40%float 20%float 50%float 30%float stA stB)
    as (pA & pB & H1 & H2 & H3 & _ & H5 & H6).
  - reflexivity.
  - vm_compute; reflexivity.
  - reflexivity.
  - reflexivity.
  - exact HA.
  - exact HB.
  - exists stA, stB, pA, pB. repeat split; try assumption.
Defined.

(** ** Numbers: rounding keeps the sign *)
Lemma shr_1_nonneg mrs : 0 <= shr_m mrs -> 0 <= shr_m (shr_1 mrs).
Proof. destruct mrs as [[|[p|p|]|p] r s]; simpl; lia. Qed.

Lemma iter_shr_1_nonneg p : forall mrs,
  0 <= shr_m mrs -> 0 <= shr_m (SpecFloat.iter_pos shr_1 p mrs).
Proof.
  induction p as [p IH|p IH|]; simpl; intros mrs H.
  - apply IH, IH, shr_1_nonneg, H.
  - apply IH, IH, H.
  - apply shr_1_nonneg, H.
Qed.

Lemma shr_fexp_nonneg m e l :
  0 <= m -> 0 <= shr_m (fst (shr_fexp prec emax m e l)).
Proof.
  intros H. unfold shr_fexp, shr.
  assert (H0 : 0 <= shr_m (shr_record_of_loc m l)) by (destruct l as [|[]]; exact H).
  destruct (_ - e) as [|k|k]; simpl; auto using iter_shr_1_nonneg.
Qed.

Lemma round_nearest_even_nonneg m l : 0 <= m -> 0 <= round_nearest_even m l.
Proof. destruct l as [|[]]; simpl; try destruct (Z.even m); lia. Qed.

Lemma binary_round_aux_sign s m e l :
  0 <= m -> SFsign (binary_round_aux prec emax s m e l) = Some s.
Proof.
  intros H. unfold binary_round_aux.
  pose proof (shr_fexp_nonneg m e l H) as H1.
  destruct (shr_fexp prec emax m e l) as [mrs' e']. simpl in H1.
  pose proof (shr_fexp_nonneg _ e' loc_Exact
                (round_nearest_even_nonneg _ (loc_of_shr_record mrs') H1)) as H2.
  destruct (shr_fexp prec emax _ e' loc_Exact) as [mrs'' e'']. simpl in H2.
  destruct (shr_m mrs'') as [|q|q]; [reflexivity| |lia].
  destruct (e'' <=? emax - prec); reflexivity.
Qed.

Lemma binary_normalize_sign m e sz :
  SFsign (binary_normalize prec emax m e sz)
  = Some match m with Z0 => sz | Zpos _ => false | Zneg _ => true end.
Proof.
  unfold binary_normalize, binary_round.
  destruct m as [|p|p]; [reflexivity| |].
  all: destruct (shl_align _ _ _) as [mz ez]; apply binary_round_aux_sign; lia.
Qed.

Lemma binary_normalize_not_nan m e sz :
  binary_normalize prec emax m e sz <> S754_nan.
Proof.
  intros H. pose proof (binary_normalize_sign m e sz) as Hs.
  rewrite H in Hs. discriminate.
Qed.

Lemma binary_round_aux_not_nan s m e l :
  0 <= m -> binary_round_aux prec emax s m e l <> S754_nan.
Proof.
  intros Hm H. pose proof (binary_round_aux_sign s m e l Hm) as Hs.
  rewrite H in Hs. discriminate.
Qed.


(** ** Numbers: operations that cannot produce NaN *)

Lemma SFsub_finite_not_nan x s m e :
  x <> S754_nan -> (forall sx, x <> S754_infinity sx) ->
  SFsub prec emax x (S754_finite s m e) <> S754_nan.
Proof.
  intros Hn Hi. destruct x as [sx|sx| |sx mx ex]; cbv beta iota delta [SFsub].
  - discriminate.
  - discriminate.
  - congruence.
  - apply binary_normalize_not_nan.
Qed.

Lemma SFmul_finite_not_nan x s m e :
  x <> S754_nan -> SFmul prec emax x (S754_finite s m e) <> S754_nan.
Proof.
  intros Hn. destruct x as [sx|sx| |sx mx ex]; cbv beta iota delta [SFmul].
  - discriminate.
  - discriminate.
  - congruence.
  - apply binary_round_aux_not_nan. lia.
Qed.

Lemma SFadd_finite_not_nan s m e y :
  y <> S754_nan -> SFadd prec emax (S754_finite s m e) y <> S754_nan.
Proof.
  intros Hn. destruct y as [sy|sy| |sy my ey]; cbv beta iota delta [SFadd].
  - discriminate.
  - discriminate.
  - congruence.
  - apply binary_normalize_not_nan.
Qed.

(** What the comparisons with constants say about the shape of a number. *)
Lemma SFleb_finite_l s m e y :
  SFleb (S754_finite s m e) y = true -> y <> S754_nan /\ y <> S754_infinity true.
Proof.
  unfold SFleb. destruct y as [sy|[]| |sy my ey]; cbv beta iota delta [SFcompare];
    try discriminate; try (split; discriminate).
Qed.

Lemma SFleb_finite_r s m e y :
  SFleb y (S754_finite s m e) = true -> y <> S754_nan /\ y <> S754_infinity false.
Proof.
  unfold SFleb. destruct y as [sy|[]| |sy my ey]; cbv beta iota delta [SFcompare];
    try discriminate; try (split; discriminate).
Qed.

Lemma SFleb_zero_l sz y :
  SFleb (S754_zero sz) y = true -> y <> S754_nan /\ y <> S754_infinity true.
Proof.
  unfold SFleb. destruct y as [sy|[]| |sy my ey]; cbv beta iota delta [SFcompare];
    try discriminate; try (split; discriminate).
Qed.

Lemma SFltb_finite_r s m e y :
  SFltb y (S754_finite s m e) = true -> y <> S754_nan /\ y <> S754_infinity false.
Proof.
  unfold SFltb. destruct y as [sy|[]| |sy my ey]; cbv beta iota delta [SFcompare];
    try discriminate; try (split; discriminate).
Qed.

Lemma Prim2SF_1 : Prim2SF 1 = S754_finite false 4503599627370496 (-52).
Proof. reflexivity. Qed.
Lemma Prim2SF_99 : Prim2SF 99 = S754_finite false 6966505673588736 (-46).
Proof. reflexivity. Qed.
Lemma Prim2SF_half : Prim2SF 0.5 = S754_finite false 4503599627370496 (-53).
Proof. reflexivity. Qed.
Lemma Prim2SF_3 : Prim2SF 3 = S754_finite false 6755399441055744 (-51).
Proof. reflexivity. Qed.
Lemma Prim2SF_0 : Prim2SF 0 = S754_zero false.
Proof. reflexivity. Qed.

Lemma perturbed_not_nan (yes r : number) :
  le 1%float yes = true -> le yes 99%float = true ->
  le 0%float r = true -> lt r 1%float = true ->
  Prim2SF (yes + (r - 0.5) * 3)%float <> S754_nan.
Proof.
  unfold le, lt. rewrite !FloatAxioms.leb_spec, FloatAxioms.ltb_spec.
  rewrite FloatAxioms.add_spec, FloatAxioms.mul_spec, FloatAxioms.sub_spec.
  rewrite Prim2SF_1, Prim2SF_99, Prim2SF_half, Prim2SF_3, Prim2SF_0.
  unfold SF64add, SF64mul, SF64sub.
  intros Hy1 Hy2 Hr1 Hr2.
  apply SFleb_finite_l in Hy1 as [Hyn Hyi1].
  apply SFleb_finite_r in Hy2 as [_ Hyi2].
  apply SFleb_zero_l in Hr1 as [Hrn Hri1].
  apply SFltb_finite_r in Hr2 as [_ Hri2].
  assert (Hd : SFsub prec emax (Prim2SF r) (S754_finite false 4503599627370496 (-53))
               <> S754_nan).
  { apply SFsub_finite_not_nan; [exact Hrn|]. intros []; assumption. }
  pose proof (SFmul_finite_not_nan _ false 6755399441055744 (-51) Hd) as Hc.
  destruct (Prim2SF yes) as [s|[]| |s m e]; try congruence.
  - (* yes = 0 is excluded by 1 <= yes, but the sum is a number anyway *)
    clear -Hc. destruct (SFmul _ _ _ _) as [s'|s'| |s' m' e']; try congruence;
      cbv beta iota delta [SFadd]; try discriminate.
    destruct s, s'; discriminate.
  - apply SFadd_finite_not_nan. exact Hc.
Qed.

(** ** Numbers: integers below 2^53 convert exactly *)
Lemma digits2_pos_iter p k :
  digits2_pos (Pos.iter xO p k) = (digits2_pos p + k)%positive.
Proof.
  induction k as [|k IH] using Pos.peano_ind.
  - simpl. lia.
  - rewrite Pos.iter_succ. simpl. rewrite IH. lia.
Qed.

Lemma iter_xO_mul p k : Zpos (Pos.iter xO p k) = Zpos p * 2 ^ Zpos k.
Proof.
  induction k as [|k IH] using Pos.peano_ind.
  - simpl. lia.
  - rewrite Pos.iter_succ, Pos2Z.inj_succ, Z.pow_succ_r by lia.
    rewrite Pos2Z.inj_xO, IH. lia.
Qed.

Lemma digits2_pos_bound p :
  2 ^ (Zpos (digits2_pos p) - 1) <= Zpos p < 2 ^ Zpos (digits2_pos p).
Proof.
  induction p as [p IH|p IH|]; simpl digits2_pos; try (simpl; lia).
  all: rewrite Pos2Z.inj_succ;
    replace (Z.succ (Zpos (digits2_pos p)) - 1) with (Z.succ (Zpos (digits2_pos p) - 1)) by lia.
  all: rewrite !Z.pow_succ_r by lia; lia.
Qed.

Lemma binary_round_aux_exact s m e :
  canonical_mantissa prec emax m e = true -> e <= emax - prec ->
  binary_round_aux prec emax s (Zpos m) e loc_Exact = S754_finite s m e.
Proof.
  unfold canonical_mantissa. intros Hc He. apply Z.eqb_eq in Hc.
  unfold binary_round_aux, shr_fexp. simpl Zdigits2. rewrite Hc, Z.sub_diag. simpl.
  rewrite Hc, Z.sub_diag. simpl.
  destruct (Z.leb_spec e (emax - prec)); [reflexivity | lia].
Qed.

Lemma binary_normalize_pos p :
  Zpos (digits2_pos p) <= 53 ->
  binary_normalize prec emax (Zpos p) 0 false = SF_of_pos p.
Proof.
  intros Hd. unfold binary_normalize, binary_round, SF_of_pos.
  set (d := Zpos (digits2_pos p)) in *.
  assert (Hf : fexp prec emax (d + 0) = d - 53).
  { unfold fexp, SpecFloat.emin, emax, prec. lia. }
  rewrite Hf. unfold shl_align. rewrite Z.sub_0_r.
  destruct (d - 53) as [|k|k] eqn:Hk; try lia.
  - rewrite binary_round_aux_exact.
    + f_equal. replace (53 - d) with 0 by lia. rewrite Z.mul_1_r. reflexivity.
    + unfold canonical_mantissa. fold d. apply Z.eqb_eq.
      unfold fexp, SpecFloat.emin, emax, prec. lia.
    + unfold emax, prec. lia.
  - rewrite binary_round_aux_exact.
    + f_equal. replace (53 - d) with (Zpos k) by lia.
      rewrite <- iter_xO_mul. reflexivity.
    + unfold canonical_mantissa. rewrite digits2_pos_iter. apply Z.eqb_eq.
      unfold fexp, SpecFloat.emin, emax, prec. fold d. lia.
    + unfold emax, prec. lia.
Qed.

Lemma digits2_pos_le_53 p : Zpos p < 2 ^ 53 -> Zpos (digits2_pos p) <= 53.
Proof.
  intros Hp. destruct (digits2_pos_bound p) as [Hlo _].
  destruct (Z_le_gt_dec (Zpos (digits2_pos p)) 53) as [|Hgt]; [assumption|].
  exfalso.
  assert (2 ^ 53 <= 2 ^ (Zpos (digits2_pos p) - 1)) by (apply Z.pow_le_mono_r; lia).
  lia.
Qed.

Lemma Prim2SF_of_Z p :
  Zpos p < 2 ^ 53 -> Prim2SF (of_Z (Zpos p)) = SF_of_pos p.
Proof.
  intros Hp. unfold of_Z. rewrite of_uint63_spec.
  rewrite Uint63.of_Z_spec. rewrite Z.mod_small.
  - apply binary_normalize_pos, digits2_pos_le_53, Hp.
  - assert (wB = 2 ^ 63) as -> by reflexivity.
    assert (2 ^ 53 < 2 ^ 63) by reflexivity. lia.
Qed.

(** A decoded mantissa has at most 53 binary digits. *)
Lemma Prim2SF_finite_bounds x s m e :
  Prim2SF x = S754_finite s m e -> Zpos m < 2 ^ 53.
Proof.
  intros Hx. pose proof (Prim2SF_valid x) as Hv. rewrite Hx in Hv.
  simpl in Hv. unfold bounded, canonical_mantissa in Hv.
  apply andb_prop in Hv as [Hc _]. apply Z.eqb_eq in Hc.
  unfold fexp, SpecFloat.emin, emax, prec in Hc.
  destruct (digits2_pos_bound m) as [_ Hhi].
  assert (2 ^ Zpos (digits2_pos m) <= 2 ^ 53) by (apply Z.pow_le_mono_r; lia).
  lia.
Qed.


Lemma Math_round_whole y : Prim2SF y <> S754_nan -> whole (Math_round y).
Proof.
  intros Hy. unfold Math_round.
  destruct (Prim2SF y) as [s|s| |s m e] eqn:E; try congruence.
  - eapply whole_zero, E.
  - eapply whole_infinity, E.
  - destruct (Z.leb_spec 0 e) as [He|He]; [eapply whole_large; eauto|].
    pose proof (Prim2SF_finite_bounds _ _ _ _ E) as Hm.
    assert (HP : 2 <= 2 ^ (- e)).
    { change 2 with (2 ^ 1) at 1. apply Z.pow_le_mono_r; lia. }
    replace (- e + 1) with (Z.succ (- e)) by lia.
    rewrite Z.pow_succ_r by lia.
    set (P := 2 ^ (- e)) in *.
    assert (H53 : 2 ^ 53 = 9007199254740992) by reflexivity.
    set (n := _ / (2 * P)).
    assert (Hn : - 2 ^ 53 < n < 2 ^ 53).
    { subst n. split.
      - apply Z.lt_le_trans with (- 2 ^ 53 + 1); [lia|].
        apply Z.div_le_lower_bound; [lia|]. destruct s; lia.
      - apply Z.div_lt_upper_bound; [lia|]. destruct s; lia. }
    destruct (Z.eqb_spec n 0) as [_|Hn0].
    { destruct s; [apply (whole_zero _ true) | apply (whole_zero _ false)]; reflexivity. }
    destruct (Z.ltb_spec n 0) as [Hneg|Hpos'].
    + destruct n as [|p|p]; try lia. simpl Z.opp. apply whole_neg. lia.
    + destruct n as [|p|p]; try lia. apply whole_pos. lia.
Qed.

(** ** Numbers: clamping a rounded number to 1..99 *)

Lemma is_nan_false z : Prim2SF z <> S754_nan -> is_nan z = false.
Proof.
  intros H. unfold is_nan. rewrite FloatAxioms.eqb_spec. unfold SFeqb.
  rewrite SFcompare_refl by exact H. reflexivity.
Qed.

Lemma clamp_low z :
  is_nan z = false ->
  PrimFloat.ltb 99 z = false -> PrimFloat.ltb z 99 = true ->
  PrimFloat.ltb 1 z = false -> PrimFloat.ltb z 1 = true ->
  clamp z = 1%float.
Proof.
  intros Hn H1 H2 H3 H4. unfold clamp, Math_min.
  change (is_nan 99) with false. rewrite Hn, H1, H2. simpl orb. cbv iota.
  unfold Math_max. change (is_nan 1) with false. rewrite Hn, H3, H4. reflexivity.
Qed.

Lemma clamp_high z :
  is_nan z = false -> PrimFloat.ltb 99 z = true -> clamp z = 99%float.
Proof.
  intros Hn H1. unfold clamp, Math_min.
  change (is_nan 99) with false. rewrite Hn, H1. reflexivity.
Qed.

Lemma clamp_negative z m e :
  Prim2SF z = S754_finite true m e -> clamp z = 1%float.
Proof.
  intros Hz. apply clamp_low.
  - apply is_nan_false. rewrite Hz. discriminate.
  - rewrite FloatAxioms.ltb_spec, Hz, Prim2SF_99. reflexivity.
  - rewrite FloatAxioms.ltb_spec, Hz, Prim2SF_99. reflexivity.
  - rewrite FloatAxioms.ltb_spec, Hz, Prim2SF_1. reflexivity.
  - rewrite FloatAxioms.ltb_spec, Hz, Prim2SF_1. reflexivity.
Qed.

Lemma clamp_above z m e :
  Prim2SF z = S754_finite false m e ->
  -46 < e \/ (e = -46 /\ 6966505673588736 < Zpos m) ->
  clamp z = 99%float.
Proof.
  intros Hz He. apply clamp_high.
  - apply is_nan_false. rewrite Hz. discriminate.
  - rewrite FloatAxioms.ltb_spec, Hz, Prim2SF_99.
    unfold SFltb. cbv beta iota delta [SFcompare].
    destruct He as [He|[-> Hm]].
    + apply Z.compare_lt_iff in He. rewrite He. reflexivity.
    + rewrite Z.compare_refl.
      change (Pos.compare_cont Eq ?a ?b) with (Pos.compare a b).
      assert (Hlt : (6966505673588736 < m)%positive) by lia.
      apply Pos.compare_lt_iff in Hlt. rewrite Hlt. reflexivity.
Qed.


Lemma small_ok_all n : 1 <= n <= 99 -> small_ok n = true.
Proof.
  intros Hn.
  assert (H : forallb small_ok (seqZ 1 99) = true) by (vm_compute; reflexivity).
  rewrite forallb_forall in H. apply H.
  apply list_elem_of_In, elem_of_seqZ. lia.
Qed.

Lemma clamp_whole z :
  whole z -> exists n, 1 <= n <= 99 /\ clamp z = of_Z n.
Proof.
  intros Hw. destruct Hw as [z s Hz|z s Hz|z s m e Hz He|p Hp|p Hp].
  - exists 1. split; [lia|].
    rewrite <- (SF2Prim_Prim2SF z), Hz. destruct s; reflexivity.
  - rewrite <- (SF2Prim_Prim2SF z), Hz. destruct s.
    + exists 1. split; [lia|]. reflexivity.
    + exists 99. split; [lia|]. reflexivity.
  - destruct s.
    + exists 1. split; [lia|]. eapply clamp_negative, Hz.
    + exists 99. split; [lia|]. eapply clamp_above; [exact Hz|]. lia.
  - destruct (Z_le_gt_dec (Zpos p) 99) as [Hle|Hgt].
    + exists (Zpos p). split; [lia|].
      pose proof (small_ok_all (Zpos p) ltac:(lia)) as H. unfold small_ok in H.
      apply andb_prop in H as [H _]. apply andb_prop in H as [H _].
      apply andb_prop in H as [H _]. apply FloatAxioms.Leibniz.eqb_spec in H. exact H.
    + exists 99. split; [lia|].
      eapply clamp_above; [apply Prim2SF_of_Z, Hp|].
      destruct (digits2_pos_bound p) as [Hlo Hhi].
      set (d := Zpos (digits2_pos p)) in *.
      assert (Hd : 7 <= d).
      { destruct (Z_le_gt_dec 7 d) as [|Hd]; [assumption|]. exfalso.
        assert (2 ^ d <= 2 ^ 6) by (apply Z.pow_le_mono_r; lia).
        assert (2 ^ 6 = 64) by reflexivity. lia. }
      destruct (Z.eq_dec d 7) as [Hd7|Hd7]; [right|left; lia].
      split; [lia|]. rewrite Hd7.
      change (2 ^ (53 - 7)) with 70368744177664.
      rewrite Z2Pos.id by lia. lia.
  - exists 1. split; [lia|].
    eapply clamp_negative. rewrite FloatAxioms.opp_spec, (Prim2SF_of_Z _ Hp). reflexivity.
Qed.

(** ** Price engine *)

(** One market, one tick: the new YES price is an integer from 1 to 99. *)
Lemma updateMarket_yes r now m :
  price_in_range m ->
  le 0%float r = true -> lt r 1%float = true ->
  exists n, 1 <= n <= 99 /\ Market.yes (updateMarket r now m) = of_Z n
            /\ Market.no (updateMarket r now m) = (100 - of_Z n)%float.
Proof.
  intros [Hlo Hhi] Hr0 Hr1. unfold updateMarket. simpl.
  pose proof (perturbed_not_nan _ _ Hlo Hhi Hr0 Hr1) as Hnn.
  destruct (clamp_whole _ (Math_round_whole _ Hnn)) as (n & Hn & Hc).
  unfold clamp in Hc. exists n. rewrite Hc. auto.
Qed.

Lemma updateMarket_ok r now m :
  price_in_range m ->
  le 0%float r = true -> lt r 1%float = true ->
  price_ok (updateMarket r now m).
Proof.
  intros Hm Hr0 Hr1.
  destruct (updateMarket_yes r now m Hm Hr0 Hr1) as (n & Hn & Hy & Hno).
  pose proof (small_ok_all n Hn) as H. unfold small_ok in H.
  apply andb_prop in H as [H H4]. apply andb_prop in H as [H H3].
  apply andb_prop in H as [_ H2].
  unfold price_ok, price_in_range. rewrite Hy, Hno. auto.
Qed.

Lemma updatePrices_ok env st :
  Forall price_in_range (markets st) -> fair_draws env ->
  Forall price_ok (markets (updatePrices env st)).
Proof.
  intros Hst Henv. apply Forall_lookup. intros i m'. simpl.
  rewrite list_lookup_imap. destruct (markets st !! i) as [m|] eqn:Hm; [|discriminate].
  intros [= <-]. destruct (Henv i) as [H0 H1].
  apply updateMarket_ok; [|assumption..].
  eapply Forall_lookup_1; eauto.
Qed.

Lemma price_ok_in_range ms : Forall price_ok ms -> Forall price_in_range ms.
Proof. intros H. eapply Forall_impl; [exact H|]. intros m [Hm _]. exact Hm. Qed.

Lemma run_snoc st l a : run st (l ++ [a]) = step (run st l) a.
Proof. unfold run. apply foldl_snoc. Qed.

Lemma ticks_in_range envs st :
  Forall price_in_range (markets st) -> Forall fair_draws envs ->
  Forall price_in_range (markets (run st (Tick <$> envs))).
Proof.
  intros Hst. induction envs as [|env envs IH] using rev_ind; intros Henv; [exact Hst|].
  apply Forall_app in Henv as [Henvs Henv]. apply Forall_inv in Henv.
  rewrite fmap_app. change (Tick <$> [env]) with [Tick env]. rewrite run_snoc. simpl.
  apply price_ok_in_range, updatePrices_ok; [apply IH; exact Henvs | exact Henv].
Qed.

(** C6.  Start from markets whose YES price lies in [1, 99] and run the
    price engine any number of times, each draw of [Math.random()] being
    in [0, 1).  After each run every market has a YES price in [1, 99] and
    [noPrice + yesPrice == 100]. *)
Theorem prices_stay_in_range_and_complementary envs st n :
  Forall price_in_range (markets st) ->
  Forall fair_draws envs ->
  (0 < n <= length envs)%nat ->
  Forall price_ok (markets (run st (Tick <$> take n envs))).
Proof.
  intros Hst Henvs [Hn0 Hn].
  assert (Hlen : length (take n envs) = n) by (rewrite length_take; lia).
  assert (Hfair : Forall fair_draws (take n envs)) by (apply Forall_take, Henvs).
  destruct (take n envs) as [|env l _] using rev_ind; [simpl in Hlen; lia|].
  apply Forall_app in Hfair as [Hl Henv]. apply Forall_inv in Henv.
  rewrite fmap_app. change (Tick <$> [env]) with [Tick env]. rewrite run_snoc. simpl.
  apply updatePrices_ok; [|exact Henv].
  apply ticks_in_range; assumption.
Qed.

Lemma prices_stay_in_range_and_complementary_witness :
  Forall price_in_range (markets db1)
  /\ Forall fair_draws [tick_up; tick_up]
  /\ Forall price_ok (markets (run db1 [Tick tick_up; Tick tick_up])).
Proof.
  assert (H1 : Forall price_in_range (markets db1)).
  { change (markets db1) with (sample_market <$> seq 0 600).
    apply Forall_fmap, Forall_forall. intros i _. split; reflexivity. }
  assert (H2 : Forall fair_draws [tick_up; tick_up]).
  { repeat constructor. }
  split; [exact H1|]. split; [exact H2|].
  apply (prices_stay_in_range_and_complementary [tick_up; tick_up] db1 2 H1 H2).
  simpl. lia.
Defined.

(** ** Numbers: the shares of a Buy *)

Lemma SFdiv_core_binary_nonneg m1 e1 m2 e2 :
  0 <= m1 -> 0 < m2 ->
  0 <= fst (fst (SFdiv_core_binary prec emax m1 e1 m2 e2)).
Proof.
  intros H1 H2. unfold SFdiv_core_binary.
  set (s := _ - _ - _).
  set (m' := match s with Z0 => m1 | Zpos _ => Z.shiftl m1 s | Zneg _ => 0 end).
  assert (Hm' : 0 <= m').
  { subst m'. destruct s; [assumption| |lia]. apply Z.shiftl_nonneg. assumption. }
  pose proof (Z_div_mod m' m2 ltac:(lia)) as Hdm.
  destruct (Z.div_eucl m' m2) as [q r]. simpl.
  destruct Hdm as [Heq Hr]. nia.
Qed.

Lemma SFdiv_sign_pos mx ex y :
  SFsign y = Some false ->
  SFsign (SFdiv prec emax (S754_finite false mx ex) y) = Some false.
Proof.
  destruct y as [[]|[]| |[] my ey]; try discriminate; intros _; try reflexivity.
  cbv beta iota delta [SFdiv].
  pose proof (SFdiv_core_binary_nonneg (Zpos mx) ex (Zpos my) ey ltac:(lia) ltac:(lia)) as H.
  destruct (SFdiv_core_binary _ _ _ _ _ _) as [[mz ez] lz]. simpl in H.
  apply binary_round_aux_sign. exact H.
Qed.

Lemma lt_zero_finite a :
  lt 0%float a = true -> lt a infinity = true ->
  exists m e, Prim2SF a = S754_finite false m e.
Proof.
  unfold lt. rewrite !FloatAxioms.ltb_spec.
  change (Prim2SF 0) with (S754_zero false).
  change (Prim2SF infinity) with (S754_infinity false).
  unfold SFltb. destruct (Prim2SF a) as [s|[]| |[] m e];
    cbv beta iota delta [SFcompare]; try discriminate.
  eauto.
Qed.

Lemma in_range_finite p :
  le 1%float p = true -> le p 99%float = true ->
  exists m e, Prim2SF p = S754_finite false m e.
Proof.
  unfold le. rewrite !FloatAxioms.leb_spec, Prim2SF_1, Prim2SF_99.
  unfold SFleb. destruct (Prim2SF p) as [s|[]| |[] m e];
    cbv beta iota delta [SFcompare]; try discriminate.
  eauto.
Qed.

Lemma Prim2SF_100 : Prim2SF 100 = S754_finite false 7036874417766400 (-46).
Proof. reflexivity. Qed.

(** The quotient [amount / (price / 100)] of a positive finite amount and
    a price in range is a number that is not negative. *)
Lemma quotient_sign a p :
  lt 0%float a = true -> lt a infinity = true ->
  le 1%float p = true -> le p 99%float = true ->
  SFsign (Prim2SF (a / (p / 100))%float) = Some false.
Proof.
  intros Ha0 Ha1 Hp1 Hp2.
  destruct (lt_zero_finite a Ha0 Ha1) as (ma & ea & Ha).
  destruct (in_range_finite p Hp1 Hp2) as (mp & ep & Hp).
  rewrite !FloatAxioms.div_spec, Ha, Hp, Prim2SF_100. unfold SF64div.
  apply SFdiv_sign_pos. apply SFdiv_sign_pos. reflexivity.
Qed.

Lemma le_zero_of_sign x : SFsign (Prim2SF x) = Some false -> le 0%float x = true.
Proof.
  unfold le. rewrite FloatAxioms.leb_spec. change (Prim2SF 0) with (S754_zero false).
  destruct (Prim2SF x) as [[]|[]| |[] m e]; try discriminate; reflexivity.
Qed.

Lemma shiftr_bound m k : 0 <= k -> Zpos m < 2 ^ 53 -> 0 <= Z.shiftr (Zpos m) k < 2 ^ 53.
Proof.
  intros Hk Hm. rewrite Z.shiftr_div_pow2 by exact Hk.
  assert (0 < 2 ^ k) by (apply Z.pow_pos_nonneg; lia).
  split; [apply Z.div_pos; lia|].
  apply Z.le_lt_trans with (Zpos m); [|exact Hm].
  apply Z.div_le_upper_bound; [lia|]. nia.
Qed.

Lemma Math_floor_of_Z p :
  Zpos p < 2 ^ 53 -> Math_floor (of_Z (Zpos p)) = of_Z (Zpos p).
Proof.
  intros Hp. unfold Math_floor. rewrite (Prim2SF_of_Z _ Hp). unfold SF_of_pos.
  pose proof (digits2_pos_le_53 _ Hp) as Hd.
  set (d := Zpos (digits2_pos p)) in *.
  destruct (Z.leb_spec 0 (d - 53)) as [H0|H0]; [reflexivity|].
  f_equal. rewrite Z2Pos.id.
  - replace (- (d - 53)) with (53 - d) by lia.
    rewrite Z.shiftr_div_pow2 by lia. apply Z.div_mul.
    apply Z.pow_nonzero; lia.
  - apply Z.mul_pos_pos; [lia|]. apply Z.pow_pos_nonneg; lia.
Qed.

Lemma Math_floor_cases x :
  SFsign (Prim2SF x) = Some false ->
  Math_floor x = x \/ Math_floor x = of_Z 0
  \/ exists p, Zpos p < 2 ^ 53 /\ Math_floor x = of_Z (Zpos p).
Proof.
  intros Hs. unfold Math_floor.
  destruct (Prim2SF x) as [s|s| |s m e] eqn:E; try discriminate; auto.
  injection Hs as ->.
  destruct (Z.leb_spec 0 e) as [He|He]; auto.
  pose proof (Prim2SF_finite_bounds _ _ _ _ E) as Hm.
  pose proof (shiftr_bound m (- e) ltac:(lia) Hm) as Hq.
  destruct (Z.shiftr (Zpos m) (- e)) as [|q|q]; [auto| |lia].
  right. right. exists q. split; [lia|reflexivity].
Qed.

(** [Math.floor] of a number that is not negative is not negative, and is
    a fixed point of [Math.floor]. *)
Lemma Math_floor_nonneg x :
  SFsign (Prim2SF x) = Some false ->
  SFsign (Prim2SF (Math_floor x)) = Some false
  /\ Math_floor (Math_floor x) = Math_floor x.
Proof.
  intros Hs. destruct (Math_floor_cases x Hs) as [H|[H|(p & Hp & H)]]; rewrite !H.
  - split; [exact Hs|reflexivity].
  - split; reflexivity.
  - split; [rewrite Prim2SF_of_Z by exact Hp; reflexivity|].
    apply Math_floor_of_Z, Hp.
Qed.



(** ** Numbers: the sign of a difference *)

Lemma shr_1_div mrs : 0 <= shr_m mrs -> shr_m (shr_1 mrs) = shr_m mrs / 2.
Proof.
  destruct mrs as [[|[p|p|]|p] r s]; cbn [shr_1 shr_m]; intros H.
  - reflexivity.
  - rewrite (Pos2Z.inj_xI p). apply Z.div_unique with 1; lia.
  - rewrite (Pos2Z.inj_xO p). apply Z.div_unique with 0; lia.
  - reflexivity.
  - lia.
Qed.

Lemma iter_shr_1_div p : forall mrs,
  0 <= shr_m mrs -> shr_m (SpecFloat.iter_pos shr_1 p mrs) = shr_m mrs / 2 ^ Zpos p.
Proof.
  induction p as [p IH|p IH|]; simpl SpecFloat.iter_pos; intros mrs H.
  - rewrite IH, IH, shr_1_div by auto using iter_shr_1_nonneg, shr_1_nonneg.
    rewrite !Z.div_div by (try apply Z.pow_pos_nonneg; lia). f_equal.
    rewrite (Pos2Z.inj_xI p). replace (2 * Zpos p + 1) with (1 + Zpos p + Zpos p) by lia.
    rewrite !Z.pow_add_r by lia. change (2 ^ 1) with 2. lia.
  - rewrite IH, IH by auto using iter_shr_1_nonneg.
    rewrite !Z.div_div by (try apply Z.pow_pos_nonneg; lia). f_equal.
    rewrite (Pos2Z.inj_xO p). replace (2 * Zpos p) with (Zpos p + Zpos p) by lia.
    rewrite !Z.pow_add_r by lia. lia.
  - rewrite shr_1_div by exact H. reflexivity.
Qed.

Lemma shr_record_of_loc_m m l : shr_m (shr_record_of_loc m l) = m.
Proof. destruct l as [|[]]; reflexivity. Qed.

(** Shifting a positive mantissa to its exponent leaves it positive,
    as long as the exponent is not below [emin]. *)
Lemma shr_fexp_pos m e l :
  0 < m -> -1074 <= e ->
  0 < shr_m (fst (shr_fexp prec emax m e l)) /\ -1074 <= snd (shr_fexp prec emax m e l).
Proof.
  intros Hm He. unfold shr_fexp, shr.
  destruct m as [|m|m]; try lia. simpl Zdigits2.
  pose proof (digits2_pos_bound m) as [Hlo Hhi].
  set (d := Zpos (digits2_pos m)) in *.
  assert (Hf : fexp prec emax (d + e) - e = Z.max (d - 53) (-1074 - e)).
  { unfold fexp, SpecFloat.emin, emax, prec. lia. }
  rewrite Hf.
  destruct (Z.max (d - 53) (-1074 - e)) as [|k|k] eqn:Hk; simpl.
  - rewrite shr_record_of_loc_m. lia.
  - rewrite iter_shr_1_div by (rewrite shr_record_of_loc_m; lia).
    rewrite shr_record_of_loc_m. split; [|lia].
    assert (Hkd : Zpos k = d - 53) by lia.
    apply Z.div_str_pos. split; [apply Z.pow_pos_nonneg; lia|].
    apply Z.le_trans with (2 ^ (d - 1)); [|exact Hlo].
    apply Z.pow_le_mono_r; lia.
  - rewrite shr_record_of_loc_m. lia.
Qed.

Lemma round_nearest_even_pos m l : 0 < m -> 0 < round_nearest_even m l.
Proof. destruct l as [|[]]; simpl; try destruct (Z.even m); lia. Qed.

Lemma binary_round_aux_pos s m e l :
  0 < m -> -1074 <= e ->
  exists s', s' = s /\
    ((exists m' e', binary_round_aux prec emax s m e l = S754_finite s' m' e')
     \/ binary_round_aux prec emax s m e l = S754_infinity s').
Proof.
  intros Hm He. exists s. split; [reflexivity|]. unfold binary_round_aux.
  pose proof (shr_fexp_pos m e l Hm He) as [H1 H1e].
  destruct (shr_fexp prec emax m e l) as [mrs' e']. simpl in H1, H1e.
  pose proof (shr_fexp_pos _ e' loc_Exact
                (round_nearest_even_pos _ (loc_of_shr_record mrs') H1) H1e) as [H2 _].
  destruct (shr_fexp prec emax _ e' loc_Exact) as [mrs'' e'']. simpl in H2.
  destruct (shr_m mrs'') as [|q|q]; try lia.
  destruct (e'' <=? emax - prec); eauto.
Qed.

Lemma binary_round_pos s m e :
  -1074 <= e ->
  (exists m' e', binary_round prec emax s m e = S754_finite s m' e')
  \/ binary_round prec emax s m e = S754_infinity s.
Proof.
  intros He. unfold binary_round.
  assert (Hz : -1074 <= snd (shl_align m e (fexp prec emax (Zpos (digits2_pos m) + e)))).
  { unfold shl_align.
    assert (-1074 <= fexp prec emax (Zpos (digits2_pos m) + e))
      by (unfold fexp, SpecFloat.emin, emax, prec; lia).
    destruct (_ - e); simpl; lia. }
  destruct (shl_align _ _ _) as [mz ez]. simpl in Hz.
  destruct (binary_round_aux_pos s (Zpos mz) ez loc_Exact ltac:(lia) Hz) as (s' & -> & H).
  exact H.
Qed.

(** The sign test [0 < z] on the result of a normalisation. *)
Lemma SFltb_zero_normalize D e :
  -1074 <= e ->
  SFltb (S754_zero false) (binary_normalize prec emax D e false) = (0 <? D).
Proof.
  intros He. unfold binary_normalize. destruct D as [|p|p].
  - reflexivity.
  - destruct (binary_round_pos false p e He) as [(m' & e' & ->)| ->]; reflexivity.
  - destruct (binary_round_pos true p e He) as [(m' & e' & ->)| ->]; reflexivity.
Qed.

Lemma valid_finite s m e :
  valid_binary (S754_finite s m e) = true ->
  -1074 <= e /\ Zpos m < 2 ^ 53 /\ (-1074 < e -> 2 ^ 52 <= Zpos m).
Proof.
  cbn [SpecFloat.valid_binary]. unfold bounded, canonical_mantissa. intros Hv.
  apply andb_prop in Hv as [Hc _]. apply Z.eqb_eq in Hc.
  unfold fexp, SpecFloat.emin, emax, prec in Hc.
  destruct (digits2_pos_bound m) as [Hlo Hhi].
  set (d := Zpos (digits2_pos m)) in *.
  assert (Hd : d <= 53) by lia.
  assert (2 ^ d <= 2 ^ 53) by (apply Z.pow_le_mono_r; lia).
  split; [lia|]. split; [lia|]. intros He.
  assert (d = 53) as Hd53 by lia. rewrite Hd53 in Hlo. exact Hlo.
Qed.

Lemma shl_align_value m e e' :
  e' <= e -> Zpos (fst (shl_align m e e')) = Zpos m * 2 ^ (e - e').
Proof.
  intros He. unfold shl_align. destruct (e' - e) as [|d|d] eqn:Hd; cbn [fst].
  - replace (e - e') with 0 by lia. lia.
  - lia.
  - rewrite iter_xO_mul. f_equal. f_equal. lia.
Qed.

Lemma pow2_ge_2 k : 0 < k -> 2 <= 2 ^ k.
Proof. intros Hk. change 2 with (2 ^ 1) at 1. apply Z.pow_le_mono_r; lia. Qed.

(** On numbers, [0 < x - y] says the same as [y < x]. *)
Lemma SFsub_pos x y :
  valid_binary x = true -> valid_binary y = true ->
  SFltb (S754_zero false) (SFsub prec emax x y) = SFltb y x.
Proof.
  destruct x as [sx|sx| |sx mx ex], y as [sy|sy| |sy my ey]; intros Hx Hy;
    try reflexivity; try (destruct sx; reflexivity); try (destruct sy; reflexivity);
    try (destruct sx, sy; reflexivity).
  destruct (valid_finite _ _ _ Hx) as (Hex & Hmx & Hnx).
  destruct (valid_finite _ _ _ Hy) as (Hey & Hmy & Hny).
  cbv beta iota delta [SFsub]. cbv zeta.
  rewrite SFltb_zero_normalize by lia.
  rewrite !shl_align_value by lia.
  assert (H52 : 2 ^ 52 = 4503599627370496) by reflexivity.
  assert (H53 : 2 ^ 53 = 9007199254740992) by reflexivity.
  unfold SFltb. cbv beta iota delta [SFcompare].
  change (Pos.compare_cont Eq ?a ?b) with (Pos.compare a b).
  assert (Hpx : 0 < 2 ^ (ex - Z.min ex ey)) by (apply Z.pow_pos_nonneg; lia).
  assert (Hpy : 0 < 2 ^ (ey - Z.min ex ey)) by (apply Z.pow_pos_nonneg; lia).
  destruct (Z.compare_spec ey ex) as [Heq|Hlt|Hgt].
  - subst ey. rewrite Z.min_id, Z.sub_diag in *. change (2 ^ 0) with 1.
    destruct (Pos.compare_spec my mx) as [Hm|Hm|Hm]; destruct sx, sy;
      cbn [cond_Zopp CompOpp]; destruct (Z.ltb_spec0 0 (Z.opp 1)) as [?|_];
      match goal with |- (0 <? ?D) = _ => destruct (Z.ltb_spec 0 D) end;
      try reflexivity; try lia.
  - replace (Z.min ex ey) with ey in * by lia. rewrite Z.sub_diag. change (2 ^ 0) with 1.
    pose proof (pow2_ge_2 (ex - ey) ltac:(lia)) as HP.
    specialize (Hnx ltac:(lia)).
    set (P := 2 ^ (ex - ey)) in *.
    destruct sx, sy; cbn [cond_Zopp];
      match goal with |- (0 <? ?D) = _ => destruct (Z.ltb_spec 0 D) end;
      try reflexivity; nia.
  - replace (Z.min ex ey) with ex in * by lia. rewrite Z.sub_diag. change (2 ^ 0) with 1.
    pose proof (pow2_ge_2 (ey - ex) ltac:(lia)) as HP.
    specialize (Hny ltac:(lia)).
    set (P := 2 ^ (ey - ex)) in *.
    destruct sx, sy; cbn [cond_Zopp];
      match goal with |- (0 <? ?D) = _ => destruct (Z.ltb_spec 0 D) end;
      try reflexivity; nia.
Qed.

Lemma sub_pos_iff (a b : number) : lt zero (b - a)%float = lt a b.
Proof.
  unfold lt. rewrite !FloatAxioms.ltb_spec, FloatAxioms.sub_spec.
  change (Prim2SF zero) with (S754_zero false).
  apply SFsub_pos; apply Prim2SF_valid.
Qed.

(** ** Numbers: the order of numbers *)




Lemma lt_asym (x y : number) : lt x y = true -> lt y x = false.
Proof.
  unfold lt. rewrite !FloatAxioms.ltb_spec. unfold SFltb.
  rewrite (SFcompare_antisym (Prim2SF x) (Prim2SF y)).
  destruct (SFcompare (Prim2SF x) (Prim2SF y)) as [[]|]; simpl; congruence.
Qed.



(** ** Sorting by balance *)





(** ** Well-formed ledgers: the leaderboard never throws *)

Lemma array_get_is_Some {A} (arr arr' : list A) key :
  length arr' = length arr ->
  is_Some (array_get arr key) -> is_Some (array_get arr' key).
Proof.
  intros Hlen [r Hr]. destruct key as [| | |n]; simpl in *; try discriminate.
  destruct (to_index n) as [j|]; simpl in *; [|discriminate].
  destruct (arr !! j) as [x|] eqn:Hj; simpl in *; [|discriminate].
  apply lookup_lt_Some in Hj. rewrite <- Hlen in Hj.
  apply lookup_lt_is_Some in Hj as [y ->]. simpl. eauto.
Qed.

Lemma positions_wf_markets st st' :
  positions st' = positions st -> length (markets st') = length (markets st) ->
  positions_wf st -> positions_wf st'.
Proof.
  intros Hp Hm Hwf id ps p Hps Hin. rewrite Hp in Hps.
  eapply array_get_is_Some; [exact Hm|]. eapply Hwf; eauto.
Qed.

Lemma register_wf env body st : positions_wf st -> positions_wf (snd (register env body st)).
Proof.
  intros Hwf. unfold register.
  repeat match goal with |- context [if ?c then _ else _] => destruct c end; try exact Hwf.
  simpl. intros id ps p Hps Hin. simpl in *.
  destruct (decide (reg_uuid env = id)) as [Heq|Hne].
  - subst id. rewrite lookup_insert_eq in Hps. injection Hps as <-. inversion Hin.
  - rewrite lookup_insert_ne in Hps by exact Hne. eapply Hwf; eauto.
Qed.

Lemma upsert_wf env body market price shares (ms : list Market.t) ps p :
  is_Some (array_get ms (marketId body)) ->
  (forall q, q ∈ ps -> is_Some (array_get ms (Position.marketId q))) ->
  p ∈ upsert env body market price shares ps ->
  is_Some (array_get ms (Position.marketId p)).
Proof.
  intros Hm Hps. unfold upsert.
  destruct (findIndex _ ps) as [[j q]|].
  - intros Hin. apply list_elem_of_lookup_1 in Hin as (k & Hk).
    rewrite list_lookup_alter in Hk. case_decide as Hkj.
    + subst k. destruct (ps !! j) as [q'|] eqn:Hq'; simpl in Hk; [|discriminate].
      injection Hk as <-. simpl. apply Hps. eapply list_elem_of_lookup_2, Hq'.
    + apply Hps. eapply list_elem_of_lookup_2, Hk.
  - intros [Hin|Hin]%elem_of_app; [apply Hps, Hin|].
    apply list_elem_of_singleton in Hin as ->. exact Hm.
Qed.

Lemma trade_wf env req body st : positions_wf st -> positions_wf (snd (trade env req body st)).
Proof.
  intros Hwf. unfold trade.
  destruct (getUser req st) as [user|]; [|exact Hwf].
  destruct (negb _); [exact Hwf|]. destruct (_ || _); [exact Hwf|].
  destruct (array_get (markets st) (marketId body)) as [[i market]|] eqn:Hm; [|exact Hwf].
  unfold fill. simpl. intros id ps p Hps Hin. simpl in *.
  eapply array_get_is_Some; [apply length_insert|].
  rewrite lookup_alter in Hps. case_decide as Hid.
  - destruct (positions st !! User.id user) as [ps0|] eqn:Hps0; simpl in Hps; [|discriminate].
    injection Hps as <-. eapply upsert_wf; [rewrite Hm; eauto| |exact Hin].
    intros q Hq. eapply Hwf; [exact Hps0|exact Hq].
  - eapply Hwf; eauto.
Qed.

Lemma sell_wf req positionId st : positions_wf st -> positions_wf (snd (sell req positionId st)).
Proof.
  intros Hwf. unfold sell.
  destruct (getUser req st) as [user|]; [|exact Hwf].
  destruct (findIndex _ _) as [[idx pos]|]; [|exact Hwf].
  destruct (array_get _ _) as [[i market]|]; [|exact Hwf].
  simpl. intros id ps p Hps Hin. simpl in *.
  rewrite lookup_alter in Hps. case_decide as Hid.
  - destruct (positions st !! User.id user) as [ps0|] eqn:Hps0; simpl in Hps; [|discriminate].
    injection Hps as <-. eapply Hwf; [exact Hps0|].
    eapply list_elem_of_lookup_1 in Hin as (k & Hk).
    rewrite list_lookup_delete in Hk. case_decide; eapply list_elem_of_lookup_2; exact Hk.
  - eapply Hwf; eauto.
Qed.

Lemma updatePrices_wf env st : positions_wf st -> positions_wf (updatePrices env st).
Proof.
  apply positions_wf_markets; [reflexivity|]. simpl. apply length_imap.
Qed.

Lemma step_wf st a : positions_wf st -> positions_wf (step st a).
Proof.
  destruct a; simpl; auto using register_wf, trade_wf, sell_wf, updatePrices_wf.
Qed.

Lemma run_wf st l : positions_wf st -> positions_wf (run st l).
Proof.
  revert st. induction l as [|a l IH]; intros st Hwf; [exact Hwf|].
  simpl. apply IH, step_wf, Hwf.
Qed.

Lemma empty_wf st : positions st = ∅ -> positions_wf st.
Proof. intros He id ps p Hps. rewrite He, lookup_empty in Hps. discriminate. Qed.



(** ** The leaderboard is the top 100 *)





(** * Further properties of the handlers *)

(** ** Buying and selling touch the caller only *)

Lemma users_get_set_ne id id' u us :
  User.id u = id -> id' <> id ->
  users_get id' (users_set id u us) = users_get id' us.
Proof.
  intros Hu Hne. induction us as [|v us IH]; simpl.
  - rewrite bool_decide_eq_false_2 by congruence. reflexivity.
  - case_bool_decide as Hv; simpl.
    + rewrite !bool_decide_eq_false_2 by congruence. reflexivity.
    + rewrite IH. reflexivity.
Qed.

Lemma getUser_auth req st u : getUser req st = Some u -> auth req = Some (User.id u).
Proof.
  unfold getUser. destruct (auth req) as [id|]; simpl; [|discriminate].
  intros H. rewrite (users_get_id _ _ _ H). reflexivity.
Qed.

(** X1.  A Buy, accepted or not, leaves every user other than the caller
    as they were: their record (balance, counters) and their positions. *)
Theorem buy_touches_only_the_caller env req body st id :
  auth req <> Some id ->
  users_get id (users (snd (trade env req body st))) = users_get id (users st)
  /\ positions (snd (trade env req body st)) !! id = positions st !! id.
Proof.
  intros Hid. unfold trade.
  destruct (getUser req st) as [user|] eqn:Huser; [|auto].
  destruct (negb _); [auto|]. destruct (_ || _); [auto|].
  destruct (array_get _ _) as [[i market]|]; [|auto].
  assert (Hne : id <> User.id user).
  { intros ->. apply Hid. eapply getUser_auth, Huser. }
  unfold fill. simpl. split.
  - apply users_get_set_ne; [reflexivity|exact Hne].
  - apply lookup_alter_ne. congruence.
Qed.

Lemma buy_touches_only_the_caller_witness :
  users_get bob_id (users (snd (trade env1 as_alice (buy_yes (Number 20%float)) db4)))
    = Some bob
  /\ positions (snd (trade env1 as_alice (buy_yes (Number 20%float)) db4)) !! bob_id
    = Some [].
Proof.
  destruct (buy_touches_only_the_caller env1 as_alice (buy_yes (Number 20%float)) db4 bob_id)
    as [H1 H2]; [discriminate|].
  rewrite H1, H2. split; vm_compute; reflexivity.
Defined.

(** X2.  A Sell, successful or not, changes no market and no trade record,
    and leaves every user other than the caller as they were. *)
Theorem sell_touches_only_the_caller req positionId st id :
  auth req <> Some id ->
  markets (snd (sell req positionId st)) = markets st
  /\ trades (snd (sell req positionId st)) = trades st
  /\ users_get id (users (snd (sell req positionId st))) = users_get id (users st)
  /\ positions (snd (sell req positionId st)) !! id = positions st !! id.
Proof.
  intros Hid. unfold sell.
  destruct (getUser req st) as [user|] eqn:Huser; [|auto].
  destruct (findIndex _ _) as [[idx pos]|]; [|auto].
  destruct (array_get _ _) as [[i market]|]; [|auto].
  assert (Hne : id <> User.id user).
  { intros ->. apply Hid. eapply getUser_auth, Huser. }
  simpl. repeat split.
  - apply users_get_set_ne; [reflexivity|exact Hne].
  - apply lookup_alter_ne. congruence.
Qed.

Lemma sell_touches_only_the_caller_witness :
  markets (snd (sell as_alice (Str (Position.id position1)) db5)) = markets db5
  /\ users_get bob_id (users (snd (sell as_alice (Str (Position.id position1)) db5)))
     = Some bob.
Proof.
  destruct (sell_touches_only_the_caller as_alice (Str (Position.id position1)) db5 bob_id)
    as (H1 & _ & H3 & _); [discriminate|].
  split; [exact H1|]. rewrite H3. vm_compute; reflexivity.
Defined.

(** X3.  A position id that is not among the caller's own positions is
    answered with "Position not found", and nothing changes, whoever else
    may hold a position with that id. *)
Theorem sell_of_foreign_position_is_refused req positionId st user :
  getUser req st = Some user ->
  (forall p, p ∈ default [] (positions st !! User.id user) ->
     strict_eq (Str (Position.id p)) positionId = false) ->
  sell req positionId st = (Error "Position not found" 404, st).
Proof.
  intros Huser Hnone. unfold sell. rewrite Huser.
  destruct (findIndex _ _) as [[idx pos]|] eqn:Hf; [|reflexivity].
  apply findIndex_Some in Hf as (Hl & Hp & _).
  rewrite Hnone in Hp; [discriminate|]. eapply list_elem_of_lookup_2, Hl.
Qed.

Lemma sell_of_foreign_position_is_refused_witness :
  positions db5 !! alice_id = Some [position1]
  /\ getUser as_bob db5 = Some bob
  /\ sell as_bob (Str (Position.id position1)) db5 = (Error "Position not found" 404, db5).
Proof.
  split; [vm_compute; reflexivity|]. split; [vm_compute; reflexivity|].
  apply (sell_of_foreign_position_is_refused as_bob (Str (Position.id position1)) db5 bob).
  - vm_compute; reflexivity.
  - assert (H : positions db5 !! User.id bob = Some []) by (vm_compute; reflexivity).
    rewrite H. intros p Hp. inversion Hp.
Defined.

(** ** What a Buy does to the market *)



(** ** The trade log is append-only *)

Lemma step_trades st a :
  trades (step st a) = trades st
  \/ is_buy a = true /\ exists r, trades (step st a) = trades st ++ [r].
Proof.
  destruct a as [env body|env req body|req pid|env]; simpl.
  - left. unfold register.
    repeat match goal with |- context [if ?c then _ else _] => destruct c end; reflexivity.
  - unfold trade. destruct (getUser req st) as [user|]; [|auto].
    destruct (negb _); [auto|]. destruct (_ || _); [auto|].
    destruct (array_get _ _) as [[i market]|]; [|auto].
    right. split; [reflexivity|]. unfold fill. simpl. eauto.
  - left. unfold sell. destruct (getUser req st) as [user|]; [|reflexivity].
    destruct (findIndex _ _) as [[idx pos]|]; [|reflexivity].
    destruct (array_get _ _) as [[i market]|]; reflexivity.
  - left. reflexivity.
Qed.

(** X5.  Whatever happens to the ledger, the trade log only grows at its
    end: the log before a run is a prefix of the log after it, a run
    without Buys leaves the log as it was, and one Buy adds at most one
    record. *)
Theorem trade_log_is_append_only st l :
  trades st `prefix_of` trades (run st l)
  /\ (forallb (fun a => negb (is_buy a)) l = true -> trades (run st l) = trades st)
  /\ (length (trades (run st l)) <= length (trades st) + length (filter is_buy l))%nat.
Proof.
  revert st. induction l as [|a l IH]; intros st.
  - simpl. split; [reflexivity|]. split; [reflexivity|lia].
  - change (run st (a :: l)) with (run (step st a) l).
    destruct (IH (step st a)) as (Hp & Hn & Hlen).
    destruct (step_trades st a) as [Heq|[Hb (r & Heq)]].
    + rewrite Heq in Hp, Hn, Hlen. split; [exact Hp|]. split.
      * simpl. intros [_ Hl]%andb_prop. apply Hn, Hl.
      * rewrite filter_cons. destruct (decide (is_buy a)); simpl; lia.
    + rewrite Heq in Hp, Hlen. split.
      * etransitivity; [|exact Hp]. apply prefix_app_r. reflexivity.
      * split.
        -- simpl. rewrite Hb. discriminate.
        -- rewrite filter_cons, decide_True by (rewrite Hb; exact I).
           rewrite length_app in Hlen. simpl in *. lia.
Qed.

Lemma trade_log_is_append_only_witness :
  trades db3 = trades db2
  /\ (length (trades db4) <= 1)%nat.
Proof.
  split.
  - apply (trade_log_is_append_only db2
             [Tick tick_up; Sell as_alice (Str (Position.id position1))]). reflexivity.
  - apply (trade_log_is_append_only db0 actions4).
Defined.

(** ** Selling never fails on a reachable ledger *)



(** ** One open position per market and side *)

Lemma findIndex_None {A} (p : A -> bool) (l : list A) :
  findIndex p l = None -> forall x, x ∈ l -> p x = false.
Proof.
  induction l as [|a l IH]; simpl; intros H x Hx; [inversion Hx|].
  destruct (p a) eqn:Ha; [discriminate|].
  destruct (findIndex p l); [discriminate|].
  apply elem_of_cons in Hx as [->|Hx]; [exact Ha|apply IH; auto].
Qed.











(** ** Buying and selling straight away *)

Lemma findIndex_none_of {A} (p : A -> bool) (l : list A) :
  (forall x, x ∈ l -> p x = false) -> findIndex p l = None.
Proof.
  induction l as [|a l IH]; simpl; intros H; [reflexivity|].
  rewrite (H a) by (apply elem_of_cons; auto).
  rewrite IH; [reflexivity|]. intros x Hx. apply H, elem_of_cons. auto.
Qed.

Lemma gt_irrefl (x : number) : gt x x = false.
Proof.
  unfold gt. destruct (PrimFloat.ltb x x) eqn:H; [|reflexivity].
  rewrite <- H. apply (lt_asym x x H).
Qed.

Lemma delete_snoc {A} (l : list A) x : delete (length l) (l ++ [x]) = l.
Proof. induction l as [|a l IH]; simpl; [reflexivity|]. f_equal. exact IH. Qed.

(** X8.  A Buy that opens a new position, followed at once by the sale of
    that position: the sale is accepted and pays
    [shares * (price / 100)] at the price the Buy was filled at; the
    positions of every user are again what they were before the Buy;
    and, the price being equal to the average cost, the round trip is
    counted as a loss, never as a win.  The Buy stays in the trade log and
    in the market's volume. *)
Theorem buy_then_sell_counts_a_loss env req body st user i market ps :
  getUser req st = Some user ->
  includes ["YES"; "NO"] (side body) = true ->
  le (ToNumber (amount body)) 0%float = false ->
  gt (ToNumber (amount body)) (User.balance user) = false ->
  array_get (markets st) (marketId body) = Some (i, market) ->
  positions st !! User.id user = Some ps ->
  findIndex (same_slot (marketId body) (side body)) ps = None ->
  (forall p, p ∈ ps -> Position.id p <> position_uuid env) ->
  let st1 := snd (trade env req body st) in
  let amt := ToNumber (amount body) in
  let price := side_price (side body) market in
  let shares := Math_floor (amt / (price / 100))%float in
  let payout := (shares * (price / 100))%float in
  let user2 :=
    User.mk (User.id user) (User.username user) (User.email user)
      (User.balance user - amt + payout)%float (User.created user)
      (User.wins user) (User.losses user + 1)%float in
  exists st2,
    sell req (Str (position_uuid env)) st1
      = (Ok (User.balance user - amt + payout, payout)%float, st2)
    /\ positions st2 = positions st
    /\ getUser req st2 = Some user2
    /\ markets st2 = markets st1
    /\ trades st2 = trades st1.
Proof.
  intros Huser Hside Hle Hgt Hm Hps Hslot Hfresh. cbv zeta.
  rewrite (trade_valid _ _ _ _ _ _ _ Huser Hside Hle Hgt Hm).
  set (amt := ToNumber (amount body)).
  set (price := side_price (side body) market).
  set (shares := Math_floor (amt / (price / 100))%float).
  set (user1 := User.mk (User.id user) (User.username user) (User.email user)
                  (User.balance user - amt)%float (User.created user)
                  (User.wins user) (User.losses user)).
  set (market1 := Market.mk (Market.id market) (Market.title market) (Market.cat market)
                    (Market.yes market) (Market.no market)
                    (Market.vol market + amt)%float (Market.users market + 1)%float
                    (Market.days market) (Market.history market) (Market.lastUpdate market)).
  set (pos := Position.mk (position_uuid env) (marketId body)
                (String.substring 0 40 (Market.title market)) (side body)
                shares price (position_now env)).
  set (st1 := snd (fill env body user i market st)).
  assert (Hu1 : getUser req st1 = Some user1).
  { eapply getUser_users_set; [exact Huser|reflexivity|reflexivity]. }
  assert (Hps1 : positions st1 !! User.id user1 = Some (ps ++ [pos])).
  { unfold st1, fill. simpl. rewrite lookup_alter_eq, Hps. simpl.
    unfold upsert. rewrite Hslot. reflexivity. }
  assert (Hf1 : findIndex (fun p => strict_eq (Str (Position.id p)) (Str (position_uuid env)))
                  (ps ++ [pos]) = Some (length ps, pos)).
  { apply findIndex_snoc.
    - apply findIndex_none_of. intros p Hp. simpl.
      apply bool_decide_eq_false_2. apply Hfresh, Hp.
    - simpl. apply bool_decide_eq_true_2. reflexivity. }
  assert (Hm1 : array_get (markets st1) (Position.marketId pos) = Some (i, market1)).
  { unfold st1, fill. simpl. eapply array_get_insert, Hm. }
  pose proof (sell_found req (Str (position_uuid env)) st1 user1 (ps ++ [pos])
                (length ps) pos i market1 Hu1 Hps1 Hf1 Hm1) as Hsell.
  cbv zeta in Hsell.
  change (side_price (Position.side pos) market1) with price in Hsell.
  change (Position.avg pos) with price in Hsell.
  change (Position.shares pos) with shares in Hsell.
  rewrite gt_irrefl in Hsell.
  eexists. split; [exact Hsell|]. simpl. split; [|split; [|split; reflexivity]].
  - apply map_eq. intros id. rewrite lookup_alter. case_decide as Hid.
    + subst id. rewrite lookup_alter_eq, Hps. simpl.
      unfold upsert. rewrite Hslot. rewrite delete_snoc. reflexivity.
    + rewrite lookup_alter_ne by exact Hid. reflexivity.
  - eapply getUser_users_set; [exact Hu1|reflexivity|reflexivity].
Qed.

Lemma buy_then_sell_counts_a_loss_witness :
  exists st2,
    sell as_alice (Str "9f1c2c3e-0000-4000-8000-000000000001") db2
      = (Ok (10000, 20)%float, st2)
    /\ positions st2 = positions db1
    /\ getUser as_alice st2
       = Some (User.mk alice_id "alice" "alice@example.com" 10000%float
                 1700000001000%float 0%float 1%float).
Proof.
  destruct (buy_then_sell_counts_a_loss env1 as_alice (buy_yes (Number 20%float))
              db1 alice 0%nat (sample_market 0) [])
    as (st2 & Hs & Hp & Hu & _);
    [reflexivity| reflexivity| reflexivity| reflexivity| reflexivity| reflexivity
    | reflexivity | intros p Hp; inversion Hp |].
  exists st2. split; [exact Hs|]. split; [exact Hp|exact Hu].
Defined.

(** ** Registration *)

Lemma elem_of_users_set id u us x : x ∈ users_set id u us -> x = u \/ x ∈ us.
Proof.
  induction us as [|v us IH]; simpl.
  - intros ->%list_elem_of_singleton. auto.
  - case_bool_decide.
    + intros [->|H']%elem_of_cons; [auto|]. right. apply elem_of_cons. auto.
    + intros [->|H']%elem_of_cons; [right; apply elem_of_cons; auto|].
      destruct (IH H') as [->|Hx]; [auto|]. right. apply elem_of_cons. auto.
Qed.

(** Storing a record whose key field is new keeps the key field free of
    duplicates, whether the record replaces one or is appended. *)
Lemma users_set_NoDup_new {B} (f : User.t -> B) id u us :
  NoDup (f <$> us) -> f u ∉ (f <$> us) -> NoDup (f <$> users_set id u us).
Proof.
  induction us as [|v us IH]; simpl; intros Hnd Hnew.
  - apply NoDup_singleton.
  - apply NoDup_cons in Hnd as [Hv Hnd].
    rewrite not_elem_of_cons in Hnew. destruct Hnew as [Huv Hnew].
    case_bool_decide; rewrite fmap_cons; apply NoDup_cons.
    + split; assumption.
    + split; [|apply IH; assumption].
      intros (x & Hfx & Hx)%list_elem_of_fmap.
      apply elem_of_users_set in Hx as [->|Hx]; [congruence|].
      apply Hv. rewrite Hfx. apply list_elem_of_fmap. eauto.
Qed.

Lemma users_set_NoDup_id id u us :
  User.id u = id -> NoDup (User.id <$> us) -> NoDup (User.id <$> users_set id u us).
Proof.
  intros Hu. induction us as [|v us IH]; simpl; intros Hnd.
  - apply NoDup_singleton.
  - apply NoDup_cons in Hnd as [Hv Hnd].
    case_bool_decide as Hid; rewrite fmap_cons; apply NoDup_cons.
    + split; [|assumption]. rewrite Hu, <- Hid. exact Hv.
    + split; [|apply IH; assumption].
      intros (x & Hfx & Hx)%list_elem_of_fmap.
      apply elem_of_users_set in Hx as [->|Hx]; [congruence|].
      apply Hv. rewrite Hfx. apply list_elem_of_fmap. eauto.
Qed.

(** Writing back a user found under its id, with a field unchanged, keeps
    the list of that field. *)
Lemma users_set_fmap_same {B} (f : User.t -> B) id u u' us :
  users_get id us = Some u -> f u' = f u -> f <$> users_set id u' us = f <$> us.
Proof.
  intros Hget Hf. induction us as [|v us IH]; simpl in *; [discriminate|].
  case_bool_decide.
  - injection Hget as ->. rewrite !fmap_cons, Hf. reflexivity.
  - rewrite !fmap_cons, IH by assumption. reflexivity.
Qed.

Lemma existsb_false_not_in {B} `{EqDecision B} (f : User.t -> B) (b : B) us :
  existsb (fun u => bool_decide (f u = b)) us = false -> b ∉ (f <$> us).
Proof.
  induction us as [|v us IH]; simpl; [intros _; apply not_elem_of_nil|].
  intros [Hv Hus]%orb_false_elim. rewrite not_elem_of_cons.
  split; [|apply IH, Hus]. apply bool_decide_eq_false_1 in Hv. congruence.
Qed.

Lemma existsb_or_false {A} (p q : A -> bool) l :
  existsb (fun x => p x || q x) l = false ->
  existsb p l = false /\ existsb q l = false.
Proof.
  induction l as [|a l IH]; simpl; [auto|].
  intros [[Hp Hq]%orb_false_elim Hl]%orb_false_elim.
  destruct (IH Hl) as [-> ->]. rewrite Hp, Hq. auto.
Qed.

Lemma step_accounts st a : accounts_distinct st -> accounts_distinct (step st a).
Proof.
  intros (Hn & He & Hi). destruct a as [env body|env req body|req pid|env]; simpl.
  - unfold register.
    destruct (_ || _); [split; auto|].
    destruct (_ <? _)%nat; [split; auto|].
    destruct (_ <? _)%nat; [split; auto|].
    destruct (existsb _ _) eqn:Hex; [split; auto|].
    apply existsb_or_false in Hex as [Hem Hnm].
    unfold accounts_distinct. simpl. split; [|split].
    + apply users_set_NoDup_new; [exact Hn|]. simpl.
      apply (existsb_false_not_in User.username), Hnm.
    + apply users_set_NoDup_new; [exact He|]. simpl.
      apply (existsb_false_not_in User.email), Hem.
    + apply users_set_NoDup_id; [reflexivity|exact Hi].
  - unfold trade. destruct (getUser req st) as [user|] eqn:Hu; [|split; auto].
    destruct (negb _); [split; auto|]. destruct (_ || _); [split; auto|].
    destruct (array_get _ _) as [[i market]|]; [|split; auto].
    apply getUser_Some in Hu.
    unfold accounts_distinct, fill. simpl.
    rewrite !(users_set_fmap_same _ _ _ _ _ Hu) by reflexivity. auto.
  - unfold sell. destruct (getUser req st) as [user|] eqn:Hu; [|split; auto].
    destruct (findIndex _ _) as [[idx pos]|]; [|split; auto].
    destruct (array_get _ _) as [[i market]|]; [|split; auto].
    apply getUser_Some in Hu.
    unfold accounts_distinct. simpl.
    rewrite !(users_set_fmap_same _ _ _ _ _ Hu) by reflexivity. auto.
  - split; auto.
Qed.

(** X9.  Over any sequence of registrations, Buys, Sells and price ticks,
    no two users ever share a username, an email or an id, when none did
    at the start; this holds even when the id drawn for a new user is
    already taken, the newcomer then replacing the holder of the id. *)
Theorem accounts_stay_distinct st actions :
  accounts_distinct st -> accounts_distinct (run st actions).
Proof.
  revert st. induction actions as [|a l IH]; intros st Hst; [exact Hst|].
  simpl. apply IH, step_accounts, Hst.
Qed.

Lemma accounts_stay_distinct_witness :
  accounts_distinct (run db0 actions7)
  /\ User.username <$> users (run db0 actions7) = ["alice"; "bob"].
Proof.
  split; [|vm_compute; reflexivity].
  apply (accounts_stay_distinct db0 actions7).
  repeat split; apply NoDup_nil_2.
Defined.



(** ** Markets over a run *)

Section Market_relations.

Variable R : Market.t -> Market.t -> Prop.
Variable allowed : action -> bool.
Hypothesis R_refl : forall m, R m m.
Hypothesis R_trans : forall m1 m2 m3, R m1 m2 -> R m2 m3 -> R m1 m3.
Hypothesis R_buy : forall env req body, allowed (Buy env req body) = true ->
  forall m amt,
    R m (Market.mk (Market.id m) (Market.title m) (Market.cat m)
           (Market.yes m) (Market.no m)
           (Market.vol m + amt)%float (Market.users m + 1)%float
           (Market.days m) (Market.history m) (Market.lastUpdate m)).
Hypothesis R_tick : forall env, allowed (Tick env) = true ->
  forall r now m, R m (updateMarket r now m).

Lemma Forall2_R_refl ms : Forall2 R ms ms.
Proof. induction ms; constructor; auto. Qed.

Lemma Forall2_R_trans ms1 ms2 ms3 :
  Forall2 R ms1 ms2 -> Forall2 R ms2 ms3 -> Forall2 R ms1 ms3.
Proof.
  intros H12. revert ms3. induction H12; intros ms3 H23; inversion H23; subst;
    constructor; eauto.
Qed.

Lemma step_markets_rel st a :
  allowed a = true -> Forall2 R (markets st) (markets (step st a)).
Proof.
  intros Ha. destruct a as [env body|env req body|req pid|env]; simpl.
  - unfold register.
    repeat match goal with |- context [if ?c then _ else _] => destruct c end;
      apply Forall2_R_refl.
  - unfold trade. destruct (getUser req st) as [user|]; [|apply Forall2_R_refl].
    destruct (negb _); [apply Forall2_R_refl|]. destruct (_ || _); [apply Forall2_R_refl|].
    destruct (array_get _ _) as [[i market]|] eqn:Hm; [|apply Forall2_R_refl].
    unfold fill. simpl.
    assert (Hi : markets st !! i = Some market).
    { destruct (marketId body) as [| | |n]; simpl in Hm; try discriminate.
      destruct (to_index n) as [k|]; simpl in Hm; [|discriminate].
      destruct (markets st !! k) eqn:Hk; simpl in Hm; [|discriminate].
      injection Hm as <- <-. exact Hk. }
    rewrite <- (list_insert_id (markets st) i market Hi) at 1.
    apply Forall2_insert; [apply Forall2_R_refl|]. eapply R_buy, Ha.
  - unfold sell. destruct (getUser req st) as [user|]; [|apply Forall2_R_refl].
    destruct (findIndex _ _) as [[idx pos]|]; [|apply Forall2_R_refl].
    destruct (array_get _ _) as [[i market]|]; apply Forall2_R_refl.
  - apply Forall2_same_length_lookup_2; [rewrite length_imap; reflexivity|].
    intros i m m' Hm. rewrite list_lookup_imap, Hm. simpl. intros [= <-].
    eapply R_tick, Ha.
Qed.

Lemma run_markets_rel st l :
  forallb allowed l = true -> Forall2 R (markets st) (markets (run st l)).
Proof.
  revert st. induction l as [|a l IH]; intros st; simpl.
  - intros _. apply Forall2_R_refl.
  - intros [Ha Hl]%andb_prop. eapply Forall2_R_trans; [apply step_markets_rel, Ha|].
    apply IH, Hl.
Qed.

End Market_relations.

Lemma run_same_market st l : Forall2 same_market (markets st) (markets (run st l)).
Proof.
  apply (run_markets_rel same_market (fun _ => true)).
  - intros m. repeat split.
  - intros m1 m2 m3 (H1 & H2 & H3 & H4) (H1' & H2' & H3' & H4').
    repeat split; congruence.
  - intros; repeat split.
  - intros; repeat split.
  - induction l; simpl; auto.
Qed.

(** X11.  Markets are never created, removed or reordered, and the id,
    title, category and days of a market never change: after any sequence
    of registrations, Buys, Sells and price ticks the market array has its
    original length and each entry is still the same market. *)
Theorem markets_keep_their_identity st actions :
  Forall2 same_market (markets st) (markets (run st actions))
  /\ length (markets (run st actions)) = length (markets st).
Proof.
  split; [apply run_same_market|].
  symmetry. eapply Forall2_length, run_same_market.
Qed.

Lemma markets_keep_their_identity_witness :
  length (markets db4) = 600%nat
  /\ Forall2 same_market (markets db0) (markets db4).
Proof.
  destruct (markets_keep_their_identity db0 actions4) as [H1 H2].
  split; [exact H2|exact H1].
Defined.

(** X12.  Trading has no effect on prices and the price engine none on
    activity: a sequence of registrations, Buys and Sells without a price
    tick leaves the YES and NO price, the history and the update stamp of
    every market as they were, however much is bought; and a sequence
    without a Buy leaves every market's volume and participant count as
    they were. *)
Theorem only_ticks_move_prices_only_buys_move_volume st actions :
  (forallb (fun a => negb (is_tick a)) actions = true ->
     Forall2 same_quote (markets st) (markets (run st actions)))
  /\ (forallb (fun a => negb (is_buy a)) actions = true ->
     Forall2 same_activity (markets st) (markets (run st actions))).
Proof.
  split.
  - apply (run_markets_rel same_quote).
    + intros m. repeat split.
    + intros m1 m2 m3 (H1 & H2 & H3 & H4) (H1' & H2' & H3' & H4').
      repeat split; congruence.
    + intros; repeat split.
    + intros env [=].
  - apply (run_markets_rel same_activity).
    + intros m. repeat split.
    + intros m1 m2 m3 (H1 & H2) (H1' & H2'). split; congruence.
    + intros env req body [=].
    + intros; repeat split.
Qed.

Lemma only_ticks_move_prices_only_buys_move_volume_witness :
  Forall2 same_quote (markets db0) (markets db6)
  /\ Forall2 same_activity (markets db2) (markets db3).
Proof.
  split.
  - apply (only_ticks_move_prices_only_buys_move_volume db0 actions6). reflexivity.
  - apply (only_ticks_move_prices_only_buys_move_volume db2
             [Tick tick_up; Sell as_alice (Str (Position.id position1))]). reflexivity.
Defined.

(** ** The price history is a sliding window *)

Lemma updatePrices_lookup env st i m :
  markets st !! i = Some m ->
  markets (updatePrices env st) !! i
  = Some (updateMarket (random env i) (tick_now env i) m).
Proof. intros Hm. simpl. rewrite list_lookup_imap, Hm. reflexivity. Qed.

Lemma tail_drop {A} (l : list A) : tail l = drop 1 l.
Proof. destruct l; reflexivity. Qed.

(** X13.  The history of a market is a sliding window over its prices:
    after any number of price ticks, the history of a market that had a
    non-empty history [h] consists of the last [length h] entries of [h]
    followed by the YES prices the ticks have set, oldest first; so its
    length never changes and, once a tick has run, its last entry is the
    current YES price. *)
Theorem history_is_a_sliding_window envs st i m :
  markets st !! i = Some m ->
  Market.history m <> [] ->
  exists m',
    markets (run st (Tick <$> envs)) !! i = Some m'
    /\ Market.history m'
       = drop (length envs) (Market.history m ++ price_trace i st envs)
    /\ length (price_trace i st envs) = length envs
    /\ length (Market.history m') = length (Market.history m)
    /\ (envs <> [] -> last (Market.history m') = Some (Market.yes m')).
Proof.
  revert st m. induction envs as [|env envs IH]; intros st m Hm Hh.
  - exists m. simpl. rewrite app_nil_r. repeat split; try assumption. congruence.
  - pose proof (updatePrices_lookup env st i m Hm) as Hm1.
    set (m1 := updateMarket (random env i) (tick_now env i) m) in *.
    assert (Hh1 : Market.history m1 <> []).
    { simpl. intros [_ [=]]%app_eq_nil. }
    destruct (IH (updatePrices env st) m1 Hm1 Hh1) as (m' & Hm' & Hhist & Hlen & Hlh & Hlast).
    exists m'. change (run st (Tick <$> env :: envs))
      with (run (updatePrices env st) (Tick <$> envs)).
    split; [exact Hm'|].
    assert (Hy : yes_at i (updatePrices env st) = Some (Market.yes m1)).
    { unfold yes_at. rewrite Hm1. reflexivity. }
    assert (Htr : price_trace i st (env :: envs)
                  = Market.yes m1 :: price_trace i (updatePrices env st) envs).
    { cbn [price_trace]. cbv zeta. rewrite Hy. reflexivity. }
    assert (Hh1' : Market.history m1 = drop 1 (Market.history m) ++ [Market.yes m1]).
    { simpl. rewrite tail_drop. reflexivity. }
    assert (Hl1 : length (Market.history m1) = length (Market.history m)).
    { rewrite Hh1', length_app, length_drop. simpl.
      destruct (Market.history m); [congruence|simpl; lia]. }
    rewrite Htr. split; [|split; [|split]].
    + rewrite Hhist, Hh1'. simpl length.
      change (S (length envs)) with (1 + length envs)%nat.
      rewrite <- drop_drop. f_equal.
      rewrite <- app_assoc. simpl.
      destruct (Market.history m) as [|x h]; [congruence|]. reflexivity.
    + simpl. rewrite Hlen. reflexivity.
    + rewrite Hlh. exact Hl1.
    + intros _. destruct envs as [|env' envs'].
      * change (markets (updatePrices env st) !! i = Some m') in Hm'.
        rewrite Hm1 in Hm'. injection Hm' as <-.
        rewrite Hh1'. rewrite last_snoc. reflexivity.
      * apply Hlast. discriminate.
Qed.

Lemma history_is_a_sliding_window_witness :
  exists m',
    markets (run db0 (Tick <$> [tick_up; tick_down; tick_down])) !! 0%nat = Some m'
    /\ Market.history m' = replicate 27 50%float ++ [41; 40; 39]%float
    /\ Market.yes m' = 39%float.
Proof.
  destruct (history_is_a_sliding_window [tick_up; tick_down; tick_down] db0 0%nat
              (sample_market 0)) as (m' & Hm' & Hh & _ & _ & Hl);
    [reflexivity|discriminate|].
  exists m'. split; [exact Hm'|]. split.
  - rewrite Hh. vm_compute. reflexivity.
  - assert (Hm'' : markets (run db0 (Tick <$> [tick_up; tick_down; tick_down])) !! 0%nat
                   = Some (Market.mk 0%float (sample_title 0) "crypto" 39%float 61%float
                             250000%float 1500%float 120%float
                             (replicate 27 50%float ++ [41; 40; 39]%float)
                             1700000002500%float)).
    { vm_compute. reflexivity. }
    rewrite Hm'' in Hm'. injection Hm' as <-. reflexivity.
Defined.

(** ** Numbers: sums, products and differences that are not negative *)

Lemma le_zero_SF x :
  le 0%float x
  = match Prim2SF x with
    | S754_zero _ => true
    | S754_infinity s | S754_finite s _ _ => negb s
    | S754_nan => false
    end.
Proof.
  unfold le. rewrite FloatAxioms.leb_spec. change (Prim2SF 0) with (S754_zero false).
  destruct (Prim2SF x) as [[]|[]| |[] m e]; reflexivity.
Qed.

Lemma SFsign_false_nonneg x :
  SFsign x = Some false ->
  match x with
  | S754_zero _ => true
  | S754_infinity s | S754_finite s _ _ => negb s
  | S754_nan => false
  end = true.
Proof. destruct x as [[]|[]| |[] m e]; try discriminate; reflexivity. Qed.

Lemma nonneg_add x y : nonneg x -> nonneg y -> nonneg (x + y)%float.
Proof.
  unfold nonneg. rewrite !le_zero_SF, FloatAxioms.add_spec. unfold SF64add.
  destruct (Prim2SF x) as [[]|[]| |[] mx ex], (Prim2SF y) as [[]|[]| |[] my ey];
    try discriminate; intros _ _; try reflexivity.
  cbv beta iota delta [SFadd]. cbv zeta. apply SFsign_false_nonneg.
  rewrite binary_normalize_sign. reflexivity.
Qed.

Lemma nonneg_mul x y :
  nonneg x -> positive_finite y = true -> nonneg (x * y)%float.
Proof.
  unfold nonneg, positive_finite. rewrite !le_zero_SF, FloatAxioms.mul_spec. unfold SF64mul.
  destruct (Prim2SF x) as [[]|[]| |[] mx ex], (Prim2SF y) as [[]|[]| |[] my ey];
    try discriminate; intros _ _; try reflexivity.
  cbv beta iota delta [SFmul]. apply SFsign_false_nonneg.
  apply binary_round_aux_sign. lia.
Qed.

(** An amount [0 < a <= b] below [Infinity] taken from a balance [b] that
    is not negative leaves a balance that is not negative. *)
Lemma nonneg_sub a b :
  le a 0%float = false -> lt a infinity = true -> gt a b = false ->
  nonneg b -> nonneg (b - a)%float.
Proof.
  unfold nonneg, gt, le, lt. intros Ha0 Hai Hab Hb.
  destruct (PrimFloat.ltb a b) eqn:Hlt.
  - pose proof (sub_pos_iff a b) as H. unfold lt in H. rewrite Hlt in H.
    rewrite FloatAxioms.ltb_spec in H. rewrite FloatAxioms.leb_spec.
    unfold SFltb in H. unfold SFleb.
    destruct (SFcompare _ _) as [[]|]; try discriminate; reflexivity.
  - revert Ha0 Hai Hab Hb Hlt.
    rewrite !FloatAxioms.leb_spec, !FloatAxioms.ltb_spec, FloatAxioms.sub_spec.
    change (Prim2SF 0) with (S754_zero false).
    change (Prim2SF infinity) with (S754_infinity false).
    unfold SF64sub, SFleb, SFltb.
    destruct (Prim2SF a) as [[]|[]| |[] ma ea], (Prim2SF b) as [[]|[]| |[] mb eb];
      cbv beta iota delta [SFcompare];
      change (Pos.compare_cont Eq ?p ?q) with (Pos.compare p q);
      try discriminate; try reflexivity.
    intros _ _ H1 _ H2. revert H1 H2.
    destruct (Z.compare_spec eb ea) as [He|He|He]; try discriminate;
      destruct (Z.compare_spec ea eb) as [He'|He'|He']; try discriminate; try lia.
    destruct (Pos.compare_spec mb ma) as [Hm|Hm|Hm]; try discriminate;
      destruct (Pos.compare_spec ma mb) as [Hm'|Hm'|Hm']; try discriminate; try lia.
    intros _ _. subst eb mb.
    cbv beta iota delta [SFsub]. cbv zeta.
    rewrite Z.sub_diag. reflexivity.
Qed.

Lemma quote_ok_all n : 1 <= n <= 99 -> quote_ok n = true.
Proof.
  intros Hn.
  assert (H : forallb quote_ok (seqZ 1 99) = true) by (vm_compute; reflexivity).
  rewrite forallb_forall in H. apply H.
  apply list_elem_of_In, elem_of_seqZ. lia.
Qed.

Lemma positive_amount a :
  le a 0%float = false -> lt a infinity = true -> lt 0%float a = true.
Proof.
  unfold le, lt. rewrite FloatAxioms.leb_spec, !FloatAxioms.ltb_spec.
  change (Prim2SF 0) with (S754_zero false).
  change (Prim2SF infinity) with (S754_infinity false).
  unfold SFleb, SFltb.
  destruct (Prim2SF a) as [[]|[]| |[] ma ea]; cbv beta iota delta [SFcompare];
    try discriminate; reflexivity.
Qed.

(** ** Solvency is kept *)

(** The price of either side of a quoted market lies in [1, 99], and a
    hundredth of it is a positive number. *)
Lemma quoted_side_price sd m :
  quoted m ->
  le 1%float (side_price sd m) = true /\ le (side_price sd m) 99%float = true
  /\ positive_finite (side_price sd m / 100)%float = true.
Proof.
  intros (n & Hn & Hy & Hno).
  pose proof (small_ok_all n Hn) as H. unfold small_ok in H.
  apply andb_prop in H as [H _]. apply andb_prop in H as [H H3].
  apply andb_prop in H as [_ H2].
  pose proof (quote_ok_all n Hn) as Q. unfold quote_ok in Q.
  apply andb_prop in Q as [Q Q4]. apply andb_prop in Q as [Q Q3].
  apply andb_prop in Q as [Q1 Q2].
  unfold side_price. destruct (strict_eq sd (Str "YES")).
  - rewrite Hy. auto.
  - rewrite Hno. auto.
Qed.

Lemma quoted_in_range m : quoted m -> price_in_range m.
Proof.
  intros Hq. destruct (quoted_side_price (Str "YES") m Hq) as (H1 & H2 & _).
  split; assumption.
Qed.

Lemma users_get_elem id us u : users_get id us = Some u -> u ∈ us.
Proof.
  induction us as [|v us IH]; simpl; [discriminate|].
  case_bool_decide.
  - intros [= <-]. apply elem_of_cons. auto.
  - intros H'. apply elem_of_cons. auto.
Qed.

Lemma Forall_users_set (P : User.t -> Prop) id u us :
  Forall P us -> P u -> Forall P (users_set id u us).
Proof.
  intros Hus Hu. apply Forall_forall. intros x Hx.
  apply elem_of_users_set in Hx as [->|Hx]; [exact Hu|].
  eapply Forall_forall in Hus; eauto.
Qed.

Lemma array_get_lookup {A} (arr : list A) key i x :
  array_get arr key = Some (i, x) -> arr !! i = Some x.
Proof.
  destruct key as [| | |n]; simpl; try discriminate.
  destruct (to_index n) as [k|]; simpl; [|discriminate].
  destruct (arr !! k) eqn:Hk; simpl; [|discriminate].
  intros [= <- <-]. exact Hk.
Qed.

Lemma upsert_nonneg env body market price shares ps p :
  nonneg shares ->
  (forall q, q ∈ ps -> nonneg (Position.shares q)) ->
  p ∈ upsert env body market price shares ps ->
  nonneg (Position.shares p).
Proof.
  intros Hs Hps. unfold upsert.
  destruct (findIndex _ ps) as [[j q]|].
  - intros Hin. apply list_elem_of_lookup_1 in Hin as (k & Hk).
    rewrite list_lookup_alter in Hk. case_decide as Hkj.
    + subst k. destruct (ps !! j) as [q'|] eqn:Hq'; simpl in Hk; [|discriminate].
      injection Hk as <-. simpl. apply nonneg_add; [|exact Hs].
      apply Hps. eapply list_elem_of_lookup_2, Hq'.
    + apply Hps. eapply list_elem_of_lookup_2, Hk.
  - intros [Hin|Hin]%elem_of_app; [apply Hps, Hin|].
    apply list_elem_of_singleton in Hin as ->. exact Hs.
Qed.

Lemma step_solvent st a : solvent st -> sound a -> solvent (step st a).
Proof.
  intros (Hu & Hp & Hm) Ha.
  destruct a as [env body|env req body|req pid|env]; simpl in *.
  - unfold register.
    repeat match goal with |- context [if ?c then _ else _] => destruct c end;
      try (split; [exact Hu|split; [exact Hp|exact Hm]]).
    split; [|split; [|exact Hm]]; simpl.
    + apply Forall_users_set; [exact Hu|]. reflexivity.
    + intros id ps p. destruct (decide (reg_uuid env = id)) as [<-|Hne].
      * rewrite lookup_insert_eq. intros [= <-] Hin. inversion Hin.
      * rewrite lookup_insert_ne by exact Hne. apply Hp.
  - unfold trade. destruct (getUser req st) as [user|] eqn:Huser;
      [|split; [exact Hu|split; [exact Hp|exact Hm]]].
    destruct (negb _); [split; [exact Hu|split; [exact Hp|exact Hm]]|].
    destruct (le _ _ || gt _ _) eqn:Hamt; [split; [exact Hu|split; [exact Hp|exact Hm]]|].
    destruct (array_get _ _) as [[i market]|] eqn:Hmk;
      [|split; [exact Hu|split; [exact Hp|exact Hm]]].
    apply orb_false_elim in Hamt as [Hle Hgt].
    apply array_get_lookup in Hmk.
    assert (Hq : quoted market) by (eapply Forall_lookup_1; eauto).
    assert (Hb : nonneg (User.balance user)).
    { apply getUser_Some, users_get_elem in Huser.
      eapply Forall_forall in Hu; eauto. }
    destruct (quoted_side_price (side body) market Hq) as (Hp1 & Hp2 & _).
    assert (Hsh : nonneg (Math_floor (ToNumber (amount body)
                                      / (side_price (side body) market / 100))%float)).
    { apply le_zero_of_sign.
      apply Math_floor_nonneg, quotient_sign; auto using positive_amount. }
    unfold fill. split; [|split]; simpl.
    + apply Forall_users_set; [exact Hu|]. simpl. apply nonneg_sub; assumption.
    + intros id ps p. rewrite lookup_alter. case_decide as Hid.
      * destruct (positions st !! User.id user) as [ps0|] eqn:Hps0; simpl; [|discriminate].
        intros [= <-] Hin. eapply upsert_nonneg; [exact Hsh| |exact Hin].
        intros q Hq'. eapply Hp; eauto.
      * apply Hp.
    + apply Forall_insert; [exact Hm|].
      destruct Hq as (n & Hn & Hy & Hno). exists n. auto.
  - unfold sell. destruct (getUser req st) as [user|] eqn:Huser;
      [|split; [exact Hu|split; [exact Hp|exact Hm]]].
    destruct (positions st !! User.id user) as [ps0|] eqn:Hps0; simpl default;
      [|split; [exact Hu|split; [exact Hp|exact Hm]]].
    destruct (findIndex _ ps0) as [[idx pos]|] eqn:Hf;
      [|split; [exact Hu|split; [exact Hp|exact Hm]]].
    destruct (array_get _ _) as [[i market]|] eqn:Hmk;
      [|split; [exact Hu|split; [exact Hp|exact Hm]]].
    apply array_get_lookup in Hmk.
    assert (Hq : quoted market) by (eapply Forall_lookup_1; eauto).
    assert (Hb : nonneg (User.balance user)).
    { apply getUser_Some, users_get_elem in Huser.
      eapply Forall_forall in Hu; eauto. }
    apply findIndex_Some in Hf as (Hidx & _ & _).
    destruct (quoted_side_price (Position.side pos) market Hq) as (_ & _ & Hp3).
    split; [|split; [|exact Hm]]; simpl.
    + apply Forall_users_set; [exact Hu|]. simpl. apply nonneg_add; [exact Hb|].
      apply nonneg_mul; [|exact Hp3]. eapply Hp; [exact Hps0|].
      eapply list_elem_of_lookup_2, Hidx.
    + intros id ps p. rewrite lookup_alter. case_decide as Hid.
      * rewrite Hps0. simpl. intros [= <-] Hin. eapply Hp; [exact Hps0|].
        eapply list_elem_of_lookup_1 in Hin as (k & Hk).
        rewrite list_lookup_delete in Hk. eapply list_elem_of_lookup_2, Hk.
      * apply Hp.
  - split; [exact Hu|split; [exact Hp|]]. apply Forall_lookup. intros i m'. simpl.
    rewrite list_lookup_imap. destruct (markets st !! i) as [m|] eqn:Hmi; [|discriminate].
    simpl. intros [= <-]. destruct (Ha i) as [H0 H1].
    apply updateMarket_yes; [|assumption..].
    apply quoted_in_range. eapply Forall_lookup_1; eauto.
Qed.

(** X14.  Balances never go negative as long as amounts are numbers: start
    from a ledger in which no balance and no share count is negative or
    NaN and every market carries an integer YES price from 1 to 99 and its
    complement; then after any sequence of registrations, Buys whose
    amount is a number below [Infinity], Sells, and price ticks with
    draws in [0, 1), every balance is still [>= 0], every open position
    still holds [>= 0] shares, and the markets are still so quoted. *)
Theorem balances_stay_nonnegative st actions :
  solvent st -> Forall sound actions -> solvent (run st actions).
Proof.
  revert st. induction actions as [|a l IH]; intros st Hst Hl; [exact Hst|].
  apply Forall_cons in Hl as [Ha Hl]. simpl. apply IH; [|exact Hl].
  apply step_solvent; assumption.
Qed.

Lemma balances_stay_nonnegative_witness :
  solvent db4
  /\ User.balance <$> users db4 = [9980; 10000]%float.
Proof.
  split; [|vm_compute; reflexivity].
  apply (balances_stay_nonnegative db0 actions4).
  - split; [apply Forall_nil_2|]. split.
    + intros id ps p H. change (positions db0) with (∅ : gmap string (list Position.t)) in H.
      rewrite lookup_empty in H. discriminate.
    + change (markets db0) with (sample_market <$> seq 0 600).
      apply Forall_fmap, Forall_forall. intros i _.
      exists 40. split; [lia|]. split; reflexivity.
  - repeat constructor.
Defined.

(** ** Reading the ledger back *)

(** X15.  What a Buy or a Sell answers is what [GET /api/me] then shows:
    after a successful Buy or Sell the caller's profile carries the
    balance of the answer, and after a successful Sell the positions
    shown are the earlier ones without one entry. *)
Theorem me_shows_the_answered_balance req st :
  (forall env body b s st',
     trade env req body st = (Ok (b, s), st') ->
     exists prof ps, me req st' = Ok (prof, ps) /\ Profile.balance prof = b)
  /\ (forall positionId b payout st',
     sell req positionId st = (Ok (b, payout), st') ->
     exists prof ps prof0 ps0,
       me req st' = Ok (prof, ps) /\ Profile.balance prof = b
       /\ me req st = Ok (prof0, ps0)
       /\ length ps0 = S (length ps)
       /\ b = (Profile.balance prof0 + payout)%float).
Proof.
  split.
  - intros env body b s st' Ht.
    apply trade_Ok_inv in Ht as (user & i & market & Hu & _ & _ & Hf).
    unfold fill in Hf. injection Hf as <- <- <-. unfold me.
    erewrite getUser_users_set; [|exact Hu|reflexivity|reflexivity].
    simpl. eauto.
  - intros pid b payout st'. unfold sell, me.
    destruct (getUser req st) as [user|] eqn:Hu; [|discriminate].
    destruct (positions st !! User.id user) as [ps0|] eqn:Hps; simpl default;
      [|discriminate].
    destruct (findIndex _ ps0) as [[idx pos]|] eqn:Hf; [|discriminate].
    destruct (array_get _ _) as [[i market]|]; [|discriminate].
    intros [= <- <- <-].
    erewrite getUser_users_set; [|exact Hu|reflexivity|reflexivity].
    simpl. rewrite lookup_alter_eq, Hps. simpl.
    eexists _, _, _, _. split; [reflexivity|]. split; [reflexivity|].
    split; [reflexivity|]. split; [|reflexivity].
    apply findIndex_Some in Hf as (Hidx & _).
    apply lookup_lt_Some in Hidx. rewrite length_delete by (apply lookup_lt_is_Some; lia).
    lia.
Qed.

Lemma me_shows_the_answered_balance_witness :
  exists prof ps,
    me as_alice db2 = Ok (prof, ps) /\ Profile.balance prof = 9980%float.
Proof.
  destruct (me_shows_the_answered_balance as_alice db1) as [H _].
  apply (H env1 (buy_yes (Number 20%float)) 9980%float 50%float db2).
  vm_compute. reflexivity.
Defined.

(** X16.  In every ledger reached from one without positions, every
    position that [GET /api/me] lists for a caller can be sold by that
    caller: the Sell of its id succeeds. *)
Theorem listed_positions_can_be_sold req st0 actions prof ps p :
  positions st0 = ∅ ->
  me req (run st0 actions) = Ok (prof, ps) ->
  p ∈ ps ->
  exists balance payout,
    fst (sell req (Str (Position.id p)) (run st0 actions)) = Ok (balance, payout).
Proof.
  intros H0 Hme Hp.
  pose proof (run_wf st0 actions (empty_wf st0 H0)) as Hwf.
  unfold me in Hme. unfold sell.
  destruct (getUser req (run st0 actions)) as [user|]; [|discriminate].
  injection Hme as _ <-.
  destruct (positions (run st0 actions) !! User.id user) as [held|] eqn:Hheld;
    simpl default in *; [|inversion Hp].
  destruct (findIndex _ held) as [[idx pos]|] eqn:Hf.
  - apply findIndex_Some in Hf as (Hidx & _ & _).
    destruct (Hwf _ _ pos Hheld) as [[i market] Hm].
    { eapply list_elem_of_lookup_2, Hidx. }
    rewrite Hm. simpl. eauto.
  - exfalso. pose proof (findIndex_None _ _ Hf p Hp) as Hne. simpl in Hne.
    rewrite bool_decide_eq_true_2 in Hne by reflexivity. discriminate.
Qed.

Lemma listed_positions_can_be_sold_witness :
  exists balance payout,
    fst (sell as_alice (Str "9f1c2c3e-0000-4000-8000-000000000003") db6)
    = Ok (balance, payout).
Proof.
  apply (listed_positions_can_be_sold as_alice db0 actions6
           (Profile.mk alice_id "alice" "alice@example.com" 9930%float 0%float 0%float)
           [Position.mk "9f1c2c3e-0000-4000-8000-000000000001" (Number 0%float)
              "Will Bitcoin exceed $500K by 2025?" (Str "YES") 100%float 40%float
              1700000002000%float;
            Position.mk "9f1c2c3e-0000-4000-8000-000000000003" (Number 0%float)
              "Will Bitcoin exceed $500K by 2025?" (Str "NO") 50%float 60%float
              1700000003000%float]
           (Position.mk "9f1c2c3e-0000-4000-8000-000000000003" (Number 0%float)
              "Will Bitcoin exceed $500K by 2025?" (Str "NO") 50%float 60%float
              1700000003000%float)).
  - reflexivity.
  - vm_compute. reflexivity.
  - apply elem_of_cons. right. apply elem_of_cons. left. reflexivity.
Defined.

(** ** Looking a market up by its id *)

Lemma to_index_of_Z n :
  0 <= n < 2 ^ 52 -> to_index (of_Z n) = Some (Z.to_nat n).
Proof.
  intros Hn. destruct n as [|p|p]; [reflexivity| |lia].
  assert (Hp : Zpos p < 2 ^ 53).
  { assert (2 ^ 52 < 2 ^ 53) by reflexivity. lia. }
  unfold to_index. rewrite (Prim2SF_of_Z _ Hp). unfold SF_of_pos.
  destruct (digits2_pos_bound p) as [Hlo Hhi].
  set (d := Zpos (digits2_pos p)) in *.
  assert (Hd : d <= 52).
  { destruct (Z_le_gt_dec d 52) as [|Hgt]; [assumption|]. exfalso.
    assert (2 ^ 52 <= 2 ^ (d - 1)) by (apply Z.pow_le_mono_r; lia). lia. }
  assert (H0 : 0 < d) by (unfold d; lia).
  destruct (Z.leb_spec 0 (d - 53)) as [H|_]; [lia|].
  assert (Hpow : 0 < 2 ^ (53 - d)) by (apply Z.pow_pos_nonneg; lia).
  rewrite Z2Pos.id by nia.
  replace (- (d - 53)) with (53 - d) by lia.
  rewrite Z.shiftr_div_pow2, Z.shiftl_mul_pow2 by lia.
  rewrite Z.div_mul by lia. rewrite Z.eqb_refl. reflexivity.
Qed.

Lemma run_ids st l : ids_are_indices (markets st) -> ids_are_indices (markets (run st l)).
Proof.
  intros Hst i m' Hm'.
  destruct (Forall2_lookup_r _ _ _ _ _ (run_same_market st l) Hm') as (m & Hm & Hid & _).
  rewrite Hid. apply Hst, Hm.
Qed.

(** X17.  Markets being numbered by their index, as [generateMarkets]
    numbers them, looking a market up by the id [n] in the URL answers,
    in every ledger reached by registrations, Buys, Sells and price
    ticks, with the market whose id is [n], which is the market a Buy
    with [marketId: n] trades on; from the number of markets on, and for
    a path without digits, the answer is "Market not found" (404). *)
Theorem market_lookup_agrees_with_trading st0 actions n :
  ids_are_indices (markets st0) ->
  let st := run st0 actions in
  ((N.to_nat n < length (markets st0))%nat -> Z.of_N n < 2 ^ 52 ->
     exists m,
       market_by_id (Some n) st = Ok m
       /\ Market.id m = of_Z (Z.of_N n)
       /\ array_get (markets st) (Number (of_Z (Z.of_N n))) = Some (N.to_nat n, m))
  /\ ((length (markets st0) <= N.to_nat n)%nat ->
     market_by_id (Some n) st = Error "Market not found" 404)
  /\ market_by_id None st = Error "Market not found" 404.
Proof.
  intros Hids. cbv zeta.
  pose proof (Forall2_length _ _ _ (run_same_market st0 actions)) as Hlen.
  split; [|split; [|reflexivity]].
  - intros Hn Hsmall. rewrite Hlen in Hn.
    apply lookup_lt_is_Some in Hn as [m Hm].
    exists m. unfold market_by_id. rewrite Hm. split; [reflexivity|]. split.
    + rewrite (run_ids st0 actions Hids _ _ Hm). unfold of_nat.
      rewrite N_nat_Z. reflexivity.
    + simpl. rewrite to_index_of_Z by lia. simpl.
      rewrite <- N_nat_Z, Nat2Z.id, Hm. reflexivity.
  - intros Hn. rewrite Hlen in Hn. unfold market_by_id.
    rewrite (lookup_ge_None_2 _ _ Hn). reflexivity.
Qed.

Lemma market_lookup_agrees_with_trading_witness :
  (exists m,
     market_by_id (Some 7%N) db4 = Ok m
     /\ Market.id m = 7%float /\ Market.yes m = 39%float
     /\ array_get (markets db4) (Number 7%float) = Some (7%nat, m))
  /\ market_by_id (Some 600%N) db4 = Error "Market not found" 404.
Proof.
  assert (Hids : ids_are_indices (markets db0)).
  { intros i m. change (markets db0) with (sample_market <$> seq 0 600).
    rewrite list_lookup_fmap. intros Hm.
    destruct (seq 0 600 !! i) as [k|] eqn:Hk; [|discriminate].
    apply lookup_seq in Hk as [-> _]. injection Hm as <-. reflexivity. }
  destruct (market_lookup_agrees_with_trading db0 actions4 7%N Hids) as (H1 & _).
  destruct (market_lookup_agrees_with_trading db0 actions4 600%N Hids) as (_ & H2 & _).
  split.
  - destruct H1 as (m & Hm & Hid & Hget); [vm_compute; lia|reflexivity|].
    exists m. split; [exact Hm|]. split; [exact Hid|]. split; [|exact Hget].
    assert (Hm' : market_by_id (Some 7%N) (run db0 actions4)
                  = Ok (Market.mk 7%float (sample_title 0) "crypto" 39%float 61%float
                          250000%float 1500%float 120%float
                          (replicate 29 50%float ++ [39%float]) 1700000002500%float)).
    { vm_compute. reflexivity. }
    rewrite Hm' in Hm. injection Hm as <-. reflexivity.
  - apply H2. vm_compute. lia.
Defined.

(** ** Statistics *)

Lemma length_users_set id u us :
  (length us <= length (users_set id u us) <= S (length us))%nat.
Proof.
  induction us as [|v us IH]; simpl; [lia|].
  case_bool_decide; simpl; lia.
Qed.

Lemma users_set_length_same id u u0 us :
  users_get id us = Some u0 -> length (users_set id u us) = length us.
Proof.
  induction us as [|v us IH]; simpl; [discriminate|].
  case_bool_decide; simpl; [reflexivity|]. intros H'. rewrite IH by exact H'. reflexivity.
Qed.

Lemma step_users_length st a :
  (length (users st) <= length (users (step st a)))%nat
  /\ (match a with Register _ _ => False | _ => True end ->
      length (users (step st a)) = length (users st)).
Proof.
  destruct a as [env body|env req body|req pid|env]; simpl.
  - split; [|intros []]. unfold register.
    repeat match goal with |- context [if ?c then _ else _] => destruct c end;
      simpl; try lia. apply length_users_set.
  - unfold trade. destruct (getUser req st) as [user|] eqn:Hu; [|auto].
    destruct (negb _); [auto|]. destruct (_ || _); [auto|].
    destruct (array_get _ _) as [[i market]|]; [|auto].
    unfold fill. simpl. apply getUser_Some in Hu.
    rewrite (users_set_length_same _ _ _ _ Hu). auto.
  - unfold sell. destruct (getUser req st) as [user|] eqn:Hu; [|auto].
    destruct (findIndex _ _) as [[idx pos]|]; [|auto].
    destruct (array_get _ _) as [[i market]|]; [|auto].
    simpl. apply getUser_Some in Hu.
    rewrite (users_set_length_same _ _ _ _ Hu). auto.
  - auto.
Qed.

Lemma foldl_vol_same ms ms' :
  Forall2 same_activity ms ms' ->
  forall a, foldl (fun a m => (a + Market.vol m)%float) a ms'
            = foldl (fun a m => (a + Market.vol m)%float) a ms.
Proof.
  induction 1 as [|m m' ms ms' [Hv _] _ IH]; intros a; simpl; [reflexivity|].
  rewrite Hv. apply IH.
Qed.

Lemma run_same_activity st l :
  forallb (fun a => negb (is_buy a)) l = true ->
  Forall2 same_activity (markets st) (markets (run st l)).
Proof.
  apply (run_markets_rel same_activity).
  - intros m. split; reflexivity.
  - intros m1 m2 m3 (H1 & H2) (H1' & H2'). split; congruence.
  - intros env req body [=].
  - intros; split; reflexivity.
Qed.

Lemma run_counts st l :
  (length (users st) <= length (users (run st l))
     <= length (users st) + length (filter is_register l))%nat
  /\ (length (trades st) <= length (trades (run st l))
     <= length (trades st) + length (filter is_buy l))%nat.
Proof.
  revert st. induction l as [|a l IH]; intros st; [simpl; lia|].
  change (run st (a :: l)) with (run (step st a) l).
  destruct (IH (step st a)) as [Hu Ht].
  destruct (step_users_length st a) as [Hu1 Hu2].
  assert (Hu3 : (length (users (step st a)) <= S (length (users st)))%nat).
  { destruct a as [env body|env req body|req pid|env]; try (rewrite Hu2 by exact I; lia).
    simpl. unfold register.
    repeat match goal with |- context [if ?c then _ else _] => destruct c end;
      simpl; try lia. apply length_users_set. }
  rewrite !filter_cons.
  destruct (step_trades st a) as [Heq|[Hb (r & Heq)]]; rewrite Heq in Ht.
  - destruct a as [env body|env req body|req pid|env]; simpl in *;
      repeat case_decide; simpl in *; try tauto; try lia.
    all: specialize (Hu2 I); lia.
  - rewrite length_app in Ht. simpl in Ht.
    destruct a as [env body|env req body|req pid|env]; try discriminate.
    specialize (Hu2 I). simpl in *. repeat case_decide; simpl; try tauto; lia.
Qed.

(** X18.  The statistics over a run of the service: the number of
    markets never changes; the number of users never falls and grows by
    at most one per registration; the number of trades never falls and
    grows by at most one per Buy; and a run without a Buy leaves the
    total volume and the number of trades as they were. *)
Theorem statistics_only_count_up st actions :
  let s := stats st in
  let s' := stats (run st actions) in
  Stats.totalMarkets s' = Stats.totalMarkets s
  /\ (Stats.totalUsers s <= Stats.totalUsers s'
        <= Stats.totalUsers s + length (filter is_register actions))%nat
  /\ (Stats.totalTrades s <= Stats.totalTrades s'
        <= Stats.totalTrades s + length (filter is_buy actions))%nat
  /\ (forallb (fun a => negb (is_buy a)) actions = true ->
      Stats.totalVolume s' = Stats.totalVolume s
      /\ Stats.totalTrades s' = Stats.totalTrades s).
Proof.
  cbv zeta. unfold stats. simpl.
  destruct (run_counts st actions) as [Hu Ht].
  split; [symmetry; eapply Forall2_length, run_same_market|].
  split; [exact Hu|]. split; [exact Ht|].
  intros Hnb. split.
  - apply foldl_vol_same, run_same_activity, Hnb.
  - assert (Hf : filter is_buy actions = []).
    { clear -Hnb. induction actions as [|a l IH]; [reflexivity|].
      simpl in Hnb. apply andb_prop in Hnb as [Ha Hl].
      rewrite filter_cons. destruct (is_buy a); [discriminate|].
      rewrite decide_False by (intros []). apply IH, Hl. }
    rewrite Hf in Ht. simpl in Ht. lia.
Qed.

Lemma statistics_only_count_up_witness :
  Stats.totalVolume (stats db3) = Stats.totalVolume (stats db2)
  /\ Stats.totalTrades (stats db3) = 1%nat
  /\ Stats.totalMarkets (stats db3) = 600%nat.
Proof.
  destruct (statistics_only_count_up db2
              [Tick tick_up; Sell as_alice (Str (Position.id position1))])
    as (Hm & _ & _ & H).
  destruct (H eq_refl) as [Hv Ht].
  split; [exact Hv|]. split; [exact Ht|exact Hm].
Defined.

(** ** Numbers: the product of a draw and a bound *)

Lemma shr_fexp_value P E l :
  let d := Zpos (digits2_pos P) in
  let k := Z.max (Z.max (d - 53) (-1074 - E)) 0 in
  shr_m (fst (shr_fexp prec emax (Zpos P) E l)) = Zpos P / 2 ^ k
  /\ snd (shr_fexp prec emax (Zpos P) E l) = E + k.
Proof.
  cbv zeta. unfold shr_fexp, shr. simpl Zdigits2.
  set (d := Zpos (digits2_pos P)).
  assert (Hf : fexp prec emax (d + E) - E = Z.max (d - 53) (-1074 - E)).
  { unfold fexp, SpecFloat.emin, emax, prec. lia. }
  rewrite Hf.
  destruct (Z.max (d - 53) (-1074 - E)) as [|j|j] eqn:Hk; cbn [fst snd].
  - rewrite shr_record_of_loc_m. change (Z.max 0 0) with 0.
    rewrite Z.div_1_r. split; [reflexivity|lia].
  - rewrite iter_shr_1_div by (rewrite shr_record_of_loc_m; lia).
    rewrite shr_record_of_loc_m. rewrite Z.max_l by lia. split; reflexivity.
  - rewrite shr_record_of_loc_m. rewrite Z.max_r by lia.
    rewrite Z.div_1_r. split; [reflexivity|lia].
Qed.

Lemma shr_fexp_zero e l : shr_m (fst (shr_fexp prec emax 0 e l)) = 0.
Proof.
  unfold shr_fexp, shr. simpl Zdigits2.
  destruct (fexp prec emax (0 + e) - e) as [|j|j]; cbn [fst].
  - apply shr_record_of_loc_m.
  - rewrite iter_shr_1_div by (rewrite shr_record_of_loc_m; lia).
    rewrite shr_record_of_loc_m. reflexivity.
  - apply shr_record_of_loc_m.
Qed.

Lemma round_nearest_even_bounds m l :
  m <= round_nearest_even m l <= m + 1.
Proof. destruct l as [|[]]; simpl; try destruct (Z.even m); lia. Qed.

Lemma div_pow2_digits P k :
  Zpos (digits2_pos P) - 53 <= k -> 0 <= k -> Zpos P / 2 ^ k < 2 ^ 53.
Proof.
  intros Hk H0. destruct (digits2_pos_bound P) as [_ Hhi].
  set (d := Zpos (digits2_pos P)) in *.
  assert (Hp : 0 < 2 ^ k) by (apply Z.pow_pos_nonneg; lia).
  apply Z.div_lt_upper_bound; [exact Hp|].
  rewrite <- Z.pow_add_r by lia.
  apply Z.lt_le_trans with (2 ^ d); [exact Hhi|].
  apply Z.pow_le_mono_r; lia.
Qed.

(** The shape of a rounded positive product: the mantissa is the quotient
    [q] by the power of two that leaves 53 digits, or [q + 1]; when
    [q + 1] is 2^53 the exponent moves up by one. *)
Lemma binary_round_aux_shape P E :
  let d := Zpos (digits2_pos P) in
  let k := Z.max (Z.max (d - 53) (-1074 - E)) 0 in
  let q := Zpos P / 2 ^ k in
  E + k + 1 <= 971 ->
  binary_round_aux prec emax false (Zpos P) E loc_Exact = S754_zero false
  \/ exists m' e',
       binary_round_aux prec emax false (Zpos P) E loc_Exact = S754_finite false m' e'
       /\ ((e' = E + k /\ q <= Zpos m' <= q + 1 /\ Zpos m' < 2 ^ 53)
           \/ (e' = E + k + 1 /\ Zpos m' = 2 ^ 52 /\ q + 1 = 2 ^ 53)).
Proof.
  cbv zeta. intros Hmax. unfold binary_round_aux.
  destruct (shr_fexp_value P E loc_Exact) as [Hq He1].
  set (d := Zpos (digits2_pos P)) in *.
  set (k := Z.max (Z.max (d - 53) (-1074 - E)) 0) in *.
  assert (Hk : d - 53 <= k /\ 0 <= k) by (unfold k; lia).
  assert (Hq53 : Zpos P / 2 ^ k < 2 ^ 53).
  { apply div_pow2_digits; fold d; lia. }
  assert (Hq0 : 0 <= Zpos P / 2 ^ k).
  { apply Z.div_pos; [lia|]. apply Z.pow_pos_nonneg; lia. }
  destruct (shr_fexp prec emax (Zpos P) E loc_Exact) as [mrs1 e1]. cbn [fst snd] in Hq, He1.
  pose proof (round_nearest_even_bounds (shr_m mrs1) (loc_of_shr_record mrs1)) as Hr.
  destruct (round_nearest_even (shr_m mrs1) (loc_of_shr_record mrs1)) as [|q'|q'] eqn:Hq';
    rewrite Hq in Hr; [| |lia].
  - left. pose proof (shr_fexp_zero e1 loc_Exact) as Hz.
    destruct (shr_fexp prec emax 0 e1 loc_Exact) as [mrs2 e2]. cbn [fst] in Hz.
    rewrite Hz. reflexivity.
  - right. destruct (shr_fexp_value q' e1 loc_Exact) as [Hq2 He2].
    destruct (shr_fexp prec emax (Zpos q') e1 loc_Exact) as [mrs2 e2].
    cbn [fst snd] in Hq2, He2.
    destruct (digits2_pos_bound q') as [Hlo Hhi].
    set (d' := Zpos (digits2_pos q')) in *.
    assert (H53 : 2 ^ 53 = 9007199254740992) by reflexivity.
    assert (H52 : 2 ^ 52 = 4503599627370496) by reflexivity.
    assert (Hd' : d' <= 54).
    { destruct (Z_le_gt_dec d' 54) as [|Hgt]; [assumption|]. exfalso.
      assert (2 ^ 54 <= 2 ^ (d' - 1)) by (apply Z.pow_le_mono_r; lia).
      assert (2 ^ 54 = 18014398509481984) by reflexivity. lia. }
    assert (He1' : -1074 <= e1) by (unfold k in He1; lia).
    destruct (Z_lt_ge_dec (Zpos q') (2 ^ 53)) as [Hlt|Hge].
    + assert (d' <= 53).
      { destruct (Z_le_gt_dec d' 53) as [|Hgt]; [assumption|]. exfalso.
        assert (2 ^ 53 <= 2 ^ (d' - 1)) by (apply Z.pow_le_mono_r; lia). lia. }
      rewrite Z.max_r in Hq2, He2 by lia. rewrite Z.div_1_r in Hq2.
      rewrite Hq2. assert ((e2 <=? emax - prec) = true) as ->.
      { apply Z.leb_le. unfold emax, prec. lia. }
      exists q', e2. split; [reflexivity|]. left. repeat split; lia.
    + assert (Zpos q' = 2 ^ 53) by lia.
      assert (d' = 54).
      { destruct (Z.eq_dec d' 54) as [|Hne]; [assumption|]. exfalso.
        assert (2 ^ d' <= 2 ^ 53) by (apply Z.pow_le_mono_r; lia). lia. }
      replace (Z.max (Z.max (d' - 53) (-1074 - e1)) 0) with 1 in Hq2, He2 by lia.
      assert (Hm2 : shr_m mrs2 = 2 ^ 52).
      { rewrite Hq2. replace (Zpos q') with (2 ^ 53) by lia. reflexivity. }
      rewrite Hm2, H52. assert ((e2 <=? emax - prec) = true) as ->.
      { apply Z.leb_le. unfold emax, prec. lia. }
      eexists _, e2. split; [reflexivity|]. right. repeat split; lia.
Qed.

Lemma digits2_pos_le p k : Zpos p < 2 ^ k -> 0 <= k -> Zpos (digits2_pos p) <= k.
Proof.
  intros Hp Hk. destruct (digits2_pos_bound p) as [Hlo _].
  destruct (Z_le_gt_dec (Zpos (digits2_pos p)) k) as [|Hgt]; [assumption|]. exfalso.
  assert (2 ^ k <= 2 ^ (Zpos (digits2_pos p) - 1)) by (apply Z.pow_le_mono_r; lia).
  lia.
Qed.

(** A number below 1 times a bound [B = M * 2^EB] is below [B], once this
    has been checked of the largest number below 1. *)
Lemma SFmul_below M EB m e :
  2 ^ 52 < Zpos M < 2 ^ 53 -> -52 <= EB <= 900 ->
  valid_binary (S754_finite false m e) = true -> e <= -53 ->
  below M EB (SFmul prec emax pred_one (S754_finite false M EB)) = true ->
  below M EB (SFmul prec emax (S754_finite false m e) (S754_finite false M EB)) = true.
Proof.
  intros HM HEB Hv He Htop.
  destruct (valid_finite _ _ _ Hv) as (He0 & Hm & _).
  assert (H53 : 2 ^ 53 = 9007199254740992) by reflexivity.
  assert (H52 : 2 ^ 52 = 4503599627370496) by reflexivity.
  destruct (Z.eq_dec (Zpos m) 9007199254740991) as [Hmtop|Hmtop].
  - destruct (Z.eq_dec e (-53)) as [Hetop|Hetop].
    + injection Hmtop as ->. subst e. exact Htop.
    + cbv beta iota delta [SFmul]. cbn [xorb].
      set (P := (m * M)%positive).
      assert (HP : Zpos P = Zpos m * Zpos M) by reflexivity.
      assert (HP106 : Zpos P < 2 ^ 106)
        by (assert (2 ^ 106 = 2 ^ 53 * 2 ^ 53) as -> by reflexivity; nia).
      pose proof (digits2_pos_le P 106 HP106 ltac:(lia)) as Hd.
      pose proof (binary_round_aux_shape P (e + EB)) as Hshape. cbv zeta in Hshape.
      set (d := Zpos (digits2_pos P)) in *.
      set (k := Z.max (Z.max (d - 53) (-1074 - (e + EB))) 0) in *.
      assert (Hk : e + EB + k < EB) by (unfold k; lia).
      destruct Hshape as [->|(m' & e' & -> & [(-> & _ & _)|(-> & Hm' & _)])];
        [lia|reflexivity| |]; unfold below.
      * rewrite (proj2 (Z.ltb_lt _ _)) by lia. reflexivity.
      * destruct (Z.ltb_spec (e + EB + k + 1) EB) as [|Hge]; [reflexivity|].
        rewrite (proj2 (Z.eqb_eq _ _)) by lia.
        rewrite (proj2 (Z.ltb_lt _ _)) by lia. reflexivity.
  - cbv beta iota delta [SFmul]. cbn [xorb].
    set (P := (m * M)%positive).
    assert (HP : Zpos P = Zpos m * Zpos M) by reflexivity.
    assert (HP106 : Zpos P < 2 ^ 106)
      by (assert (2 ^ 106 = 2 ^ 53 * 2 ^ 53) as -> by reflexivity; nia).
    pose proof (digits2_pos_le P 106 HP106 ltac:(lia)) as Hd.
    pose proof (binary_round_aux_shape P (e + EB)) as Hshape. cbv zeta in Hshape.
    set (d := Zpos (digits2_pos P)) in *.
    set (k := Z.max (Z.max (d - 53) (-1074 - (e + EB))) 0) in *.
    assert (Hk : e + EB + k < EB \/ (e + EB + k = EB /\ k = 53)) by (unfold k; lia).
    destruct Hshape as [->|(m' & e' & -> & [(-> & Hq & _)|(-> & Hm' & Hq)])];
      [lia|reflexivity| |]; unfold below.
    + destruct Hk as [Hk|[Hk Hk53]].
      * rewrite (proj2 (Z.ltb_lt _ _)) by lia. reflexivity.
      * rewrite Hk53 in Hq.
        assert (Hqb : Zpos P / 2 ^ 53 < Zpos M - 1).
        { apply Z.div_lt_upper_bound; [lia|]. nia. }
        rewrite Hk, Z.ltb_irrefl, Z.eqb_refl.
        rewrite (proj2 (Z.ltb_lt _ _)) by lia. reflexivity.
    + destruct Hk as [Hk|[Hk Hk53]].
      * destruct (Z.ltb_spec (e + EB + k + 1) EB) as [|Hge]; [reflexivity|].
        rewrite (proj2 (Z.eqb_eq _ _)) by lia.
        rewrite (proj2 (Z.ltb_lt _ _)) by lia. reflexivity.
      * exfalso. rewrite Hk53 in Hq.
        assert (Hqb : Zpos P / 2 ^ 53 < Zpos M - 1).
        { apply Z.div_lt_upper_bound; [lia|]. nia. }
        lia.
Qed.

(** A draw from [0, 1) is a zero or a positive number with exponent at
    most -53. *)
Lemma draw_shape r :
  le 0%float r = true -> lt r 1%float = true ->
  (exists s, Prim2SF r = S754_zero s)
  \/ exists m e, Prim2SF r = S754_finite false m e /\ e <= -53.
Proof.
  pose proof (Prim2SF_valid r) as Hv. unfold le, lt.
  rewrite FloatAxioms.leb_spec, FloatAxioms.ltb_spec, Prim2SF_1.
  change (Prim2SF 0) with (S754_zero false). unfold SFleb, SFltb.
  destruct (Prim2SF r) as [s|[]| |[] m e]; cbv beta iota delta [SFcompare];
    try discriminate.
  - intros _ _. left. eauto.
  - intros _ Hlt. right. exists m, e. split; [reflexivity|].
    destruct (valid_finite _ _ _ Hv) as (He0 & Hm & Hn).
    assert (H52 : 2 ^ 52 = 4503599627370496) by reflexivity.
    destruct (Z.compare_spec e (-52)) as [He|He|He]; [|lia|discriminate].
    subst e. specialize (Hn ltac:(lia)).
    assert (Hc : (Zpos m ?= 4503599627370496) = Lt).
    { change ((m ?= 4503599627370496)%positive = Lt). unfold Pos.compare.
      destruct (Pos.compare_cont Eq m 4503599627370496); try discriminate; reflexivity. }
    rewrite Z.compare_lt_iff in Hc. clear Hlt Hv. lia.
Qed.

Lemma draw_below r B M EB :
  Prim2SF B = S754_finite false M EB ->
  2 ^ 52 < Zpos M < 2 ^ 53 -> -52 <= EB <= 900 ->
  below M EB (SFmul prec emax pred_one (S754_finite false M EB)) = true ->
  le 0%float r = true -> lt r 1%float = true ->
  below M EB (Prim2SF (r * B)%float) = true.
Proof.
  intros HB HM HEB Htop Hr0 Hr1.
  rewrite FloatAxioms.mul_spec, HB. unfold SF64mul.
  pose proof (Prim2SF_valid r) as Hv.
  destruct (draw_shape r Hr0 Hr1) as [[s Hr]|(m & e & Hr & He)]; rewrite Hr in *.
  - reflexivity.
  - apply SFmul_below; assumption.
Qed.

(** [Math.floor] of a zero or a positive number below the integer [K] is
    -0 or an integer from 0 to [K - 1]. *)
Lemma floor_below x M EB K :
  below M EB (Prim2SF x) = true -> EB < 0 ->
  2 ^ 52 < Zpos M -> Zpos M = K * 2 ^ (- EB) ->
  Math_floor x = neg_zero \/ exists k, 0 <= k < K /\ Math_floor x = of_Z k.
Proof.
  intros Hb HEB HM HK. unfold Math_floor.
  pose proof (Prim2SF_valid x) as Hv. pose proof (SF2Prim_Prim2SF x) as Hx.
  destruct (Prim2SF x) as [[]|[]| |[] m e]; try discriminate.
  - left. rewrite <- Hx. reflexivity.
  - right. exists 0. split; [|rewrite <- Hx; reflexivity].
    assert (0 < 2 ^ (- EB)) by (apply Z.pow_pos_nonneg; lia). nia.
  - right. destruct (valid_finite _ _ _ Hv) as (_ & Hm & _).
    assert (H53 : 2 ^ 53 = 2 * 2 ^ 52) by reflexivity.
    unfold below in Hb.
    assert (He : e <= EB).
    { destruct (Z.ltb_spec e EB); [lia|]. destruct (Z.eqb_spec e EB); [lia|discriminate]. }
    destruct (Z.leb_spec 0 e) as [|_]; [lia|].
    exists (Z.shiftr (Zpos m) (- e)). split; [|reflexivity].
    rewrite Z.shiftr_div_pow2 by lia.
    assert (Hp : 0 < 2 ^ (- e)) by (apply Z.pow_pos_nonneg; lia).
    split; [apply Z.div_pos; lia|].
    apply Z.div_lt_upper_bound; [exact Hp|].
    destruct (Z.eq_dec e EB) as [->|Hne].
    + rewrite Z.ltb_irrefl, Z.eqb_refl in Hb. simpl in Hb.
      apply Z.ltb_lt in Hb. lia.
    + replace (- e) with (- EB + (EB - e)) by lia.
      rewrite Z.pow_add_r by lia.
      pose proof (pow2_ge_2 (EB - e) ltac:(lia)) as H2.
      assert (0 < 2 ^ (- EB)) by (apply Z.pow_pos_nonneg; lia).
      nia.
Qed.

(** ** Market generation *)

Lemma Prim2SF_5 : Prim2SF 5 = S754_finite false 5629499534213120 (-50).
Proof. reflexivity. Qed.
Lemma Prim2SF_80 : Prim2SF 80 = S754_finite false 5629499534213120 (-46).
Proof. reflexivity. Qed.

(** [Math.floor(Math.random() * 5)] is -0 or an integer from 0 to 4, and
    [Math.floor(Math.random() * 80)] is -0 or an integer from 0 to 79. *)
Lemma floor_draw_5 r :
  le 0%float r = true -> lt r 1%float = true ->
  Math_floor (r * 5)%float = neg_zero
  \/ exists k, 0 <= k < 5 /\ Math_floor (r * 5)%float = of_Z k.
Proof.
  intros H0 H1.
  apply (floor_below _ 5629499534213120 (-50) 5); try reflexivity.
  apply draw_below; try assumption; try reflexivity.
  - split; reflexivity.
  - lia.
Qed.

Lemma floor_draw_80 r :
  le 0%float r = true -> lt r 1%float = true ->
  Math_floor (r * 80)%float = neg_zero
  \/ exists k, 0 <= k < 80 /\ Math_floor (r * 80)%float = of_Z k.
Proof.
  intros H0 H1.
  apply (floor_below _ 5629499534213120 (-46) 80); try reflexivity.
  apply draw_below; try assumption; try reflexivity.
  - split; reflexivity.
  - lia.
Qed.

Lemma yes_ok_all k : 0 <= k < 80 -> yes_ok k = true.
Proof.
  intros Hk.
  assert (H : forallb yes_ok (seqZ 0 80) = true) by (vm_compute; reflexivity).
  rewrite forallb_forall in H. apply H.
  apply list_elem_of_In, elem_of_seqZ. lia.
Qed.

(** The YES price of a new market is an integer from 10 to 89. *)
Lemma yes_draw r :
  le 0%float r = true -> lt r 1%float = true ->
  exists n, 10 <= n <= 89 /\ (Math_floor (r * 80) + 10)%float = of_Z n.
Proof.
  intros H0 H1. destruct (floor_draw_80 r H0 H1) as [->|(k & Hk & ->)].
  - exists 10. split; [lia|reflexivity].
  - exists (k + 10). split; [lia|].
    apply FloatAxioms.Leibniz.eqb_spec. apply (yes_ok_all k Hk).
Qed.

(** The template of a new market is always found. *)
Lemma template_draw {A} (l : list A) r :
  length l = 5%nat ->
  le 0%float r = true -> lt r 1%float = true ->
  is_Some (array_get l (Number (Math_floor (r * of_nat (length l))%float))).
Proof.
  intros Hl H0 H1. rewrite Hl. change (of_nat 5) with 5%float.
  destruct (floor_draw_5 r H0 H1) as [->|(k & Hk & ->)]; cbn [array_get].
  - change (to_index neg_zero) with (Some 0%nat).
    destruct l as [|x l]; [discriminate|]. simpl. eauto.
  - rewrite to_index_of_Z by lia. cbn [mbind option_bind].
    destruct (lookup_lt_is_Some_2 l (Z.to_nat k)) as [x Hx]; [lia|].
    rewrite Hx. simpl. eauto.
Qed.

Lemma TITLES_length cat : cat ∈ categories -> length (TITLES cat) = 5%nat.
Proof.
  unfold categories. rewrite !elem_of_cons, elem_of_nil.
  intros [->|[->|[->|[->|[->|[->|[]]]]]]]; reflexivity.
Qed.

Lemma market_of_ok toString env cat id :
  fair_gen env -> cat ∈ categories ->
  exists m,
    market_of toString env cat id = Some m
    /\ Market.id m = of_nat id /\ Market.cat m = cat
    /\ freshly_quoted m /\ length (Market.history m) = 30%nat.
Proof.
  intros Henv Hcat. unfold market_of. cbv zeta.
  destruct (Henv (36 * id + 0)%nat) as [H0 H1].
  destruct (template_draw (TITLES cat) _ (TITLES_length cat Hcat) H0 H1) as [it ->].
  cbn [mbind option_bind].
  eexists. split; [reflexivity|]. cbn [Market.id Market.cat Market.yes Market.no Market.history].
  split; [reflexivity|]. split; [reflexivity|]. split.
  - destruct (Henv (36 * id + 2)%nat) as [H2 H3].
    destruct (yes_draw _ H2 H3) as (n & Hn & ->). exists n. auto.
  - rewrite length_fmap, length_seq. reflexivity.
Qed.

Lemma generate_category_ok toString env cat id :
  fair_gen env -> cat ∈ categories ->
  exists ms,
    generate_category toString env cat id = Some ms
    /\ length ms = 100%nat
    /\ forall i m, ms !! i = Some m -> market_of toString env cat (id + i) = Some m.
Proof.
  intros Henv Hcat. unfold generate_category.
  destruct (mapM (fun i => market_of toString env cat (id + i)) (seq 0 100)) as [ms|] eqn:Hm.
  - exists ms. split; [reflexivity|]. apply mapM_Some in Hm.
    split; [rewrite <- (Forall2_length _ _ _ Hm); apply length_seq|].
    intros i m Hi. destruct (Forall2_lookup_r _ _ _ _ _ Hm Hi) as (x & Hx & Hmx).
    apply lookup_seq in Hx as [-> _]. exact Hmx.
  - exfalso. apply mapM_None in Hm. apply Exists_exists in Hm as (i & _ & Hi).
    destruct (market_of_ok toString env cat (id + i) Henv Hcat) as (m & Hm & _).
    rewrite Hm in Hi. discriminate.
Qed.

Lemma generate_fold toString env cs :
  fair_gen env -> (forall c, c ∈ cs -> c ∈ categories) ->
  exists ms,
    foldl (fun acc cat =>
             st ← acc;
             new ← generate_category toString env cat (fst st);
             Some ((fst st + length new)%nat, snd st ++ new))
          (Some (0%nat, [])) cs = Some (length ms, ms)
    /\ length ms = (100 * length cs)%nat
    /\ forall i m, ms !! i = Some m ->
         exists c, cs !! (i / 100)%nat = Some c /\ market_of toString env c i = Some m.
Proof.
  intros Henv. induction cs as [|c cs IH] using rev_ind; intros Hcs.
  - exists []. split; [reflexivity|]. split; [reflexivity|]. intros i m [=].
  - destruct IH as (ms & Hfold & Hlen & Hms).
    { intros c' Hc'. apply Hcs, elem_of_app. auto. }
    destruct (generate_category_ok toString env c (length ms) Henv) as (new & Hnew & Hl & Hn).
    { apply Hcs, elem_of_app. right. apply list_elem_of_singleton. reflexivity. }
    exists (ms ++ new). rewrite foldl_snoc, Hfold. cbn [mbind option_bind fst snd].
    rewrite Hnew. cbn [mbind option_bind]. rewrite length_app.
    split; [reflexivity|]. split; [rewrite length_app; simpl; lia|].
    intros i m Hi. apply lookup_app_Some in Hi as [Hi|[Hge Hi]].
    + destruct (Hms i m Hi) as (c' & Hc' & Hm). exists c'. split; [|exact Hm].
      apply lookup_app_l_Some. exact Hc'.
    + pose proof (lookup_lt_Some _ _ _ Hi) as Hlt.
      exists c. split.
      * assert (Hq : (i / 100 = length cs)%nat).
        { symmetry. apply (Nat.div_unique i 100 (length cs) (i - length ms)); lia. }
        rewrite Hq, lookup_app_r, Nat.sub_diag by lia. reflexivity.
      * specialize (Hn _ _ Hi). replace (length ms + (i - length ms))%nat with i in Hn by lia.
        exact Hn.
Qed.

(** X19.  The draws of [Math.random()] lying in [0, 1), [generateMarkets]
    does not throw and fills the empty market array with 600 markets, 100
    for each category in the order of [CATEGORIES]; the market at index
    [i] has id [i], an integer YES price from 10 to 89 with the NO price
    its complement to 100, and a history of 30 entries.  The ledger the
    server starts with is therefore solvent and every market in it is
    priced within [1, 99]. *)
Theorem generated_markets_are_well_formed toString env :
  fair_gen env ->
  exists ms,
    generateMarkets toString env = Some ms
    /\ length ms = 600%nat
    /\ ids_are_indices ms
    /\ (forall i m, ms !! i = Some m ->
          categories !! (i / 100)%nat = Some (Market.cat m)
          /\ freshly_quoted m
          /\ length (Market.history m) = 30%nat)
    /\ solvent (mkDb [] ms [] ∅)
    /\ Forall price_in_range ms.
Proof.
  intros Henv.
  destruct (generate_fold toString env categories Henv (fun c H => H)) as (ms & Hfold & Hlen & Hms).
  assert (Hall : forall i m, ms !! i = Some m ->
            Market.id m = of_nat i
            /\ categories !! (i / 100)%nat = Some (Market.cat m)
            /\ freshly_quoted m /\ length (Market.history m) = 30%nat).
  { intros i m Hi. destruct (Hms i m Hi) as (c & Hc & Hm).
    destruct (market_of_ok toString env c i Henv) as (m' & Hm' & Hid & Hcat & Hq & Hh).
    { eapply list_elem_of_lookup_2, Hc. }
    rewrite Hm in Hm'. injection Hm' as <-. rewrite Hcat. auto. }
  assert (Hquoted : Forall quoted ms).
  { apply Forall_lookup. intros i m Hi. destruct (Hall i m Hi) as (_ & _ & (n & Hn & Hy & Hno) & _).
    exists n. split; [lia|]. auto. }
  exists ms. unfold generateMarkets. rewrite Hfold.
  split; [reflexivity|]. split; [exact Hlen|]. split; [|split; [|split]].
  - intros i m Hi. apply (Hall i m Hi).
  - intros i m Hi. destruct (Hall i m Hi) as (_ & H2 & H3 & H4). auto.
  - split; [apply Forall_nil_2|]. split; [|exact Hquoted].
    intros id ps p H. simpl in H. rewrite lookup_empty in H. discriminate.
  - eapply Forall_impl; [exact Hquoted|]. apply quoted_in_range.
Qed.

Lemma generated_markets_are_well_formed_witness :
  exists ms,
    generateMarkets (fun _ => "437") gen_env0 = Some ms
    /\ length ms = 600%nat
    /\ ms !! 0%nat
       = Some (Market.mk 0%float "Will Ethereum reach $437K by 2025?" "crypto"
                 40%float 60%float 1975000%float 3850%float 142%float
                 (replicate 30 42%float) 1700000000000%float)
    /\ Forall price_in_range ms.
Proof.
  destruct (generated_markets_are_well_formed (fun _ => "437") gen_env0)
    as (ms & Hg & Hl & _ & _ & _ & Hr).
  { intros k. split; reflexivity. }
  exists ms. split; [exact Hg|]. split; [exact Hl|]. split; [|exact Hr].
  assert (H0 : generateMarkets (fun _ => "437") gen_env0 ≫= (fun l => l !! 0%nat)
               = Some (Market.mk 0%float "Will Ethereum reach $437K by 2025?" "crypto"
                         40%float 60%float 1975000%float 3850%float 142%float
                         (replicate 30 42%float) 1700000000000%float)).
  { vm_compute. reflexivity. }
  rewrite Hg in H0. exact H0.
Defined.

(** ** Numbers: sums of integers are exact *)

Lemma shr_1_exact mrs z :
  shr_r mrs = false -> shr_s mrs = false -> 0 <= z -> shr_m mrs = 2 * z ->
  shr_m (shr_1 mrs) = z /\ shr_r (shr_1 mrs) = false /\ shr_s (shr_1 mrs) = false.
Proof.
  destruct mrs as [m r s]. cbn [shr_m shr_r shr_s]. intros -> -> Hz ->.
  destruct z as [|q|q]; [| |lia]; repeat split; reflexivity.
Qed.

Lemma iter_shr_1_exact p : forall mrs z,
  shr_r mrs = false -> shr_s mrs = false -> 0 <= z -> shr_m mrs = z * 2 ^ Zpos p ->
  shr_m (SpecFloat.iter_pos shr_1 p mrs) = z
  /\ shr_r (SpecFloat.iter_pos shr_1 p mrs) = false
  /\ shr_s (SpecFloat.iter_pos shr_1 p mrs) = false.
Proof.
  induction p as [p IH|p IH|]; simpl SpecFloat.iter_pos; intros mrs z Hr Hs Hz Hm.
  - assert (Hp : 0 < 2 ^ Zpos p) by (apply Z.pow_pos_nonneg; lia).
    destruct (shr_1_exact mrs (z * 2 ^ Zpos p * 2 ^ Zpos p) Hr Hs ltac:(nia)) as (H1 & H2 & H3).
    { rewrite Hm, (Pos2Z.inj_xI p).
      replace (2 * Zpos p + 1) with (1 + Zpos p + Zpos p) by lia.
      rewrite !Z.pow_add_r by lia. change (2 ^ 1) with 2. lia. }
    destruct (IH _ (z * 2 ^ Zpos p) H2 H3 ltac:(nia) H1) as (H4 & H5 & H6).
    apply IH; assumption.
  - assert (Hp : 0 < 2 ^ Zpos p) by (apply Z.pow_pos_nonneg; lia).
    destruct (IH mrs (z * 2 ^ Zpos p) Hr Hs ltac:(nia)) as (H4 & H5 & H6).
    { rewrite Hm, (Pos2Z.inj_xO p).
      replace (2 * Zpos p) with (Zpos p + Zpos p) by lia.
      rewrite !Z.pow_add_r by lia. lia. }
    apply IH; assumption.
  - apply shr_1_exact; try assumption. rewrite Hm. change (2 ^ 1) with 2. lia.
Qed.

(** Normalising [c * 2^k] at exponent [-k] gives the number [c]. *)
Lemma binary_normalize_exact c k :
  Zpos c < 2 ^ 53 -> 0 <= k <= 60 ->
  binary_normalize prec emax (Zpos c * 2 ^ k) (- k) false = SF_of_pos c.
Proof.
  intros Hc Hk. destruct k as [|kp|kp]; [|clear Hk|lia].
  { rewrite Z.mul_1_r. apply binary_normalize_pos, digits2_pos_le_53, Hc. }
  pose proof (digits2_pos_le_53 c Hc) as Hd.
  rewrite <- iter_xO_mul. unfold binary_normalize, binary_round, SF_of_pos.
  rewrite digits2_pos_iter. rewrite Pos2Z.inj_add.
  set (d := Zpos (digits2_pos c)) in *.
  assert (Hd0 : 0 < d) by (unfold d; lia).
  assert (Hf : fexp prec emax (d + Zpos kp + - Zpos kp) = d - 53).
  { unfold fexp, SpecFloat.emin, emax, prec. lia. }
  rewrite Hf. unfold shl_align.
  destruct (d - 53 - - Zpos kp) as [|j|j] eqn:Hj.
  - rewrite binary_round_aux_exact.
    + f_equal; [|lia]. apply Pos2Z.inj. rewrite iter_xO_mul.
      rewrite Z2Pos.id by (apply Z.mul_pos_pos; [lia|apply Z.pow_pos_nonneg; lia]).
      f_equal. f_equal. lia.
    + unfold canonical_mantissa. rewrite digits2_pos_iter, Pos2Z.inj_add. fold d.
      apply Z.eqb_eq. unfold fexp, SpecFloat.emin, emax, prec. lia.
    + unfold emax, prec. lia.
  - unfold binary_round_aux, shr_fexp. simpl Zdigits2.
    rewrite digits2_pos_iter, Pos2Z.inj_add. fold d. rewrite Hf.
    replace (d - 53 - - Zpos kp) with (Zpos j) by lia. cbn [shr].
    assert (Hp : 0 < 2 ^ (53 - d)) by (apply Z.pow_pos_nonneg; lia).
    destruct (iter_shr_1_exact j (shr_record_of_loc (Zpos (Pos.iter xO c kp)) loc_Exact)
                (Zpos c * 2 ^ (53 - d))) as (H1 & H2 & H3);
      [reflexivity|reflexivity|nia| |].
    { cbn [shr_record_of_loc shr_m]. rewrite iter_xO_mul.
      rewrite <- Z.mul_assoc, <- Z.pow_add_r by lia. f_equal. f_equal. lia. }
    destruct (SpecFloat.iter_pos shr_1 j _) as [m1 r1 s1]. cbn [shr_m shr_r shr_s] in H1, H2, H3.
    subst m1 r1 s1. cbn [loc_of_shr_record shr_m round_nearest_even].
    assert (Hpos : 0 < Zpos c * 2 ^ (53 - d)) by nia.
    destruct (Zpos c * 2 ^ (53 - d)) as [|q|q] eqn:Hq; [lia| |lia].
    assert (Hdq : Zpos (digits2_pos q) = 53).
    { destruct (digits2_pos_bound q) as [Hlo Hhi].
      destruct (digits2_pos_bound c) as [Hclo Hchi]. fold d in Hclo, Hchi.
      assert (H53 : 2 ^ 53 = 2 ^ d * 2 ^ (53 - d))
        by (rewrite <- Z.pow_add_r by lia; f_equal; lia).
      assert (H52 : 2 ^ 52 = 2 ^ (d - 1) * 2 ^ (53 - d))
        by (rewrite <- Z.pow_add_r by lia; f_equal; lia).
      assert (Hq1 : 2 ^ 52 <= Zpos q) by (rewrite H52; nia).
      assert (Hq2 : Zpos q < 2 ^ 53) by (rewrite H53; nia).
      set (dq := Zpos (digits2_pos q)) in *.
      assert (0 < dq) by (unfold dq; lia).
      destruct (Z_lt_le_dec dq 53) as [Hlt|Hge].
      - exfalso. assert (2 ^ dq <= 2 ^ 52) by (apply Z.pow_le_mono_r; lia). lia.
      - destruct (Z_le_gt_dec dq 53) as [|Hgt]; [lia|]. exfalso.
        assert (2 ^ 53 <= 2 ^ (dq - 1)) by (apply Z.pow_le_mono_r; lia). lia. }
    simpl Zdigits2. rewrite Hdq.
    assert (Hf2 : fexp prec emax (53 + (- Zpos kp + Zpos j)) - (- Zpos kp + Zpos j) = 0).
    { unfold fexp, SpecFloat.emin, emax, prec. lia. }
    rewrite Hf2. cbn [shr shr_record_of_loc shr_m].
    assert ((- Zpos kp + Zpos j <=? emax - prec) = true) as ->.
    { apply Z.leb_le. unfold emax, prec. lia. }
    f_equal. lia.
  - replace (shift_pos j (Pos.iter xO c kp)) with (Pos.iter xO (Pos.iter xO c kp) j)
      by reflexivity.
    rewrite binary_round_aux_exact.
    + f_equal. apply Pos2Z.inj. rewrite !iter_xO_mul.
      rewrite Z2Pos.id by (apply Z.mul_pos_pos; [lia|apply Z.pow_pos_nonneg; lia]).
      rewrite <- Z.mul_assoc, <- Z.pow_add_r by lia. f_equal. f_equal. lia.
    + unfold canonical_mantissa. rewrite !digits2_pos_iter, !Pos2Z.inj_add. fold d.
      apply Z.eqb_eq. unfold fexp, SpecFloat.emin, emax, prec. lia.
    + unfold emax, prec. lia.
Qed.

(** The sum of two integers is computed exactly, below 2^53. *)
Lemma of_Z_add a b :
  0 <= a -> 0 <= b -> a + b < 2 ^ 53 -> (of_Z a + of_Z b)%float = of_Z (a + b).
Proof.
  intros Ha Hb Hab. apply Prim2SF_inj. rewrite FloatAxioms.add_spec. unfold SF64add.
  destruct a as [|p|p]; [|destruct b as [|q|q]|]; try lia.
  - change (Prim2SF (of_Z 0)) with (S754_zero false). rewrite Z.add_0_l.
    destruct b as [|q|q]; [reflexivity| |lia].
    rewrite (Prim2SF_of_Z q) by lia. reflexivity.
  - change (Prim2SF (of_Z 0)) with (S754_zero false). rewrite Z.add_0_r.
    rewrite (Prim2SF_of_Z p) by lia. reflexivity.
  - rewrite (Prim2SF_of_Z p), (Prim2SF_of_Z q) by lia.
    change (Zpos p + Zpos q) with (Zpos (p + q)).
    rewrite (Prim2SF_of_Z (p + q)) by (rewrite Pos2Z.inj_add; lia).
    pose proof (digits2_pos_le_53 p ltac:(lia)) as Hdp.
    pose proof (digits2_pos_le_53 q ltac:(lia)) as Hdq.
    unfold SF_of_pos at 1 2.
    set (dp := Zpos (digits2_pos p)) in *. set (dq := Zpos (digits2_pos q)) in *.
    assert (Hdp0 : 0 < dp) by (unfold dp; lia).
    assert (Hdq0 : 0 < dq) by (unfold dq; lia).
    assert (Hpp : 0 < 2 ^ (53 - dp)) by (apply Z.pow_pos_nonneg; lia).
    assert (Hpq : 0 < 2 ^ (53 - dq)) by (apply Z.pow_pos_nonneg; lia).
    cbv beta iota delta [SFadd]. cbv zeta.
    set (ez := Z.min (dp - 53) (dq - 53)).
    rewrite !shl_align_value by (unfold ez; lia).
    cbn [cond_Zopp]. rewrite !Z2Pos.id by nia.
    rewrite <- !Z.mul_assoc, <- !Z.pow_add_r by (unfold ez; lia).
    replace (53 - dp + (dp - 53 - ez)) with (- ez) by lia.
    replace (53 - dq + (dq - 53 - ez)) with (- ez) by lia.
    rewrite <- Z.mul_add_distr_r.
    change (Zpos p + Zpos q) with (Zpos (p + q)).
    replace ez with (- - ez) at 2 by lia.
    apply binary_normalize_exact; [rewrite Pos2Z.inj_add; lia|unfold ez; lia].
Qed.

(** ** Listing markets *)

Lemma slice_index_of_Z len n :
  0 <= n < 2 ^ 53 -> slice_index len (of_Z n) = Z.to_nat (Z.min n (Z.of_nat len)).
Proof.
  intros Hn. destruct n as [|p|p]; [| |lia].
  { unfold slice_index. change (Prim2SF (of_Z 0)) with (S754_zero false).
    rewrite Z.min_l by lia. reflexivity. }
  assert (Hp : Zpos p < 2 ^ 53) by lia.
  unfold slice_index. rewrite (Prim2SF_of_Z _ Hp). unfold SF_of_pos.
  pose proof (digits2_pos_le_53 p Hp) as Hd.
  set (d := Zpos (digits2_pos p)) in *.
  assert (H0 : 0 < d) by (unfold d; lia).
  assert (Hpow : 0 < 2 ^ (53 - d)) by (apply Z.pow_pos_nonneg; lia).
  cbn [andb]. f_equal. f_equal. unfold truncate. rewrite Z2Pos.id by nia.
  destruct (Z.leb_spec 0 (d - 53)) as [H|H].
  - replace (d - 53) with 0 by lia. replace (53 - d) with 0 by lia.
    change (2 ^ 0) with 1. lia.
  - replace (- (d - 53)) with (53 - d) by lia.
    rewrite Z.shiftr_div_pow2 by lia. apply Z.div_mul. lia.
Qed.

Lemma take_min_length {A} (l : list A) n : take (n `min` length l)%nat l = take n l.
Proof.
  destruct (Nat.le_ge_cases n (length l)) as [H|H].
  - rewrite Nat.min_l by exact H. reflexivity.
  - rewrite Nat.min_r by exact H. rewrite !take_ge by lia. reflexivity.
Qed.

(** Slicing from a natural offset for a natural count. *)
Lemma slice_page {A} (arr : list A) (o l : nat) :
  Z.of_nat o + Z.of_nat l < 2 ^ 53 ->
  slice arr (of_nat o) (of_nat o + of_nat l)%float = take l (drop o arr).
Proof.
  intros Hol. unfold slice, of_nat.
  rewrite of_Z_add by lia. rewrite !slice_index_of_Z by lia.
  destruct (Nat.le_ge_cases o (length arr)) as [H|H].
  - rewrite (Z.min_l (Z.of_nat o)) by lia. rewrite Nat2Z.id.
    replace (Z.to_nat (Z.min (Z.of_nat o + Z.of_nat l) (Z.of_nat (length arr))) - o)%nat
      with (l `min` length (drop o arr))%nat by (rewrite length_drop; lia).
    apply take_min_length.
  - rewrite !Z.min_r by lia. rewrite Nat2Z.id, Nat.sub_diag.
    rewrite !drop_ge by lia. destruct l; reflexivity.
Qed.

Lemma take_add_drop {A} (l : list A) n m :
  take (n + m) l = take n l ++ take m (drop n l).
Proof.
  revert l. induction n as [|n IH]; intros [|x l]; simpl; try reflexivity.
  - destruct m; reflexivity.
  - rewrite IH. reflexivity.
Qed.

(** X20.  [GET /api/markets] pages through the markets that pass the
    filters: for a natural [offset] and [limit] the answer holds the
    number of all markets passing the filters, whatever the page, and as
    its page the [limit] markets that follow the first [offset] of them
    (fewer at the end of the list), in the order of [db.markets]; a page
    and the page that starts where it ends make up the page of both
    lengths; and with a category other than the empty string and ["all"]
    every market listed is of that category. *)
Theorem listing_pages_through_the_matches toLowerCase cat q (o l l' : nat) st :
  Z.of_nat o + Z.of_nat l + Z.of_nat l' < 2 ^ 53 ->
  let found := matching toLowerCase cat (toLowerCase <$> q) (markets st) in
  let page o l := list_markets toLowerCase cat q (of_nat l) (of_nat o) st in
  Listing.total (page o l) = length found
  /\ Listing.markets (page o l) = summary <$> take l (drop o found)
  /\ (length (Listing.markets (page o l)) <= l)%nat
  /\ Listing.markets (page o l) ++ Listing.markets (page (o + l)%nat l')
     = Listing.markets (page o (l + l')%nat)
  /\ (forall c s, cat = Some c -> c <> "" -> c <> "all" ->
        s ∈ Listing.markets (page o l) -> Summary.cat s = c).
Proof.
  intros Hol. cbv zeta. unfold list_markets. cbn [Listing.total Listing.markets].
  set (found := matching toLowerCase cat (toLowerCase <$> q) (markets st)).
  rewrite !slice_page by lia.
  split; [reflexivity|]. split; [reflexivity|]. split; [|split].
  - rewrite length_fmap, length_take. lia.
  - rewrite <- fmap_app. f_equal. rewrite take_add_drop, drop_drop. reflexivity.
  - intros c s -> Hc1 Hc2 Hs.
    apply list_elem_of_fmap in Hs as (m & -> & Hm). simpl.
    apply (elem_of_sublist _ found) in Hm;
      [|etransitivity; [apply sublist_take|apply sublist_drop]].
    unfold found in Hm. clear found.
    unfold matching in Hm.
    rewrite !bool_decide_eq_false_2 in Hm by assumption. cbn [orb] in Hm.
    destruct (toLowerCase <$> q) as [s|].
    + destruct (bool_decide (s = "")).
      * apply list_elem_of_filter in Hm as [Hm _]. exact Hm.
      * apply list_elem_of_filter in Hm as [_ Hm].
        apply list_elem_of_filter in Hm as [Hm _]. exact Hm.
    + apply list_elem_of_filter in Hm as [Hm _]. exact Hm.
Qed.

Lemma listing_pages_through_the_matches_witness :
  let r := list_markets (fun s => s) (Some "sports") None 5%float 10%float db4 in
  Listing.total r = 100%nat
  /\ Summary.id <$> Listing.markets r = [210; 211; 212; 213; 214]%float
  /\ (forall s, s ∈ Listing.markets r -> Summary.cat s = "sports").
Proof.
  cbv zeta.
  destruct (listing_pages_through_the_matches (fun s => s) (Some "sports") None
              10 5 0 db4) as (Ht & Hp & _ & _ & Hc); [reflexivity|].
  change (of_nat 5) with 5%float in *. change (of_nat 10) with 10%float in *.
  split; [|split].
  - rewrite Ht. vm_compute. reflexivity.
  - rewrite Hp. vm_compute. reflexivity.
  - intros s Hs. apply (Hc "sports" s); [reflexivity|discriminate|discriminate|exact Hs].
Defined.

(** A negative integer as a slice bound counts from the end. *)
Lemma slice_index_opp len p :
  Zpos p < 2 ^ 53 ->
  slice_index len (PrimFloat.opp (of_Z (Zpos p)))
  = Z.to_nat (Z.max (Z.of_nat len - Zpos p) 0).
Proof.
  intros Hp. unfold slice_index.
  rewrite FloatAxioms.opp_spec, (Prim2SF_of_Z _ Hp). unfold SF_of_pos. cbn [SFopp negb].
  pose proof (digits2_pos_le_53 p Hp) as Hd.
  set (d := Zpos (digits2_pos p)) in *.
  assert (H0 : 0 < d) by (unfold d; lia).
  assert (Hpow : 0 < 2 ^ (53 - d)) by (apply Z.pow_pos_nonneg; lia).
  assert (Ht : truncate (Z.to_pos (Zpos p * 2 ^ (53 - d))) (d - 53) = Zpos p).
  { unfold truncate. rewrite Z2Pos.id by nia.
    destruct (Z.leb_spec 0 (d - 53)) as [H|H].
    - replace (d - 53) with 0 by lia. replace (53 - d) with 0 by lia.
      change (2 ^ 0) with 1. lia.
    - replace (- (d - 53)) with (53 - d) by lia.
      rewrite Z.shiftr_div_pow2 by lia. apply Z.div_mul. lia. }
  cbv zeta. rewrite Ht. reflexivity.
Qed.

(** X21.  A negative [limit] does not bound the page of
    [GET /api/markets]: with [offset] 0 and [limit] the negative integer
    [-n], the end of the slice counts from the end of the list, and the
    page holds every market that passes the filters but the last [n]. *)
Theorem negative_limit_lists_all_but_the_last toLowerCase cat q (n : positive) st :
  Zpos n < 2 ^ 53 ->
  let found := matching toLowerCase cat (toLowerCase <$> q) (markets st) in
  Listing.markets
    (list_markets toLowerCase cat q (PrimFloat.opp (of_Z (Zpos n))) 0%float st)
  = summary <$> take (length found - Pos.to_nat n) found.
Proof.
  intros Hn. cbv zeta. unfold list_markets. cbn [Listing.markets]. f_equal.
  unfold slice.
  assert (Hadd : (0 + PrimFloat.opp (of_Z (Zpos n)))%float = PrimFloat.opp (of_Z (Zpos n))).
  { apply Prim2SF_inj. rewrite FloatAxioms.add_spec, FloatAxioms.opp_spec.
    rewrite (Prim2SF_of_Z _ Hn). reflexivity. }
  rewrite Hadd, slice_index_opp by exact Hn.
  change (slice_index _ 0%float) with 0%nat. rewrite Nat.sub_0_r. cbn [drop].
  f_equal. lia.
Qed.

Lemma negative_limit_lists_all_but_the_last_witness :
  length (Listing.markets (list_markets (fun s => s) None None (-1)%float 0%float db4))
  = 599%nat.
Proof.
  change (-1)%float with (PrimFloat.opp (of_Z 1)).
  rewrite (negative_limit_lists_all_but_the_last (fun s => s) None None 1 db4 eq_refl).
  vm_compute. reflexivity.
Defined.

(** ** No Buy is lost *)

Lemma users_get_set_eq id u us :
  User.id u = id -> users_get id (users_set id u us) = Some u.
Proof.
  intros Hu. induction us as [|v us IH]; simpl.
  - rewrite bool_decide_eq_true_2 by exact Hu. reflexivity.
  - case_bool_decide as Hv; simpl.
    + rewrite bool_decide_eq_true_2 by exact Hu. reflexivity.
    + rewrite bool_decide_eq_false_2 by exact Hv. exact IH.
Qed.







(** ** Position ids *)

Lemma upsert_ids env body market price shares ps :
  Position.id <$> upsert env body market price shares ps = Position.id <$> ps
  \/ (Position.id <$> upsert env body market price shares ps
      = (Position.id <$> ps) ++ [position_uuid env]).
Proof.
  unfold upsert. destruct (findIndex _ ps) as [[j e]|].
  - left. apply list_eq. intros k. rewrite !list_lookup_fmap, list_lookup_alter.
    case_decide as Hk; [|reflexivity]. subst k.
    destruct (ps !! j); reflexivity.
  - right. rewrite fmap_app. reflexivity.
Qed.

Lemma step_position_ids st a seen :
  position_ids_among seen st -> position_ids_distinct st ->
  (forall x, x ∈ position_uuids [a] -> x ∉ seen) ->
  position_ids_among (seen ++ position_uuids [a]) (step st a)
  /\ position_ids_distinct (step st a).
Proof.
  intros Hseen Hdist Hfresh.
  assert (Hmono : forall st', position_ids_among seen st' ->
            position_ids_among (seen ++ position_uuids [a]) st').
  { intros st' H' id ps p Hps Hp. apply elem_of_app. left. eapply H'; eauto. }
  destruct a as [env body|env req body|req pid|env]; simpl.
  - unfold register.
    repeat match goal with |- context [if ?c then _ else _] => destruct c end;
      try (split; [apply Hmono, Hseen|exact Hdist]).
    split.
    + intros id ps p. simpl. destruct (decide (reg_uuid env = id)) as [<-|Hne].
      * rewrite lookup_insert_eq. intros [= <-] Hp. inversion Hp.
      * rewrite lookup_insert_ne by exact Hne. intros Hps Hp.
        apply elem_of_app. left. eapply Hseen; eauto.
    + intros id ps. simpl. destruct (decide (reg_uuid env = id)) as [<-|Hne].
      * rewrite lookup_insert_eq. intros [= <-]. apply NoDup_nil_2.
      * rewrite lookup_insert_ne by exact Hne. apply Hdist.
  - unfold trade. destruct (getUser req st) as [user|]; [|split; [apply Hmono, Hseen|exact Hdist]].
    destruct (negb _); [split; [apply Hmono, Hseen|exact Hdist]|].
    destruct (_ || _); [split; [apply Hmono, Hseen|exact Hdist]|].
    destruct (array_get _ _) as [[i market]|]; [|split; [apply Hmono, Hseen|exact Hdist]].
    unfold fill. simpl.
    assert (Hnew : position_uuid env ∉ seen).
    { apply Hfresh. simpl. apply list_elem_of_singleton. reflexivity. }
    split.
    + intros id ps p. simpl. rewrite lookup_alter. case_decide as Hid.
      * destruct (positions st !! User.id user) as [ps0|] eqn:Hps0; simpl; [|discriminate].
        intros [= <-] Hp.
        assert (Hin : Position.id p ∈ Position.id <$> upsert env body market
                         (side_price (side body) market)
                         (Math_floor (ToNumber (amount body)
                                      / (side_price (side body) market / 100))%float) ps0).
        { apply list_elem_of_fmap. eauto. }
        destruct (upsert_ids env body market (side_price (side body) market)
                    (Math_floor (ToNumber (amount body)
                                 / (side_price (side body) market / 100))%float) ps0)
          as [Heq|Heq]; rewrite Heq in Hin.
        -- apply list_elem_of_fmap in Hin as (q & -> & Hq).
           apply elem_of_app. left. eapply Hseen; eauto.
        -- apply elem_of_app in Hin as [Hin|Hin].
           ++ apply list_elem_of_fmap in Hin as (q & -> & Hq).
              apply elem_of_app. left. eapply Hseen; eauto.
           ++ apply elem_of_app. right. exact Hin.
      * intros Hps Hp. apply elem_of_app. left. eapply Hseen; eauto.
    + intros id ps. simpl. rewrite lookup_alter. case_decide as Hid.
      * destruct (positions st !! User.id user) as [ps0|] eqn:Hps0; simpl; [|discriminate].
        intros [= <-].
        destruct (upsert_ids env body market (side_price (side body) market)
                    (Math_floor (ToNumber (amount body)
                                 / (side_price (side body) market / 100))%float) ps0)
          as [Heq|Heq]; rewrite Heq.
        -- eapply Hdist, Hps0.
        -- apply NoDup_app. split; [eapply Hdist, Hps0|]. split; [|apply NoDup_singleton].
           intros x Hx ->%list_elem_of_singleton. apply Hnew.
           apply list_elem_of_fmap in Hx as (q & -> & Hq). eapply Hseen; eauto.
      * apply Hdist.
  - unfold sell. destruct (getUser req st) as [user|]; [|split; [apply Hmono, Hseen|exact Hdist]].
    destruct (findIndex _ _) as [[idx pos]|]; [|split; [apply Hmono, Hseen|exact Hdist]].
    destruct (array_get _ _) as [[i market]|]; [|split; [apply Hmono, Hseen|exact Hdist]].
    simpl. split.
    + intros id ps p. simpl. rewrite lookup_alter. case_decide as Hid.
      * destruct (positions st !! User.id user) as [ps0|] eqn:Hps0; simpl; [|discriminate].
        intros [= <-] Hp. apply elem_of_app. left. eapply Hseen; [exact Hps0|].
        eapply elem_of_sublist; [exact Hp|apply sublist_delete].
      * intros Hps Hp. apply elem_of_app. left. eapply Hseen; eauto.
    + intros id ps. simpl. rewrite lookup_alter. case_decide as Hid.
      * destruct (positions st !! User.id user) as [ps0|] eqn:Hps0; simpl; [|discriminate].
        intros [= <-].
        assert (Hs : (Position.id <$> delete idx ps0) `sublist_of` (Position.id <$> ps0))
          by (apply fmap_sublist, sublist_delete).
        eapply sublist_NoDup; [eapply Hdist, Hps0|exact Hs].
      * apply Hdist.
  - split; [apply Hmono, Hseen|exact Hdist].
Qed.

Lemma position_uuids_cons a l : position_uuids (a :: l) = position_uuids [a] ++ position_uuids l.
Proof. unfold position_uuids. simpl. destruct a; reflexivity. Qed.

Lemma run_position_ids l : forall st seen,
  position_ids_among seen st -> position_ids_distinct st ->
  NoDup (position_uuids l) ->
  (forall x, x ∈ position_uuids l -> x ∉ seen) ->
  position_ids_distinct (run st l).
Proof.
  induction l as [|a l IH]; intros st seen Hseen Hdist Hnd Hfresh; [exact Hdist|].
  rewrite position_uuids_cons in Hnd, Hfresh.
  apply NoDup_app in Hnd as (Hnda & Hdisj & Hndl).
  destruct (step_position_ids st a seen Hseen Hdist) as [Hseen' Hdist'].
  { intros x Hx. apply Hfresh, elem_of_app. auto. }
  simpl. apply (IH _ (seen ++ position_uuids [a])); try assumption.
  intros x Hx [Hin|Hin]%elem_of_app.
  - apply (Hfresh x); [apply elem_of_app; auto|exact Hin].
  - apply (Hdisj x Hin Hx).
Qed.

(** X23.  When the ids drawn for new positions are pairwise different,
    no user ever holds two positions with the same id, in any ledger
    reached from one without positions; so a successful Sell closes the
    one position that has the id: none of the caller's remaining
    positions carries it. *)
Theorem position_ids_stay_distinct st0 actions :
  positions st0 = ∅ ->
  NoDup (position_uuids actions) ->
  let st := run st0 actions in
  position_ids_distinct st
  /\ forall req positionId b payout st' user,
       sell req positionId st = (Ok (b, payout), st') ->
       getUser req st = Some user ->
       forall p, p ∈ default [] (positions st' !! User.id user) ->
         strict_eq (Str (Position.id p)) positionId = false.
Proof.
  intros H0 Hnd. cbv zeta.
  assert (Hdist : position_ids_distinct (run st0 actions)).
  { apply (run_position_ids actions st0 []); try assumption.
    - intros id ps p Hps. rewrite H0, lookup_empty in Hps. discriminate.
    - intros id ps Hps. rewrite H0, lookup_empty in Hps. discriminate.
    - intros x _ Hx. inversion Hx. }
  split; [exact Hdist|].
  intros req pid b payout st' user Hsell Hu p. unfold sell in Hsell. rewrite Hu in Hsell.
  destruct (positions (run st0 actions) !! User.id user) as [ps|] eqn:Hps;
    simpl default in Hsell; [|discriminate].
  destruct (findIndex _ ps) as [[idx pos]|] eqn:Hf; [|discriminate].
  destruct (array_get _ _) as [[i market]|]; [|discriminate].
  injection Hsell as _ _ <-. cbn [positions User.id].
  rewrite lookup_alter_eq, Hps. simpl. intros Hp.
  apply findIndex_Some in Hf as (Hidx & Hid & _).
  pose proof (NoDup_fmap_delete Position.id ps idx pos (Hdist _ _ Hps) Hidx p Hp) as Hne.
  destruct pid as [x|s]; [reflexivity|]. simpl in *.
  apply bool_decide_eq_true_1 in Hid. apply bool_decide_eq_false_2. congruence.
Qed.

Lemma position_ids_stay_distinct_witness :
  position_ids_distinct (run db0 actions8)
  /\ (Position.id <$> default [] (positions (run db0 actions8) !! alice_id))
     = ["9f1c2c3e-0000-4000-8000-000000000003"].
Proof.
  split; [|vm_compute; reflexivity].
  apply (position_ids_stay_distinct db0 actions8 eq_refl).
  apply (bool_decide_unpack _). vm_compute. exact I.
Defined.

(** ** Win and loss counters *)

Lemma of_nat_succ n : Z.of_nat n + 1 < 2 ^ 53 -> (of_nat n + 1)%float = of_nat (S n).
Proof.
  intros Hn. unfold of_nat. change 1%float with (of_Z 1).
  rewrite of_Z_add by lia. f_equal. lia.
Qed.

Lemma counted_mono n n' u : (n <= n')%nat -> counted n u -> counted n' u.
Proof. intros Hn (w & l & Hw & Hl & Hwl). exists w, l. repeat split; try assumption. lia. Qed.

Lemma step_counted st a n :
  Z.of_nat n + 1 < 2 ^ 53 ->
  Forall (counted n) (users st) ->
  Forall (counted (n + length (filter is_sell [a]))) (users (step st a)).
Proof.
  intros Hn Hst.
  assert (Hmono : Forall (counted (n + length (filter is_sell [a]))) (users st)).
  { eapply Forall_impl; [exact Hst|]. intros u. apply counted_mono. lia. }
  destruct a as [env body|env req body|req pid|env]; simpl step.
  - unfold register.
    repeat match goal with |- context [if ?c then _ else _] => destruct c end;
      try exact Hmono.
    simpl. apply Forall_users_set; [exact Hmono|].
    exists 0%nat, 0%nat. repeat split; simpl; lia.
  - unfold trade. destruct (getUser req st) as [user|] eqn:Hu; [|exact Hmono].
    destruct (negb _); [exact Hmono|]. destruct (_ || _); [exact Hmono|].
    destruct (array_get _ _) as [[i market]|]; [|exact Hmono].
    unfold fill. simpl. apply Forall_users_set; [exact Hmono|].
    apply getUser_Some, users_get_elem in Hu.
    eapply Forall_forall in Hmono; [|exact Hu]. exact Hmono.
  - assert (Hcnt : length (filter is_sell [Sell req pid]) = 1%nat) by reflexivity.
    rewrite Hcnt in *. clear Hcnt.
    unfold sell. destruct (getUser req st) as [user|] eqn:Hu; [|exact Hmono].
    destruct (findIndex _ _) as [[idx pos]|]; [|exact Hmono].
    destruct (array_get _ _) as [[i market]|]; [|exact Hmono].
    cbn [snd users]. apply Forall_users_set; [exact Hmono|].
    apply getUser_Some, users_get_elem in Hu.
    eapply Forall_forall in Hst; [|exact Hu].
    destruct Hst as (w & l & Hw & Hl & Hwl).
    destruct (gt _ _); cbn [User.wins User.losses].
    + exists (S w), l. rewrite Hw, of_nat_succ by lia. repeat split; [exact Hl|lia].
    + exists w, (S l). rewrite Hl, of_nat_succ by lia. repeat split; [exact Hw|lia].
  - exact Hmono.
Qed.

Lemma run_counted l : forall st n,
  Z.of_nat n + Z.of_nat (length l) < 2 ^ 53 ->
  Forall (counted n) (users st) ->
  Forall (counted (n + length (filter is_sell l))) (users (run st l)).
Proof.
  induction l as [|a l IH]; intros st n Hn Hst.
  - simpl. rewrite Nat.add_0_r. exact Hst.
  - simpl length in Hn.
    pose proof (step_counted st a n ltac:(lia) Hst) as Hstep.
    assert (Hle : (length (filter is_sell [a]) <= 1)%nat).
    { rewrite filter_cons. case_decide; simpl; lia. }
    specialize (IH (step st a) (n + length (filter is_sell [a]))%nat ltac:(lia) Hstep).
    replace (n + length (filter is_sell (a :: l)))%nat
      with (n + length (filter is_sell [a]) + length (filter is_sell l))%nat.
    + exact IH.
    + rewrite !filter_cons. case_decide; simpl; lia.
Qed.

(** X24.  The win and loss counters count sales: in every ledger reached
    from one without users (by fewer than 2^53 steps), the [wins] and
    [losses] of every user are whole numbers, and together they are at
    most the number of Sells made so far. *)
Theorem counters_count_the_sales st0 actions :
  users st0 = [] ->
  Z.of_nat (length actions) < 2 ^ 53 ->
  Forall (counted (length (filter is_sell actions))) (users (run st0 actions)).
Proof.
  intros H0 Hlen.
  apply (run_counted actions st0 0%nat); [lia|]. rewrite H0. apply Forall_nil_2.
Qed.

Lemma counters_count_the_sales_witness :
  Forall (counted 1) (users (run db0 actions8))
  /\ (fun u => (User.wins u, User.losses u)) <$> users (run db0 actions8)
     = [(0, 1)%float].
Proof.
  split; [|vm_compute; reflexivity].
  apply (counters_count_the_sales db0 actions8 eq_refl). reflexivity.
Defined.

(** ** The largest step of a price *)

Lemma step_ok_all n : 3 <= n <= 97 -> step_ok n = true.
Proof.
  intros Hn.
  assert (H : forallb step_ok (seqZ 3 95) = true) by (vm_compute; reflexivity).
  rewrite forallb_forall in H. apply H.
  apply list_elem_of_In, elem_of_seqZ. lia.
Qed.

(** X25.  One tick can move a price by two: [change] is below 1.5, yet
    for every integer YES price from 3 to 97 the largest draw below 1
    takes the price up by 2, the sum [yes + change] being rounded to
    [yes + 1.5] and [Math.round] rounding halves up; the smallest draw,
    0, takes the price down by 1 only. *)
Theorem a_tick_can_raise_a_price_by_two now m n :
  3 <= n <= 97 ->
  Market.yes m = of_Z n ->
  le 0%float top_draw = true /\ lt top_draw 1%float = true
  /\ Market.yes (updateMarket top_draw now m) = of_Z (n + 2)
  /\ Market.yes (updateMarket 0%float now m) = of_Z (n - 1).
Proof.
  intros Hn Hy. split; [reflexivity|]. split; [reflexivity|].
  pose proof (step_ok_all n Hn) as H. unfold step_ok in H.
  apply andb_prop in H as [H1 H2].
  apply FloatAxioms.Leibniz.eqb_spec in H1, H2.
  unfold updateMarket. cbn [Market.yes]. rewrite Hy. split; assumption.
Qed.

Lemma a_tick_can_raise_a_price_by_two_witness :
  Market.yes (updateMarket top_draw 1700000002500%float (sample_market 0)) = 42%float
  /\ Market.yes (updateMarket 0%float 1700000002500%float (sample_market 0)) = 39%float.
Proof.
  destruct (a_tick_can_raise_a_price_by_two 1700000002500%float (sample_market 0) 40)
    as (_ & _ & H1 & H2); [lia|reflexivity|].
  split; [exact H1|exact H2].
Defined.
